(** * docinator: the scrape orchestrator, the structural extractor and the
      HTML-to-Markdown reducer, embedded in Rocq.

    Go strings are byte strings; they are modelled by [string] (a list of
    8-bit characters).  Library functions the program calls ([strings],
    [strconv], [regexp], [goquery]) are given executable models that follow
    the behaviour of the Go implementations on bytes. *)

From Stdlib Require Import String Ascii List ZArith Lia Bool Arith Permutation.
Import ListNotations.
Open Scope list_scope.
Open Scope string_scope.

(** ** Package [strings], [strconv] *)

Module GoStrings.

Definition ch (n : nat) : string := String (ascii_of_nat n) "".
Definition LF : string := ch 10.
Definition CR : string := ch 13.
Definition DQ : string := ch 34.

Fixpoint drop (n : nat) (s : string) : string :=
  match n, s with
  | O, _ => s
  | S k, String _ s' => drop k s'
  | S _, EmptyString => EmptyString
  end.

Fixpoint take (n : nat) (s : string) : string :=
  match n, s with
  | O, _ => EmptyString
  | S k, String c s' => String c (take k s')
  | S _, EmptyString => EmptyString
  end.

Fixpoint rev (s : string) : string :=
  match s with
  | EmptyString => EmptyString
  | String c s' => rev s' ++ String c EmptyString
  end.

(** [strings.CutPrefix]: the rest of [s] after [pfx], if [s] starts with it. *)
Fixpoint CutPrefix (s pfx : string) : option string :=
  match pfx, s with
  | EmptyString, _ => Some s
  | String a p, String b t => if Ascii.eqb a b then CutPrefix t p else None
  | String _ _, EmptyString => None
  end.

Definition HasPrefix (s pfx : string) : bool :=
  match CutPrefix s pfx with Some _ => true | None => false end.

Definition TrimPrefix (s pfx : string) : string :=
  match CutPrefix s pfx with Some r => r | None => s end.

Fixpoint Contains (s sub : string) : bool :=
  if HasPrefix s sub then true
  else match s with
       | EmptyString => false
       | String _ s' => Contains s' sub
       end.

(** [strings.Index] for a one-byte needle. *)
Fixpoint IndexByte (s : string) (c : ascii) : option nat :=
  match s with
  | EmptyString => None
  | String d s' =>
      if Ascii.eqb d c then Some 0
      else match IndexByte s' c with Some i => Some (S i) | None => None end
  end.

(** [strings.ReplaceAll s old new] for a non-empty [old]: the
    non-overlapping occurrences of [old], scanning from the left.  [skip]
    counts the bytes of an occurrence that are still to be passed over. *)
Fixpoint replaceFrom (skip : nat) (s old new : string) : string :=
  match s with
  | EmptyString => EmptyString
  | String c s' =>
      match skip with
      | S k => replaceFrom k s' old new
      | O =>
          if HasPrefix s old
          then new ++ replaceFrom (String.length old - 1) s' old new
          else String c (replaceFrom 0 s' old new)
      end
  end.

Definition ReplaceAll (s old new : string) : string := replaceFrom 0 s old new.

(** White space, as [unicode.IsSpace] sees it through UTF-8: the width in
    bytes of the white-space rune encoded at the head of [s], 0 if there is
    none.  The runes are U+0009..U+000D, U+0020, U+0085, U+00A0, U+1680,
    U+2000..U+200A, U+2028, U+2029, U+202F, U+205F and U+3000. *)
Definition asciiSpace (n : nat) : bool :=
  (((9 <=? n) && (n <=? 13)) || (n =? 32))%nat.

Definition space2 (a b : nat) : bool :=
  ((a =? 194) && ((b =? 133) || (b =? 160)))%nat.

Definition space3 (a b c : nat) : bool :=
  (((a =? 225) && (b =? 154) && (c =? 128))
   || ((a =? 226) && (b =? 128)
       && (((128 <=? c) && (c <=? 138)) || (c =? 168) || (c =? 169) || (c =? 175)))
   || ((a =? 226) && (b =? 129) && (c =? 159))
   || ((a =? 227) && (b =? 128) && (c =? 128)))%nat.

Definition spaceWidth (s : string) : nat :=
  match s with
  | EmptyString => 0
  | String a r =>
      if asciiSpace (nat_of_ascii a) then 1
      else match r with
           | EmptyString => 0
           | String b r' =>
               if space2 (nat_of_ascii a) (nat_of_ascii b) then 2
               else match r' with
                    | EmptyString => 0
                    | String c _ =>
                        if space3 (nat_of_ascii a) (nat_of_ascii b) (nat_of_ascii c)
                        then 3 else 0
                    end
           end
  end.

(** The same test on a reversed string: the rune that ends the string. *)
Definition spaceWidthRev (s : string) : nat :=
  match s with
  | EmptyString => 0
  | String c r =>
      if asciiSpace (nat_of_ascii c) then 1
      else match r with
           | EmptyString => 0
           | String b r' =>
               if space2 (nat_of_ascii b) (nat_of_ascii c) then 2
               else match r' with
                    | EmptyString => 0
                    | String a _ =>
                        if space3 (nat_of_ascii a) (nat_of_ascii b) (nat_of_ascii c)
                        then 3 else 0
                    end
           end
  end.

Fixpoint trimWith (width : string -> nat) (fuel : nat) (s : string) : string :=
  match fuel with
  | O => s
  | S f =>
      match width s with
      | O => s
      | S w => trimWith width f (drop (S w) s)
      end
  end.

Definition TrimLeftSpace (s : string) : string :=
  trimWith spaceWidth (String.length s) s.

Definition TrimRightSpace (s : string) : string :=
  rev (trimWith spaceWidthRev (String.length s) (rev s)).

Definition TrimSpace (s : string) : string :=
  TrimRightSpace (TrimLeftSpace s).

(** ASCII lower-casing.  [strings.ToLower] is used by the program only
    before a search for "language-go"; no rune outside ASCII lower-cases
    to one of the letters of that word, so the byte-wise version finds
    the word exactly when the Unicode one does. *)
Definition lowerAscii (c : ascii) : ascii :=
  let n := nat_of_ascii c in
  if ((65 <=? n) && (n <=? 90))%nat then ascii_of_nat (n + 32) else c.

Definition upperAscii (c : ascii) : ascii :=
  let n := nat_of_ascii c in
  if ((97 <=? n) && (n <=? 122))%nat then ascii_of_nat (n - 32) else c.

Fixpoint ToLower (s : string) : string :=
  match s with
  | EmptyString => EmptyString
  | String c s' => String (lowerAscii c) (ToLower s')
  end.

Fixpoint Repeat (s : string) (n : nat) : string :=
  match n with
  | O => EmptyString
  | S k => s ++ Repeat s k
  end.

(** [strconv.Itoa] on a non-negative number: the decimal digits, the
    most significant first. *)
Definition digit (d : nat) : string := String (ascii_of_nat (48 + d)) "".

Fixpoint itoaDigits (fuel n : nat) : string :=
  match fuel with
  | O => ""
  | S f =>
      if (n <? 10)%nat then digit n
      else itoaDigits f (n / 10) ++ digit (n mod 10)
  end.

Definition Itoa (n : nat) : string := itoaDigits (S n) n.

(** [strconv.Atoi] on a 64-bit platform: an optional sign, then decimal
    digits only; [None] stands for a syntax or range error. *)
Definition digitVal (c : ascii) : option Z :=
  let n := nat_of_ascii c in
  if ((48 <=? n) && (n <=? 57))%nat then Some (Z.of_nat (n - 48)) else None.

Fixpoint parseDigits (acc : Z) (s : string) : option Z :=
  match s with
  | EmptyString => Some acc
  | String c s' =>
      match digitVal c with
      | Some d => parseDigits (acc * 10 + d) s'
      | None => None
      end
  end.

Definition maxInt : Z := 9223372036854775807.
Definition minInt : Z := -9223372036854775808.

Definition Atoi (s : string) : option Z :=
  match s with
  | EmptyString => None
  | String c r =>
      let '(neg, body) :=
        if Ascii.eqb c "-" then (true, r)
        else if Ascii.eqb c "+" then (false, r)
        else (false, s) in
      match body with
      | EmptyString => None
      | String _ _ =>
          match parseDigits 0 body with
          | Some n =>
              let v := if neg then (- n)%Z else n in
              if ((minInt <=? v) && (v <=? maxInt))%Z then Some v else None
          | None => None
          end
      end
  end.

(** [strings.HasSuffix] and [strings.TrimSuffix] *)
Definition HasSuffix (s sfx : string) : bool :=
  ((String.length sfx <=? String.length s)%nat
   && (drop (String.length s - String.length sfx) s =? sfx))%bool.

Definition TrimSuffix (s sfx : string) : string :=
  if HasSuffix s sfx then take (String.length s - String.length sfx) s else s.

(** [fmt.Sprintf] with the verb [%d] on an [int]: [strconv.Itoa] with its
    sign. *)
Definition FormatInt (n : Z) : string :=
  if (n <? 0)%Z then "-" ++ Itoa (Z.to_nat (- n)) else Itoa (Z.to_nat n).

End GoStrings.

(** ** Package [regexp]

    The patterns of the program use literals, the classes [.], [\s] and
    [[^c]], greedy and lazy repetition of one class, an optional item,
    concatenation and capture groups, all under the flags [(?is)].  The
    matcher below is the backtracking matcher whose first success is Go's
    leftmost-first match.  It works on bytes: every repetition in the
    patterns is followed by an ASCII item, an ASCII byte is never part of a
    longer rune, so the bytes consumed are those of the runes Go consumes. *)

Module Regexp.
Import GoStrings.

Inductive class :=
| AnyChar                (* [.] with flag [s] *)
| NotChar (c : ascii)    (* [[^c]] *)
| SpaceChar.             (* [\s], that is [[\t\n\f\r ]] *)

Definition inClass (k : class) (c : ascii) : bool :=
  match k with
  | AnyChar => true
  | NotChar d => negb (Ascii.eqb c d)
  | SpaceChar =>
      let n := nat_of_ascii c in
      ((n =? 9) || (n =? 10) || (n =? 12) || (n =? 13) || (n =? 32))%nat
  end.

Inductive re :=
| Eps
| Lit (c : ascii)                   (* a literal, under flag [i] *)
| Cls (k : class)
| Star (greedy : bool) (k : class)  (* [k*] or [k*?] *)
| Opt (r : re)                      (* [r?] *)
| Seq (r1 r2 : re)
| Group (n : nat) (r : re).

(** What a literal matches under flag [i]: Go folds case with
    [unicode.SimpleFold], which relates s to U+017F and k to U+212A. *)
Definition foldAlternatives (c : ascii) : list string :=
  let l := lowerAscii c in
  let u := upperAscii c in
  if Ascii.eqb l u then [String c ""]
  else [String l ""; String u ""]
       ++ (if Ascii.eqb l "s" then [ch 197 ++ ch 191]
           else if Ascii.eqb l "k" then [ch 226 ++ ch 132 ++ ch 170]
           else []).

Fixpoint cutAny (s : string) (alts : list string) : option string :=
  match alts with
  | [] => None
  | a :: rest =>
      match CutPrefix s a with
      | Some r => Some r
      | None => cutAny s rest
      end
  end.

Definition caps := list (nat * string).

Section Matcher.
Context {R : Type}.

Fixpoint starGreedy (k : class) (s : string) (cont : string -> option R)
  : option R :=
  match s with
  | EmptyString => cont s
  | String c s' =>
      if inClass k c
      then match starGreedy k s' cont with
           | Some x => Some x
           | None => cont s
           end
      else cont s
  end.

Fixpoint starLazy (k : class) (s : string) (cont : string -> option R)
  : option R :=
  match cont s with
  | Some x => Some x
  | None =>
      match s with
      | EmptyString => None
      | String c s' => if inClass k c then starLazy k s' cont else None
      end
  end.

Fixpoint run (r : re) (s : string) (cs : caps)
  (cont : string -> caps -> option R) : option R :=
  match r with
  | Eps => cont s cs
  | Lit c =>
      match cutAny s (foldAlternatives c) with
      | Some s' => cont s' cs
      | None => None
      end
  | Cls k =>
      match s with
      | String c s' => if inClass k c then cont s' cs else None
      | EmptyString => None
      end
  | Star true k => starGreedy k s (fun s' => cont s' cs)
  | Star false k => starLazy k s (fun s' => cont s' cs)
  | Opt r1 =>
      match run r1 s cs cont with
      | Some x => Some x
      | None => cont s cs
      end
  | Seq r1 r2 => run r1 s cs (fun s1 c1 => run r2 s1 c1 cont)
  | Group n r1 =>
      run r1 s cs
        (fun s' c' =>
           cont s' ((n, take (String.length s - String.length s') s) :: c'))
  end.
End Matcher.

(** A match at the head of [s]: the captures and what follows the match. *)
Definition matchAt (r : re) (s : string) : option (caps * string) :=
  run r s [] (fun s' cs => Some (cs, s')).

Fixpoint lits (s : string) : re :=
  match s with
  | EmptyString => Eps
  | String c s' => Seq (Lit c) (lits s')
  end.

Fixpoint seqs (rs : list re) : re :=
  match rs with
  | [] => Eps
  | r :: rest => Seq r (seqs rest)
  end.

Fixpoint numGroups (r : re) : nat :=
  match r with
  | Opt r1 => numGroups r1
  | Seq r1 r2 => Nat.max (numGroups r1) (numGroups r2)
  | Group n r1 => Nat.max n (numGroups r1)
  | _ => 0
  end.

Fixpoint group (cs : caps) (n : nat) : string :=
  match cs with
  | [] => ""
  | (m, v) :: rest => if (m =? n)%nat then v else group rest n
  end.

(** The pieces of a text: bytes outside every match, and the matches, from
    the left, none overlapping.  No pattern of the program matches the
    empty string. *)
Inductive segment :=
| Keep (c : ascii)
| Match (whole : string) (cs : caps).

Fixpoint segments (r : re) (skip : nat) (s : string) : list segment :=
  match s with
  | EmptyString => []
  | String c s' =>
      match skip with
      | S k => segments r k s'
      | O =>
          match matchAt r s with
          | Some (cs, rest) =>
              let n := String.length s - String.length rest in
              Match (take n s) cs :: segments r (n - 1) s'
          | None => Keep c :: segments r 0 s'
          end
      end
  end.

(** [FindStringSubmatch]: the leftmost match and its groups, [None] for
    Go's nil slice. *)
Fixpoint firstMatch (l : list segment) : option (string * caps) :=
  match l with
  | [] => None
  | Keep _ :: rest => firstMatch rest
  | Match w cs :: _ => Some (w, cs)
  end.

Definition FindStringSubmatch (r : re) (s : string) : option (list string) :=
  match firstMatch (segments r 0 s) with
  | Some (w, cs) => Some (w :: map (group cs) (seq 1 (numGroups r)))
  | None => None
  end.

(** Replacement templates: [$n] and literal text. *)
Inductive piece :=
| TLit (s : string)
| TGroup (n : nat).

Fixpoint expand (tpl : list piece) (cs : caps) : string :=
  match tpl with
  | [] => ""
  | TLit s :: rest => s ++ expand rest cs
  | TGroup n :: rest => group cs n ++ expand rest cs
  end.

Fixpoint substitute (tpl : list piece) (l : list segment) : string :=
  match l with
  | [] => ""
  | Keep c :: rest => String c (substitute tpl rest)
  | Match _ cs :: rest => expand tpl cs ++ substitute tpl rest
  end.

Definition ReplaceAllString (r : re) (src : string) (tpl : list piece) : string :=
  substitute tpl (segments r 0 src).

(** [ReplaceAllStringFunc]; the function is given the number of matches
    replaced before this one, and may panic ([None]). *)
Fixpoint substituteFunc (f : nat -> string -> option string) (i : nat)
  (l : list segment) : option string :=
  match l with
  | [] => Some ""
  | Keep c :: rest =>
      match substituteFunc f i rest with
      | Some t => Some (String c t)
      | None => None
      end
  | Match w _ :: rest =>
      match f i w with
      | Some out =>
          match substituteFunc f (S i) rest with
          | Some t => Some (out ++ t)
          | None => None
          end
      | None => None
      end
  end.

Definition ReplaceAllStringFunc (r : re) (src : string)
  (f : nat -> string -> option string) : option string :=
  substituteFunc f 0 (segments r 0 src).

End Regexp.

(** ** Package [internal/utils] *)

Module Utils.
Import GoStrings Regexp.

Definition gt : ascii := ">"%char.
Definition lt : ascii := "<"%char.
Definition dq : ascii := ascii_of_nat 34.

(** Go visits the entries of a map in an order that may change from one
    [range] statement to the next.  Every [range] over a map literal takes
    the order of its visit as a parameter: a permutation of the literal. *)
Definition table := list (string * string).

Definition replaceEach (order : table) (s : string) : string :=
  fold_left (fun acc kv => ReplaceAll acc (fst kv) (snd kv)) order s.

Definition entityTable : table :=
  [ ("&quot;", DQ); ("&#34;", DQ); ("&apos;", "'"); ("&#39;", "'");
    ("&amp;", "&"); ("&lt;", "<"); ("&gt;", ">"); ("&nbsp;", " ") ].

(** [unescapeCommonEntities], visiting [repl] in the given order. *)
Definition unescapeCommonEntities (order : table) (s : string) : string :=
  replaceEach order s.

Definition replacements : table :=
  [ ("<p>", LF); ("</p>", LF ++ LF); ("<br>", LF); ("<br/>", LF);
    ("<strong>", "**"); ("</strong>", "**"); ("<b>", "**"); ("</b>", "**");
    ("<em>", "*"); ("</em>", "*"); ("<i>", "*"); ("</i>", "*");
    ("<ul>", LF); ("</ul>", LF); ("<ol>", LF); ("</ol>", LF);
    ("<li>", "- "); ("</li>", LF);
    ("<blockquote>", "> "); ("</blockquote>", LF);
    ("<hr>", LF ++ "---" ++ LF); ("<hr/>", LF ++ "---" ++ LF) ].

(** The orders of the map visits of one call of [ConvertHTMLToMarkdown]:
    the first and the last [unescapeCommonEntities], the one made for the
    [i]-th fenced code block, and the visit of [replacements]. *)
Record MapOrders := {
  entFirst : table;
  entInCode : nat -> table;
  blockOrder : table;
  entLast : table
}.

Definition sourceOrders : MapOrders :=
  {| entFirst := entityTable; entInCode := fun _ => entityTable;
     blockOrder := replacements; entLast := entityTable |}.

Definition OrdersOK (o : MapOrders) : Prop :=
  Permutation (entFirst o) entityTable
  /\ (forall i, Permutation (entInCode o i) entityTable)
  /\ Permutation (blockOrder o) replacements
  /\ Permutation (entLast o) entityTable.

(** The patterns are quoted with Q for the double quote and with a blank
    between a star and the parenthesis that closes a group.

    (?is)<pre>\s*<code([^>]* )>(.*?)</code>\s*</pre> *)
Definition preCodeRe : re :=
  seqs [ lits "<pre>"; Star true SpaceChar; lits "<code";
         Group 1 (Star true (NotChar gt)); Lit gt;
         Group 2 (Star false AnyChar);
         lits "</code>"; Star true SpaceChar; lits "</pre>" ].

(** (?is)<hN[^>]*>(.*?)</hN>, for N the decimal numeral of the level *)
Definition headingRe (level : nat) : re :=
  seqs [ lits ("<h" ++ Itoa level); Star true (NotChar gt); Lit gt;
         Group 1 (Star false AnyChar);
         lits ("</h" ++ Itoa level ++ ">") ].

(** (?is)<a[^>]*\shref=Q([^Q]+)Q[^>]*>(.*?)</a> *)
Definition anchorRe : re :=
  seqs [ lits "<a"; Star true (NotChar gt); Cls SpaceChar; lits "href="; Lit dq;
         Group 1 (Seq (Cls (NotChar dq)) (Star true (NotChar dq))); Lit dq;
         Star true (NotChar gt); Lit gt;
         Group 2 (Star false AnyChar); lits "</a>" ].

(** (?is)<img[^>]*\salt=Q([^Q]* )Q[^>]*\ssrc=Q([^Q]+)Q[^>]*/?> *)
Definition imgAltSrcRe : re :=
  seqs [ lits "<img"; Star true (NotChar gt); Cls SpaceChar; lits "alt="; Lit dq;
         Group 1 (Star true (NotChar dq)); Lit dq;
         Star true (NotChar gt); Cls SpaceChar; lits "src="; Lit dq;
         Group 2 (Seq (Cls (NotChar dq)) (Star true (NotChar dq))); Lit dq;
         Star true (NotChar gt); Opt (Lit "/"); Lit gt ].

(** (?is)<img[^>]*\ssrc=Q([^Q]+)Q[^>]*\salt=Q([^Q]* )Q[^>]*/?> *)
Definition imgSrcAltRe : re :=
  seqs [ lits "<img"; Star true (NotChar gt); Cls SpaceChar; lits "src="; Lit dq;
         Group 1 (Seq (Cls (NotChar dq)) (Star true (NotChar dq))); Lit dq;
         Star true (NotChar gt); Cls SpaceChar; lits "alt="; Lit dq;
         Group 2 (Star true (NotChar dq)); Lit dq;
         Star true (NotChar gt); Opt (Lit "/"); Lit gt ].

(** (?is)<img[^>]*\ssrc=Q([^Q]+)Q[^>]*/?> *)
Definition imgSrcOnlyRe : re :=
  seqs [ lits "<img"; Star true (NotChar gt); Cls SpaceChar; lits "src="; Lit dq;
         Group 1 (Seq (Cls (NotChar dq)) (Star true (NotChar dq))); Lit dq;
         Star true (NotChar gt); Opt (Lit "/"); Lit gt ].

(** (?is)<code>(.*?)</code> *)
Definition inlineCodeRe : re :=
  seqs [ lits "<code>"; Group 1 (Star false AnyChar); lits "</code>" ].

(** [stripAllTags]: one turn of the loop per unit of fuel; [None] when the
    fuel runs out before the loop ends. *)
Fixpoint stripLoop (fuel : nat) (s : string) : option string :=
  match fuel with
  | O => None
  | S f =>
      match IndexByte s lt with
      | None => Some s
      | Some start =>
          match IndexByte (drop start s) gt with
          | None => Some s
          | Some e => stripLoop f (take start s ++ drop (start + e + 1) s)
          end
      end
  end.

Definition stripAllTags (s : string) : option string :=
  stripLoop (S (String.length s)) s.

(** The loop that replaces three line feeds by two while three in a row
    remain. *)
Fixpoint collapseLoop (fuel : nat) (html : string) : option string :=
  match fuel with
  | O => None
  | S f =>
      if Contains html (LF ++ LF ++ LF)
      then collapseLoop f (ReplaceAll html (LF ++ LF ++ LF) (LF ++ LF))
      else Some html
  end.

(** The function given to [ReplaceAllStringFunc] for fenced code blocks.
    It indexes the result of [FindStringSubmatch]; an index out of range
    is a panic, [None] here. *)
Definition fenceBlock (o : MapOrders) (i : nat) (m : string) : option string :=
  match FindStringSubmatch preCodeRe m with
  | None => None
  | Some matches =>
      match nth_error matches 1, nth_error matches 2 with
      | Some attrs, Some code =>
          let lang := if Contains (ToLower attrs) "language-go" then "go" else "" in
          let code := unescapeCommonEntities (entInCode o i) code in
          if negb (lang =? "")
          then Some ("```" ++ lang ++ LF ++ code ++ LF ++ "```" ++ LF ++ LF)
          else Some ("```" ++ LF ++ code ++ LF ++ "```" ++ LF ++ LF)
      | _, _ => None
      end
  end.

Definition headingStep (html : string) (level : nat) : string :=
  ReplaceAllString (headingRe level) html
    [TLit (Repeat "#" level ++ " "); TGroup 1; TLit (LF ++ LF)].

(** [ConvertHTMLToMarkdown].  [None] stands for a panic or for a loop that
    does not end. *)
Definition ConvertHTMLToMarkdown (o : MapOrders) (html : string) : option string :=
  if TrimSpace html =? "" then Some html
  else
    let html := ReplaceAll html (CR ++ LF) LF in
    let html := unescapeCommonEntities (entFirst o) html in
    match ReplaceAllStringFunc preCodeRe html (fenceBlock o) with
    | None => None
    | Some html =>
        let html := fold_left headingStep (seq 1 6) html in
        let html := ReplaceAllString anchorRe html
                      [TLit "["; TGroup 2; TLit "]("; TGroup 1; TLit ")"] in
        let html := ReplaceAllString imgAltSrcRe html
                      [TLit "!["; TGroup 1; TLit "]("; TGroup 2; TLit ")"] in
        let html := ReplaceAllString imgSrcAltRe html
                      [TLit "!["; TGroup 2; TLit "]("; TGroup 1; TLit ")"] in
        let html := ReplaceAllString imgSrcOnlyRe html
                      [TLit "![]("; TGroup 1; TLit ")"] in
        let html := ReplaceAllString inlineCodeRe html
                      [TLit "`"; TGroup 1; TLit "`"] in
        let html := replaceEach (blockOrder o) html in
        match stripAllTags html with
        | None => None
        | Some html =>
            let html := ReplaceAll html (LF ++ "`" ++ LF) (LF ++ "```" ++ LF) in
            let html := ReplaceAll html (LF ++ "`" ++ LF ++ LF)
                          (LF ++ "```" ++ LF ++ LF) in
            let html := unescapeCommonEntities (entLast o) html in
            match collapseLoop (S (String.length html)) html with
            | None => None
            | Some html => Some (TrimSpace html)
            end
        end
    end.

(** [LooksLikeHTML] *)
Definition LooksLikeHTML (s : string) : bool :=
  if s =? "" then false
  else Contains s "<" && Contains s ">".

End Utils.

(** ** Package [internal/models] *)

Module Models.

(** [time.Time]: its zero value, or an instant read from the clock. *)
Inductive Time :=
| zeroTime
| instant (t : Z).

Module Example.
Record t := mk { Name : string; Code : string; Output : string }.
End Example.

Module Function.
Record t := mk {
  Name : string;
  Description : string;
  Signature : string;
  Receiver : string;
  Deprecated : string;
  AddedIn : string;
  Examples : list Example.t
}.
End Function.

Module Type_.
Record t := mk {
  Name : string;
  Description : string;
  Definition_ : string;
  Kind : string;
  Deprecated : string;
  AddedIn : string;
  Methods : list Function.t;
  Examples : list Example.t
}.
End Type_.

Module Variable_.
Record t := mk { Name : string; Type_ : string; Description : string }.
End Variable_.

Module Constant.
Record t := mk {
  Name : string;
  Type_ : string;
  Value : string;
  Description : string
}.
End Constant.

Module Package.
Record t := mk {
  Name : string;
  Description : string;
  Module_ : string;
  Version : string;
  IsLatest : bool;
  Published : string;
  Synopsis : string;
  License : string;
  LicenseURL : string;
  Repository : string;
  ImportPath : string;
  ScrapedAt : Time;
  Readme : string;
  ProcessedReadme : string;
  Imports : Z;
  ImportedBy : Z;
  Functions : list Function.t;
  Types : list Type_.t;
  Variables : list Variable_.t;
  Constants : list Constant.t;
  Examples : list Example.t
}.

(** The assignments [pkg.ImportPath = ...; pkg.ScrapedAt = ...]. *)
Definition setImportPathScrapedAt (p : t) (path : string) (at_ : Time) : t :=
  mk (Name p) (Description p) (Module_ p) (Version p) (IsLatest p)
     (Published p) (Synopsis p) (License p) (LicenseURL p) (Repository p)
     path at_ (Readme p) (ProcessedReadme p) (Imports p) (ImportedBy p)
     (Functions p) (Types p) (Variables p) (Constants p) (Examples p).
End Package.

(** [Document]: what the store keeps under an import path. *)
Module Document.
Record t := mk {
  ID : string;
  Package : option Package.t;
  RawHTML : string
}.
End Document.

End Models.

(** ** The document tree, and the parts of [goquery], [cascadia] and [colly]
       the extractor calls *)

Module Dom.
Import GoStrings.
Local Open Scope list_scope.
Local Set Warnings "-register-all".

Definition attrs := list (string * string).

Inductive Node :=
| TextNode (data : string)
| CommentNode (data : string)
| ElementNode (tag : string) (attr : attrs) (children : list Node).

(** A node in its tree ([*html.Node] with its parent and sibling links):
    the node, and for each ancestor, nearest first, the ancestor's tag and
    attributes with the siblings to the left and to the right of the node
    below it. *)
Record Frame := {
  left : list Node;
  ptag : string;
  pattr : attrs;
  right : list Node
}.

Record Loc := { here : Node; path : list Frame }.

(** [goquery.Selection] *)
Definition Selection := list Loc.

Definition isElement (n : Node) : bool :=
  match n with ElementNode _ _ _ => true | _ => false end.

Definition nodeAttrs (n : Node) : attrs :=
  match n with ElementNode _ a _ => a | _ => [] end.

Definition nodeChildren (n : Node) : list Node :=
  match n with ElementNode _ _ cs => cs | _ => [] end.

Fixpoint nodeText (n : Node) : string :=
  match n with
  | TextNode d => d
  | CommentNode _ => ""
  | ElementNode _ _ cs =>
      (fix texts (l : list Node) : string :=
         match l with
         | [] => ""
         | c :: rest => (nodeText c ++ texts rest)%string
         end) cs
  end.

(** The element descendants of a node, in document order. *)
Fixpoint descendants (n : Node) (p : list Frame) {struct n} : list Loc :=
  match n with
  | ElementNode t a cs =>
      (fix walk (before : list Node) (l : list Node) {struct l} : list Loc :=
         match l with
         | [] => []
         | c :: after =>
             let p' := {| left := before; ptag := t; pattr := a; right := after |} :: p in
             (if isElement c then [{| here := c; path := p' |}] else [])
             ++ descendants c p'
             ++ walk (before ++ [c]) after
         end) [] cs
  | _ => []
  end.

(** The element siblings that follow a node, in document order. *)
Fixpoint laterSiblings (before : list Node) (t : string) (a : attrs)
  (l : list Node) (up : list Frame) : list Loc :=
  match l with
  | [] => []
  | c :: after =>
      (if isElement c
       then [{| here := c;
                path := {| left := before; ptag := t; pattr := a; right := after |} :: up |}]
       else [])
      ++ laterSiblings (before ++ [c]) t a after up
  end.

Definition nextAll (l : Loc) : list Loc :=
  match path l with
  | [] => []
  | f :: up => laterSiblings (left f ++ [here l]) (ptag f) (pattr f) (right f) up
  end.

(** Selectors: compound selectors, chains of them under the descendant
    combinator (outermost first), and groups of chains. *)
Inductive simple :=
| Tag (t : string)
| Class (c : string)
| HasAttr (k : string)
| AttrEq (k v : string)
| AttrPrefix (k v : string).

Definition compound := list simple.
Definition chain := list compound.
Definition selector := list chain.

Definition anyAttr (a : attrs) (k : string) (f : string -> bool) : bool :=
  existsb (fun kv => (fst kv =? k) && f (snd kv)) a.

Definition isClassSep (c : ascii) : bool :=
  let n := nat_of_ascii c in
  ((n =? 32) || (n =? 9) || (n =? 13) || (n =? 10) || (n =? 12))%nat.

(** Does [val] occur among the words of [s]?  ([cur] is the word being
    read.) *)
Fixpoint includesWord (cur : string) (s : string) (val : string) : bool :=
  match s with
  | EmptyString => cur =? val
  | String c s' =>
      if isClassSep c
      then (cur =? val) || includesWord "" s' val
      else includesWord (cur ++ String c "")%string s' val
  end.

Definition matchSimple (x : simple) (t : string) (a : attrs) : bool :=
  match x with
  | Tag u => t =? u
  | Class c => anyAttr a "class" (fun s => negb (s =? "") && includesWord "" s c)
  | HasAttr k => anyAttr a k (fun _ => true)
  | AttrEq k v => anyAttr a k (fun s => s =? v)
  | AttrPrefix k v => anyAttr a k (fun s => HasPrefix s v)
  end.

Definition matchCompound (c : compound) (t : string) (a : attrs) : bool :=
  forallb (fun x => matchSimple x t a) c.

(** [cs] are the remaining compounds of a chain, innermost first; each
    must match some ancestor above the one matched before. *)
Fixpoint matchUp (cs : list compound) (ancs : list Frame) {struct cs} : bool :=
  match cs with
  | [] => true
  | c :: rest =>
      (fix scan (l : list Frame) : bool :=
         match l with
         | [] => false
         | f :: up =>
             (matchCompound c (ptag f) (pattr f) && matchUp rest up) || scan up
         end) ancs
  end.

Definition matchChain (ch : chain) (l : Loc) : bool :=
  match here l, List.rev ch with
  | ElementNode t a _, c :: rest => matchCompound c t a && matchUp rest (path l)
  | _, _ => false
  end.

Definition matches (sel : selector) (l : Loc) : bool :=
  existsb (fun ch => matchChain ch l) sel.

(** [Selection.Find].  The program calls it on selections of at most one
    node, where no node can be found twice. *)
Definition Find (s : Selection) (sel : selector) : Selection :=
  flat_map (fun l => filter (matches sel) (descendants (here l) (path l))) s.

Definition Length (s : Selection) : nat := List.length s.

Definition First (s : Selection) : Selection := firstn 1 s.

Definition Text (s : Selection) : string :=
  fold_right (fun l acc => (nodeText (here l) ++ acc)%string) "" s.

Fixpoint lookupAttr (a : attrs) (k : string) : option string :=
  match a with
  | [] => None
  | (k', v) :: rest => if k' =? k then Some v else lookupAttr rest k
  end.

Definition AttrOr (s : Selection) (k : string) (default : string) : string :=
  match s with
  | [] => default
  | l :: _ =>
      match lookupAttr (nodeAttrs (here l)) k with
      | Some v => v
      | None => default
      end
  end.

Definition NextAllFiltered (s : Selection) (sel : selector) : Selection :=
  flat_map (fun l => filter (matches sel) (nextAll l)) s.

(** [colly.HTMLElement.Attr] *)
Definition Attr (l : Loc) (k : string) : string :=
  match lookupAttr (nodeAttrs (here l)) k with
  | Some v => v
  | None => ""
  end.

(** [Selection.Html], over the renderer of [golang.org/x/net/html], which
    is a parameter: the rendering of the children of the first node, the
    empty string for an empty selection, [None] for an error. *)
Definition Html (render : list Node -> option string) (s : Selection)
  : option string :=
  match s with
  | [] => Some ""
  | l :: _ => render (nodeChildren (here l))
  end.

(** The index that [Each] passes to its function. *)
Definition indexed {A : Type} (l : list A) : list (nat * A) :=
  combine (seq 0 (List.length l)) l.

Definition filterMap {A B : Type} (f : A -> option B) (l : list A) : list B :=
  flat_map (fun x => match f x with Some y => [y] | None => [] end) l.

End Dom.

(** ** Package [pkg/parser] *)

Module Parser.
Import GoStrings Utils Models Dom.
Local Open Scope list_scope.

(** The selectors of [ParsePackagePage]. *)
Definition selTitle : selector := [[[Tag "h1"; Class "UnitHeader-titleHeading"]]].
Definition selBreadcrumb : selector := [[[Class "UnitHeader-breadcrumbCurrent"]]].
Definition selVersion : selector := [[[Tag "a"; AttrPrefix "aria-label" "Version: "]]].
Definition selLatest : selector :=
  [ [[Class "DetailsHeader-badge--latest"]];
    [[Class "UnitHeader-badge--latest"]];
    [[Class "DetailsHeader-span--latest"]] ].
Definition selCommitTime : selector := [[[AttrEq "data-test-id" "UnitHeader-commitTime"]]].
Definition selLicense : selector :=
  [ [[Tag "a"; AttrEq "data-test-id" "UnitHeader-license"]];
    [[AttrEq "data-test-id" "UnitHeader-licenses"]; [Tag "a"]];
    [[Class "UnitHeader-license"]; [Tag "a"]] ].
Definition selImports : selector :=
  [[[AttrEq "data-test-id" "UnitHeader-imports"]; [Tag "a"]]].
Definition selImportedBy : selector :=
  [[[AttrEq "data-test-id" "UnitHeader-importedby"]; [Tag "a"]]].
Definition selRepo : selector := [[[Class "UnitMeta-repo"]; [Tag "a"]]].
Definition selOverviewP : selector := [[[Class "Documentation-overview"]; [Tag "p"]]].
Definition selReadme : selector :=
  [[[Class "UnitReadme-content"]; [Class "Overview-readmeContent"]]].
Definition selConstants : selector :=
  [[[Class "Documentation-constants"]; [Class "Documentation-declaration"]]].
Definition selVariables : selector :=
  [[[Class "Documentation-variables"]; [Class "Documentation-declaration"]]].
Definition selFunctions : selector :=
  [[[Class "Documentation-functions"]; [Class "Documentation-function"]]].
Definition selTypes : selector :=
  [[[Class "Documentation-types"]; [Class "Documentation-type"]]].
Definition selPre : selector := [[[Tag "pre"]]].
Definition selP : selector := [[[Tag "p"]]].
Definition selH4 : selector := [[[Tag "h4"]]].
Definition selSpanKind (kind : string) : selector :=
  [[[Tag "span"; HasAttr "id"; AttrEq "data-kind" kind]]].
Definition selDeclPre : selector := [[[Class "Documentation-declaration"]; [Tag "pre"]]].
Definition selSinceVersionVersion : selector := [[[Class "Documentation-sinceVersionVersion"]]].
Definition selSinceVersion : selector := [[[Class "Documentation-sinceVersion"]]].
Definition selDeprecatedTag : selector := [[[Class "Documentation-deprecatedTag"]]].
Definition selTypeMethod : selector := [[[Class "Documentation-typeMethod"]]].

Definition nameOf (doc : Selection) : string :=
  let el := Find doc selTitle in
  if (0 <? Length el)%nat then TrimSpace (Text el) else "".

Definition importPathOf (doc : Selection) : string :=
  let el := Find doc selBreadcrumb in
  if (0 <? Length el)%nat
  then let text := TrimSpace (Text el) in
       if negb (text =? "") then text else ""
  else "".

Definition versionOf (doc : Selection) : string :=
  let el := Find doc selVersion in
  if (0 <? Length el)%nat
  then let ariaLabel := AttrOr el "aria-label" "" in
       if HasPrefix ariaLabel "Version: "
       then TrimPrefix ariaLabel "Version: " else ""
  else "".

Definition isLatestOf (doc : Selection) : bool :=
  if (0 <? Length (Find doc selLatest))%nat
  then Contains (Text (Find doc selLatest)) "Latest"
  else false.

Definition publishedOf (doc : Selection) : string :=
  let el := Find doc selCommitTime in
  if (0 <? Length el)%nat
  then let text := TrimSpace (Text el) in
       if HasPrefix text "Published: "
       then TrimSpace (TrimPrefix text "Published: ") else ""
  else "".

(** One turn of the loop over the licence links; the state is
    [(pkg.License, pkg.LicenseURL)]. *)
Definition licenseStep (acc : string * string) (el : Loc) : string * string :=
  let licenseText := TrimSpace (Text [el]) in
  let licenseHref := Attr el "href" in
  let licenseText :=
    if licenseText =? "" then TrimSpace (Text [el]) else licenseText in
  if negb (licenseText =? "")
  then (licenseText,
        if negb (licenseHref =? "")
        then if HasPrefix licenseHref "/"
             then ("https://pkg.go.dev" ++ licenseHref)%string
             else licenseHref
        else snd acc)
  else acc.

Definition licenseOf (doc : Selection) : string * string :=
  fold_left licenseStep (Find doc selLicense) ("", "").

(** The text a count is read from: the [aria-label] of the first link,
    or, when that is empty, the trimmed text of the links. *)
Definition labelValue (el : Selection) : string :=
  let aria := AttrOr el "aria-label" "" in
  if aria =? "" then TrimSpace (Text el) else aria.

Definition countAfter (value pfx : string) : option Z :=
  let countStr := TrimSpace (TrimPrefix value pfx) in
  let countStr := ReplaceAll countStr "," "" in
  Atoi countStr.

Definition importsOf (doc : Selection) : Z :=
  let el := Find doc selImports in
  if (0 <? Length el)%nat
  then let value := labelValue el in
       if HasPrefix value "Imports: "
       then match countAfter value "Imports: " with
            | Some num => num
            | None => 0%Z
            end
       else 0%Z
  else 0%Z.

(** The loop over the two spellings of the label, left at the first that
    is a prefix of the value. *)
Fixpoint importedByFrom (prefixes : list string) (value : string) : Z :=
  match prefixes with
  | [] => 0%Z
  | pfx :: rest =>
      if HasPrefix value pfx
      then match countAfter value pfx with
           | Some num => num
           | None => 0%Z
           end
      else importedByFrom rest value
  end.

Definition importedByOf (doc : Selection) : Z :=
  let el := Find doc selImportedBy in
  if (0 <? Length el)%nat
  then importedByFrom ["Imported By: "; "Imported by: "] (labelValue el)
  else 0%Z.

Definition repositoryOf (doc : Selection) : string :=
  fold_left (fun _ el => TrimSpace (Attr el "href")) (Find doc selRepo) "".

Definition descriptionOf (doc : Selection) : string :=
  let el := Find doc selOverviewP in
  if (0 <? Length el)%nat then TrimSpace (Text (First el)) else "".

(** The README: [(pkg.Readme, pkg.ProcessedReadme)]; [None] if the
    conversion panics. *)
Definition readmeOf (o : MapOrders) (render : list Node -> option string)
  (doc : Selection) : option (string * string) :=
  let el := Find doc selReadme in
  if (0 <? Length el)%nat
  then match Html render el with
       | Some html =>
           match ConvertHTMLToMarkdown o html with
           | Some md => Some (html, md)
           | None => None
           end
       | None => Some ("", "")
       end
  else Some ("", "").

(** The body of the loop over constant blocks. *)
Definition constantOf (i : nat) (s : Loc) : option Constant.t :=
  let pre := First (Find [s] selPre) in
  let code := TrimSpace (Text pre) in
  if code =? "" then None
  else
    let name := TrimSpace (AttrOr (First (Find pre (selSpanKind "constant"))) "id"
                             ("const-block-" ++ Itoa (i + 1))%string) in
    let descSel := First (NextAllFiltered [s] selP) in
    let desc := TrimSpace (Text descSel) in
    Some (Constant.mk name "" code desc).

(** The body of the loop over variable blocks. *)
Definition variableOf (i : nat) (s : Loc) : option Variable_.t :=
  let pre := First (Find [s] selPre) in
  let code := TrimSpace (Text pre) in
  if code =? "" then None
  else
    let name := TrimSpace (AttrOr (First (Find pre (selSpanKind "variable"))) "id"
                             ("var-block-" ++ Itoa (i + 1))%string) in
    let descSel := First (NextAllFiltered [s] selP) in
    let desc := TrimSpace (Text descSel) in
    Some (Variable_.mk name code desc).

Definition addedInOf (s : Selection) : string :=
  let addedIn := TrimSpace (Text (First (Find s selSinceVersionVersion))) in
  if addedIn =? "" then TrimSpace (Text (First (Find s selSinceVersion))) else addedIn.

Definition deprecatedOf (s : Selection) : string :=
  if (0 <? Length (Find s selDeprecatedTag))%nat then "deprecated" else "".

(** The body of the loop over function blocks. *)
Definition functionOf (s : Loc) : option Function.t :=
  let header := First (Find [s] selH4) in
  let id := AttrOr header "id" "" in
  let sig := TrimSpace (Text (First (Find [s] selDeclPre))) in
  if negb (sig =? "")
  then
    let addedIn := addedInOf [s] in
    let desc := TrimSpace (Text (First (Find [s] selP))) in
    let deprecated := deprecatedOf [s] in
    Some (Function.mk id desc sig "" deprecated addedIn [])
  else None.

(** The body of the loop over the method blocks of a type. *)
Definition methodOf (methodSel : Loc) : option Function.t :=
  let mh := First (Find [methodSel] selH4) in
  let mName := AttrOr mh "id" "" in
  let mName := if mName =? "" then TrimSpace (Text mh) else mName in
  let mSig := TrimSpace (Text (First (Find [methodSel] selDeclPre))) in
  let mDesc := TrimSpace (Text (First (Find [methodSel] selP))) in
  let mAddedIn := addedInOf [methodSel] in
  let mDeprecated := deprecatedOf [methodSel] in
  if negb (mSig =? "") || negb (mName =? "")
  then Some (Function.mk mName mDesc mSig "" mDeprecated mAddedIn [])
  else None.

(** The body of the loop over type blocks. *)
Definition typeOf (s : Loc) : option Type_.t :=
  let header := First (Find [s] selH4) in
  let id := AttrOr header "id" "" in
  let def := TrimSpace (Text (First (Find [s] selDeclPre))) in
  if negb (id =? "") && negb (def =? "")
  then
    let addedIn := addedInOf [s] in
    let desc := TrimSpace (Text (First (Find [s] selP))) in
    let deprecated := deprecatedOf [s] in
    let methods := filterMap methodOf (Find [s] selTypeMethod) in
    Some (Type_.mk id desc def "type" deprecated addedIn methods [])
  else None.

Definition constantsOf (doc : Selection) : list Constant.t :=
  filterMap (fun ib => constantOf (fst ib) (snd ib)) (indexed (Find doc selConstants)).

Definition variablesOf (doc : Selection) : list Variable_.t :=
  filterMap (fun ib => variableOf (fst ib) (snd ib)) (indexed (Find doc selVariables)).

Definition functionsOf (doc : Selection) : list Function.t :=
  filterMap functionOf (Find doc selFunctions).

Definition typesOf (doc : Selection) : list Type_.t :=
  filterMap typeOf (Find doc selTypes).

(** The errors of the program. *)
Inductive error :=
| ErrEmptyImportPath                              (* import path cannot be empty *)
| ErrVisit (url : string) (cause : string)        (* failed to visit URL: cause *)
| ErrParse (cause : error)                        (* failed to parse package page: cause *)
| ErrNoPackageData (importPath : string)          (* no package data found for PATH *)
| ErrScrape (importPath : string) (cause : error) (* failed to scrape PATH: cause *)
| ErrNoImportPaths.                               (* no import paths provided *)

Inductive result (A : Type) :=
| Ok (a : A)
| Err (e : error).
Arguments Ok {A} a.
Arguments Err {A} e.

(** [ParsePackagePage], on the element [e] the collector hands over.
    [None] stands for a panic; the Go function has no [return] with an
    error that is not nil. *)
Definition ParsePackagePage (o : MapOrders) (render : list Node -> option string)
  (e : Loc) : option (result Package.t) :=
  let doc := [e] in
  match readmeOf o render doc with
  | None => None
  | Some (readme, processed) =>
      Some (Ok (Package.mk
                  (nameOf doc)
                  (descriptionOf doc)
                  ""
                  (versionOf doc)
                  (isLatestOf doc)
                  (publishedOf doc)
                  ""
                  (fst (licenseOf doc))
                  (snd (licenseOf doc))
                  (repositoryOf doc)
                  (importPathOf doc)
                  zeroTime
                  readme
                  processed
                  (importsOf doc)
                  (importedByOf doc)
                  (functionsOf doc)
                  (typesOf doc)
                  (variablesOf doc)
                  (constantsOf doc)
                  []))
  end.

End Parser.

(** ** Package [pkg/scraper] *)

Module Scraper.
Import GoStrings Utils Models Dom Parser.
Local Open Scope list_scope.

(** [ScrapingConfig]; durations in nanoseconds. *)
Record ScrapingConfig := {
  MaxConcurrency : Z;
  Delay : Z;
  Timeout : Z;
  UserAgent : string;
  Debug : bool;
  TestMode : bool
}.

Definition DefaultConfig : ScrapingConfig :=
  {| MaxConcurrency := 2;
     Delay := 2 * 1000000000;
     Timeout := 30 * 1000000000;
     UserAgent := "docinator-scraper/1.0 (+https://github.com/moseye/docinator)";
     Debug := false;
     TestMode := false |}.

(** What the modelled functions change in a [Scraper]:
    [stats.PackagesScraped], and the log, of which the model keeps the
    import paths of the lines "ScrapePackageWithRaw called for ...", the
    oldest first.  The counters of requests and errors are moved by
    handlers of the collector only and are not modelled. *)
Record State := {
  PackagesScraped : nat;
  calls : list string
}.

(** What a visit of the cloned collector does: an error, or a response
    for which the handler on [html] ran on an element, or did not run. *)
Inductive VisitResult :=
| VisitErr (cause : string)
| VisitOK (html : option Node).

Section Capabilities.
(** The surroundings, each asked with the number of calls of
    [ScrapePackageWithRaw] logged so far: the fetch, the clock and the
    orders of the map visits; and the HTML renderer. *)
Variable Visit : nat -> string -> VisitResult.
Variable clock : nat -> Time.
Variable orders : nat -> MapOrders.
Variable render : list Node -> option string.

Definition mockPackage (now : Time) (importPath : string) : Package.t :=
  Package.mk
    "cobra"
    "A Commander providing a simple interface to create powerful modern CLI interfaces"
    "github.com/spf13/cobra"
    "v1.9.1"
    false
    ""
    "Commander library"
    "Apache-2.0"
    ""
    "https://github.com/spf13/cobra"
    importPath
    now
    "" "" 0%Z 0%Z
    [ Function.mk "Execute" "Executes the root command and all subcommands."
        "func Execute() error" "" "" "" [] ]
    [] [] [] [].

Definition mockHTML (mockPkg : Package.t) : string :=
  ("<!DOCTYPE html><html><head><title>" ++ Package.Name mockPkg
     ++ " package - Go Packages</title></head><body><h1>" ++ Package.Name mockPkg
     ++ "</h1><p>" ++ Package.Description mockPkg
     ++ "</p><p>Mock HTML content for testing</p></body></html>")%string.

Definition logCall (st : State) (importPath : string) : State :=
  {| PackagesScraped := PackagesScraped st; calls := calls st ++ [importPath] |}.

Definition countScraped (st : State) : State :=
  {| PackagesScraped := S (PackagesScraped st); calls := calls st |}.

(** [ScrapePackageWithRaw].  [None]: the call panics. *)
Definition ScrapePackageWithRaw (cfg : ScrapingConfig) (st : State)
  (importPath : string) : option (result (Package.t * string) * State) :=
  if TrimSpace importPath =? "" then Some (Err ErrEmptyImportPath, st)
  else
    let n := List.length (calls st) in
    let st := logCall st importPath in
    if TestMode cfg
    then
      let mockPkg := mockPackage (clock n) importPath in
      Some (Ok (mockPkg, mockHTML mockPkg), st)
    else
      let url := ("https://pkg.go.dev/" ++ TrimSpace importPath)%string in
      match Visit n url with
      | VisitErr cause => Some (Err (ErrVisit url cause), st)
      | VisitOK None => Some (Err (ErrNoPackageData importPath), st)
      | VisitOK (Some root) =>
          let e := {| here := root; path := [] |} in
          let rawHTML := match Html render [e] with Some h => h | None => "" end in
          match ParsePackagePage (orders n) render e with
          | None => None
          | Some (Err err) => Some (Err (ErrParse err), st)
          | Some (Ok pkg) =>
              let pkg := Package.setImportPathScrapedAt pkg importPath (clock n) in
              Some (Ok (pkg, rawHTML), countScraped st)
          end
      end.

(** [ScrapePackage] *)
Definition ScrapePackage (cfg : ScrapingConfig) (st : State)
  (importPath : string) : option (result Package.t * State) :=
  match ScrapePackageWithRaw cfg st importPath with
  | None => None
  | Some (Ok (pkg, _), st') => Some (Ok pkg, st')
  | Some (Err err, st') => Some (Err err, st')
  end.

(** The two slices a batch fills. *)
Record Batch := {
  packages : list Package.t;
  errors : list error
}.

(** What one import path adds to the slices. *)
Definition scrapeInto (cfg : ScrapingConfig) (acc : Batch * State)
  (importPath : string) : option (Batch * State) :=
  let '(b, st) := acc in
  match ScrapePackage cfg st importPath with
  | None => None
  | Some (Err err, st') =>
      Some ({| packages := packages b;
               errors := errors b ++ [ErrScrape importPath err] |}, st')
  | Some (Ok pkg, st') =>
      Some ({| packages := packages b ++ [pkg]; errors := errors b |}, st')
  end.

(** The loop of the test mode.  Its [break] leaves the [select] it
    stands in, not the loop: cancellation does not stop it. *)
Fixpoint scrapeSequential (cfg : ScrapingConfig) (acc : Batch * State)
  (importPaths : list string) : option (Batch * State) :=
  match importPaths with
  | [] => Some acc
  | importPath :: rest =>
      match scrapeInto cfg acc importPath with
      | None => None
      | Some acc' => scrapeSequential cfg acc' rest
      end
  end.

(** One run of the goroutines of a batch: the order in which they come
    to an end (as indices into the import paths), and those that see the
    context cancelled, at one of their two tests, and return. *)
Record Schedule := {
  completion : list nat;
  abandoned : nat -> bool
}.

Definition ScheduleOK (sched : Schedule) (n : nat) : Prop :=
  Permutation (completion sched) (seq 0 n).

Fixpoint scrapeParallel (cfg : ScrapingConfig) (sched : Schedule)
  (importPaths : list string) (acc : Batch * State) (order : list nat)
  : option (Batch * State) :=
  match order with
  | [] => Some acc
  | i :: rest =>
      match nth_error importPaths i with
      | None => scrapeParallel cfg sched importPaths acc rest
      | Some path =>
          if abandoned sched i
          then scrapeParallel cfg sched importPaths acc rest
          else match scrapeInto cfg acc path with
               | None => None
               | Some acc' => scrapeParallel cfg sched importPaths acc' rest
               end
      end
  end.

(** [return packages, errors[0]] or [return packages, nil] *)
Definition batchResult (acc : Batch * State)
  : list Package.t * option error * State :=
  let '(b, st) := acc in
  match errors b with
  | e :: _ => (packages b, Some e, st)
  | [] => (packages b, None, st)
  end.

(** [ScrapePackages].  The context and the scheduler are seen through
    [sched].  [None]: the call does not return: it panics (a channel of
    negative capacity) or waits without end (a channel without buffer,
    which no goroutine can send on, and a goroutine that never sees the
    context cancelled). *)
Definition ScrapePackages (cfg : ScrapingConfig) (sched : Schedule)
  (st : State) (importPaths : list string)
  : option (list Package.t * option error * State) :=
  match importPaths with
  | [] => Some ([], Some ErrNoImportPaths, st)
  | _ :: _ =>
      let empty := ({| packages := []; errors := [] |}, st) in
      if TestMode cfg
      then option_map batchResult (scrapeSequential cfg empty importPaths)
      else if (MaxConcurrency cfg <? 0)%Z then None
      else if (MaxConcurrency cfg =? 0)%Z
      then if forallb (abandoned sched) (seq 0 (List.length importPaths))
           then Some (batchResult empty)
           else None
      else option_map batchResult
             (scrapeParallel cfg sched importPaths empty (completion sched))
  end.

End Capabilities.

(** [ValidateURL]: does the URL pass? *)
Definition ValidateURL (url : string) : bool :=
  HasPrefix url "https://pkg.go.dev/".

(** The errors of [ValidateURL] and [ExtractImportPath]. *)
Inductive urlError :=
| ErrNotPkgGoDev          (* URL must be from pkg.go.dev domain *)
| ErrNoImportPathInURL.   (* no import path found in URL *)

(** [ExtractImportPath]; the error of [ValidateURL] is passed on. *)
Definition ExtractImportPath (url : string) : string + urlError :=
  if negb (ValidateURL url) then inr ErrNotPkgGoDev
  else
    let importPath := TrimPrefix url "https://pkg.go.dev/" in
    let importPath := TrimSuffix importPath "/" in
    if importPath =? "" then inr ErrNoImportPathInURL
    else inl importPath.

End Scraper.

(** ** Package [pkg/markdown] *)

Module Markdown.
Import GoStrings Models.

(** The loop of [addCommas] over the bytes of [str] still to be written:
    [i] is the index of the first of them, [len] the length of [str].  The
    numeral is ASCII, so its runes are its bytes. *)
Fixpoint commaLoop (len i : nat) (str : string) : string :=
  match str with
  | EmptyString => ""
  | String digit rest =>
      (if ((0 <? i)%nat && ((len - i) mod 3 =? 0)%nat)%bool then "," else "")
      ++ String digit (commaLoop len (S i) rest)
  end.

Definition addCommas (n : Z) : string :=
  let str := FormatInt n in
  if (String.length str <=? 3)%nat then str
  else commaLoop (String.length str) 0 str.

Definition formatNumber (n : Z) : string :=
  if (n <? 1000)%Z then FormatInt n else addCommas n.

(** What [addExamples] writes for one example, and for a list. *)
Definition exampleText (ex : Example.t) : string :=
  (if negb (Example.Name ex =? "")
   then "###### " ++ Example.Name ex ++ LF ++ LF else "")
  ++ (if negb (Example.Code ex =? "")
      then "```go" ++ LF ++ Example.Code ex ++ LF ++ "```" ++ LF ++ LF else "")
  ++ (if negb (Example.Output ex =? "")
      then "**Output:**" ++ LF ++ "```" ++ LF ++ Example.Output ex ++ LF
           ++ "```" ++ LF ++ LF
      else "").

Definition addExamples (examples : list Example.t) : string :=
  fold_right (fun ex rest => exampleText ex ++ rest) "" examples.

(** The parts of [PackageToMarkdown], in the order they are written to
    the builder. *)
Definition headerText (pkg : Package.t) : string :=
  "# " ++ Package.Name pkg ++ " package - " ++ Package.ImportPath pkg ++ LF ++ LF.

Definition repositoryLabel (repository : string) : string :=
  if HasPrefix repository "https://" then TrimPrefix repository "https://"
  else if HasPrefix repository "http://" then TrimPrefix repository "http://"
  else repository.

Definition metadataText (pkg : Package.t) : string :=
  "## Package Documentation" ++ LF ++ LF
  ++ (if negb (Package.ImportPath pkg =? "")
      then "**Import Path:** `" ++ Package.ImportPath pkg ++ "`" ++ LF ++ LF else "")
  ++ (if negb (Package.Module_ pkg =? "")
      then "**Module:** " ++ Package.Module_ pkg ++ LF ++ LF else "")
  ++ (if negb (Package.Version pkg =? "")
      then let versionText :=
             if Package.IsLatest pkg then Package.Version pkg ++ " (Latest)"
             else Package.Version pkg in
           "**Version:** " ++ versionText ++ LF ++ LF
      else "")
  ++ (if negb (Package.Published pkg =? "")
      then "**Published:** " ++ Package.Published pkg ++ LF ++ LF else "")
  ++ (if (0 <? Package.Imports pkg)%Z
      then "**Imports:** " ++ FormatInt (Package.Imports pkg) ++ LF ++ LF else "")
  ++ (if (0 <? Package.ImportedBy pkg)%Z
      then "**Imported By:** " ++ formatNumber (Package.ImportedBy pkg) ++ LF ++ LF
      else "")
  ++ (if (negb (Package.License pkg =? "") && negb (Package.LicenseURL pkg =? ""))%bool
      then "**License:** [" ++ Package.License pkg ++ "](" ++ Package.LicenseURL pkg
           ++ ")" ++ LF ++ LF
      else if negb (Package.License pkg =? "")
      then "**License:** " ++ Package.License pkg ++ LF ++ LF
      else "")
  ++ (if negb (Package.Repository pkg =? "")
      then "**Repository:** [" ++ repositoryLabel (Package.Repository pkg) ++ "]("
           ++ Package.Repository pkg ++ ")" ++ LF ++ LF
      else "").

Definition overviewText (pkg : Package.t) : string :=
  if negb (Package.Synopsis pkg =? "")
  then "## Overview" ++ LF ++ LF ++ Package.Synopsis pkg ++ LF ++ LF
  else if negb (Package.Description pkg =? "")
  then "## Overview" ++ LF ++ LF ++ Package.Description pkg ++ LF ++ LF
  else "".

Definition readmeText (pkg : Package.t) : string :=
  "## README" ++ LF ++ LF
  ++ (if negb (Package.ProcessedReadme pkg =? "") then Package.ProcessedReadme pkg
      else if negb (Package.Readme pkg =? "") then Package.Readme pkg
      else "")
  ++ LF ++ LF.

(** One list of the index: nothing for an empty list. *)
Definition indexList {A : Type} (title : string) (entry : A -> string)
  (l : list A) : string :=
  if (0 <? List.length l)%nat
  then title ++ LF ++ fold_right (fun x rest => entry x ++ rest) "" l ++ LF
  else "".

Definition indexText (pkg : Package.t) : string :=
  "## Documentation" ++ LF ++ LF
  ++ "### Index" ++ LF ++ LF
  ++ indexList "#### Constants"
       (fun c => "- [`" ++ Constant.Name c ++ "`](#pkg-constants)" ++ LF)
       (Package.Constants pkg)
  ++ indexList "#### Variables"
       (fun v => "- [`" ++ Variable_.Name v ++ "`](#pkg-variables)" ++ LF)
       (Package.Variables pkg)
  ++ indexList "#### Functions"
       (fun f => "- [`" ++ Function.Name f ++ "`](#" ++ Function.Name f ++ ")" ++ LF)
       (Package.Functions pkg)
  ++ indexList "#### Types"
       (fun t => "- [`" ++ Type_.Name t ++ "`](#" ++ Type_.Name t ++ ")" ++ LF)
       (Package.Types pkg).

(** One section of declarations: nothing for an empty list. *)
Definition sectionOf {A : Type} (title : string) (body : A -> string)
  (l : list A) : string :=
  if (0 <? List.length l)%nat
  then title ++ LF ++ LF ++ fold_right (fun x rest => body x ++ rest) "" l
  else "".

Definition goFence (code : string) : string :=
  "```go" ++ LF ++ code ++ LF ++ "```" ++ LF ++ LF.

Definition constantText (c : Constant.t) : string :=
  "#### " ++ Constant.Name c ++ LF ++ LF
  ++ (if negb (Constant.Value c =? "")
      then if (Contains (Constant.Value c) LF || Contains (Constant.Value c) "const ")%bool
           then goFence (Constant.Value c)
           else "**Value:** `" ++ Constant.Value c ++ "`" ++ LF ++ LF
      else "")
  ++ (if negb (Constant.Type_ c =? "")
      then "**Type:** `" ++ Constant.Type_ c ++ "`" ++ LF ++ LF else "")
  ++ (if negb (Constant.Description c =? "")
      then Constant.Description c ++ LF ++ LF else "").

Definition variableText (v : Variable_.t) : string :=
  "#### " ++ Variable_.Name v ++ LF ++ LF
  ++ (if negb (Variable_.Type_ v =? "")
      then if (Contains (Variable_.Type_ v) LF || Contains (Variable_.Type_ v) "var ")%bool
           then goFence (Variable_.Type_ v)
           else "**Type:** `" ++ Variable_.Type_ v ++ "`" ++ LF ++ LF
      else "")
  ++ (if negb (Variable_.Description v =? "")
      then Variable_.Description v ++ LF ++ LF else "").

(** The text after the heading of a function or of a method. *)
Definition functionBody (f : Function.t) : string :=
  (if negb (Function.Signature f =? "") then goFence (Function.Signature f) else "")
  ++ (if negb (Function.Description f =? "") then Function.Description f ++ LF else "")
  ++ (if negb (Function.AddedIn f =? "")
      then "_Since: " ++ Function.AddedIn f ++ "_" ++ LF else "")
  ++ (if negb (Function.Deprecated f =? "") then "**deprecated**" ++ LF else "")
  ++ LF
  ++ addExamples (Function.Examples f).

Definition functionText (f : Function.t) : string :=
  "#### " ++ Function.Name f ++ LF ++ LF ++ functionBody f.

Definition methodText (m : Function.t) : string :=
  "###### " ++ Function.Name m ++ LF ++ LF ++ functionBody m.

Definition typeText (t : Type_.t) : string :=
  "#### " ++ Type_.Name t ++ LF ++ LF
  ++ (if negb (Type_.Definition_ t =? "") then goFence (Type_.Definition_ t) else "")
  ++ (if negb (Type_.Kind t =? "") then "**Kind:** " ++ Type_.Kind t ++ LF ++ LF else "")
  ++ (if negb (Type_.Description t =? "") then Type_.Description t ++ LF else "")
  ++ (if negb (Type_.AddedIn t =? "")
      then "_Since: " ++ Type_.AddedIn t ++ "_" ++ LF else "")
  ++ (if negb (Type_.Deprecated t =? "") then "**deprecated**" ++ LF else "")
  ++ LF
  ++ sectionOf "##### Methods" methodText (Type_.Methods t)
  ++ addExamples (Type_.Examples t).

Definition examplesText (pkg : Package.t) : string :=
  if (0 <? List.length (Package.Examples pkg))%nat
  then "### Examples" ++ LF ++ LF ++ addExamples (Package.Examples pkg)
  else "".

Section Rendering.
(** [t.Format] with the layout of the program, 2006-01-02 15:04:05: the
    time in its own zone. *)
Variable Format : Time -> string.

Definition footerText (pkg : Package.t) : string :=
  LF ++ "*Scraped at: " ++ Format (Package.ScrapedAt pkg) ++ "*" ++ LF.

(** [PackageToMarkdown] *)
Definition PackageToMarkdown (pkg : Package.t) : string :=
  headerText pkg
  ++ metadataText pkg
  ++ overviewText pkg
  ++ readmeText pkg
  ++ indexText pkg
  ++ sectionOf "### Constants" constantText (Package.Constants pkg)
  ++ sectionOf "### Variables" variableText (Package.Variables pkg)
  ++ sectionOf "### Functions" functionText (Package.Functions pkg)
  ++ sectionOf "### Types" typeText (Package.Types pkg)
  ++ examplesText pkg
  ++ footerText pkg.
End Rendering.

(** [ConvertToMarkdown]: the execution of its template, which is a
    constant of the program.  The template parses, and every field it
    names is a field of the value it is run on: the two returns of the
    empty string are never reached.  Each definition below is the text of
    one pair of braces [range ... end] or [if ... end]. *)
Definition templateExample (ex : Example.t) : string :=
  LF ++ "**" ++ Example.Name ex ++ "**" ++ LF ++ LF
  ++ "```go" ++ LF ++ Example.Code ex ++ LF ++ "```" ++ LF ++ LF
  ++ "**Output:**" ++ LF ++ Example.Output ex ++ LF.

Definition ranged {A : Type} (body : A -> string) (l : list A) : string :=
  fold_right (fun x rest => body x ++ rest) "" l.

Definition templateExamples (examples : list Example.t) : string :=
  if (0 <? List.length examples)%nat
  then LF ++ "#### Examples" ++ LF ++ ranged templateExample examples ++ LF
  else "".

Definition templateFunction (f : Function.t) : string :=
  LF ++ "### " ++ Function.Name f
  ++ (if negb (Function.Receiver f =? "")
      then " (" ++ Function.Receiver f ++ ")" else "")
  ++ LF ++ Function.Signature f ++ LF ++ LF
  ++ Function.Description f ++ LF ++ LF
  ++ templateExamples (Function.Examples f)
  ++ LF.

Definition templateMethodExample (ex : Example.t) : string :=
  LF ++ "  **" ++ Example.Name ex ++ "**" ++ LF ++ LF
  ++ "  ```go" ++ LF ++ "  " ++ Example.Code ex ++ LF ++ "  ```" ++ LF ++ LF
  ++ "  **Output:**" ++ LF ++ "  " ++ Example.Output ex ++ LF ++ "  ".

Definition templateMethod (m : Function.t) : string :=
  LF ++ "- **" ++ Function.Name m ++ "** (" ++ Function.Signature m ++ ")" ++ LF ++ LF
  ++ "  " ++ Function.Description m ++ LF ++ LF ++ "  "
  ++ (if (0 <? List.length (Function.Examples m))%nat
      then LF ++ "  **Examples:**" ++ LF ++ "  "
           ++ ranged templateMethodExample (Function.Examples m)
           ++ LF ++ "  "
      else "")
  ++ LF ++ "  ".

Definition templateType (t : Type_.t) : string :=
  LF ++ "### " ++ Type_.Name t ++ " (" ++ Type_.Kind t ++ ")" ++ LF
  ++ Type_.Definition_ t ++ LF ++ LF
  ++ Type_.Description t ++ LF ++ LF
  ++ (if (0 <? List.length (Type_.Methods t))%nat
      then LF ++ "#### Methods" ++ LF ++ ranged templateMethod (Type_.Methods t)
           ++ LF ++ "  "
      else "")
  ++ LF ++ LF
  ++ templateExamples (Type_.Examples t)
  ++ LF.

Definition templateVariable (v : Variable_.t) : string :=
  LF ++ "### " ++ Variable_.Name v ++ " " ++ Variable_.Type_ v ++ LF
  ++ Variable_.Description v ++ LF.

Definition templateConstant (c : Constant.t) : string :=
  LF ++ "### " ++ Constant.Name c ++ " " ++ Constant.Type_ c ++ " = "
  ++ Constant.Value c ++ LF
  ++ Constant.Description c ++ LF.

Definition ConvertToMarkdown (pkg : Package.t) : string :=
  "# " ++ Package.Name pkg ++ LF ++ LF
  ++ Package.Description pkg ++ LF ++ LF
  ++ (if negb (Package.Synopsis pkg =? "")
      then "**Synopsis:** " ++ Package.Synopsis pkg else "")
  ++ LF ++ LF
  ++ (if negb (Package.Module_ pkg =? "")
      then "**Module:** " ++ Package.Module_ pkg
           ++ (if negb (Package.Version pkg =? "")
               then " (" ++ Package.Version pkg ++ ")" else "")
      else "")
  ++ LF ++ LF
  ++ (if negb (Package.ImportPath pkg =? "")
      then "**Import Path:** " ++ Package.ImportPath pkg else "")
  ++ LF ++ LF
  ++ (if negb (Package.License pkg =? "")
      then "**License:** " ++ Package.License pkg else "")
  ++ LF ++ LF
  ++ (if negb (Package.Repository pkg =? "")
      then "**Repository:** " ++ Package.Repository pkg else "")
  ++ LF ++ LF ++ "## Functions" ++ LF ++ LF
  ++ ranged templateFunction (Package.Functions pkg)
  ++ LF ++ LF ++ "## Types" ++ LF ++ LF
  ++ ranged templateType (Package.Types pkg)
  ++ LF ++ LF ++ "## Variables" ++ LF ++ LF
  ++ ranged templateVariable (Package.Variables pkg)
  ++ LF ++ LF ++ "## Constants" ++ LF ++ LF
  ++ ranged templateConstant (Package.Constants pkg).

End Markdown.

(** ** Package [pkg/raw] *)

Module Raw.
Import GoStrings Models.

Section Rendering.
Variable Format : Time -> string.

(** [PackageToRaw] *)
Definition PackageToRaw (pkg : Package.t) (rawHTML : string) : string :=
  "=== RAW WEB SCRAPE DATA ===" ++ LF
  ++ "Package: " ++ Package.Name pkg ++ LF
  ++ "Import Path: " ++ Package.ImportPath pkg ++ LF
  ++ "Scraped At: " ++ Format (Package.ScrapedAt pkg) ++ LF
  ++ "Source URL: https://pkg.go.dev/" ++ Package.ImportPath pkg ++ LF
  ++ "================================" ++ LF ++ LF
  ++ (if negb (rawHTML =? "")
      then "=== RAW HTML CONTENT ===" ++ LF
           ++ rawHTML
           ++ LF ++ "=========================" ++ LF
      else "=== NO RAW CONTENT AVAILABLE ===" ++ LF
           ++ "Raw HTML content was not captured during scraping." ++ LF
           ++ "===================================" ++ LF).
End Rendering.

End Raw.

(** ** Package [internal/storage/mongo] *)

Module Mongostore.
Import GoStrings Models.

(** [Store]: the flag; a [*Store] that is nil is [None].  The documents of
    the collection are on the server, whose state the functions below are
    given and give back. *)
Record Store := { enabled : bool }.

Inductive storeError :=
| ErrStoreDisabled           (* store disabled *)
| ErrInvalidDocument         (* invalid document or missing ID *)
| ErrDriver (cause : string) (* an error of the driver, passed on *).

(** What [FindOne(...).Decode(&doc)] gives. *)
Inductive FindResult :=
| Found (doc : Document.t)
| NoDocuments
| FindFailed (cause : string).

(** [NewFromEnv], given the value of MONGODB_URI and the error, if any,
    of the connection and of the ping that follows it. *)
Definition NewFromEnv (uri : string) (connectError : option string)
  : option Store * option storeError :=
  if uri =? "" then (Some {| enabled := false |}, None)
  else match connectError with
       | Some cause => (None, Some (ErrDriver cause))
       | None => (Some {| enabled := true |}, None)
       end.

(** [Enabled] *)
Definition Enabled (s : option Store) : bool :=
  match s with
  | Some s => enabled s
  | None => false
  end.

Section Driver.
(** The server: the state of the collection, the search by [_id] and
    the replacement with [upsert], which gives the next state and the
    error of the driver, if any. *)
Variable Coll : Type.
Variable FindOne : Coll -> string -> FindResult.
Variable ReplaceOne : Coll -> Document.t -> Coll * option string.

(** [GetByID] *)
Definition GetByID (s : option Store) (c : Coll) (id : string)
  : option Document.t * option storeError :=
  if negb (Enabled s) then (None, Some ErrStoreDisabled)
  else match FindOne c id with
       | Found doc => (Some doc, None)
       | NoDocuments => (None, None)
       | FindFailed cause => (None, Some (ErrDriver cause))
       end.

(** [Upsert] *)
Definition Upsert (s : option Store) (c : Coll) (doc : option Document.t)
  : Coll * option storeError :=
  if negb (Enabled s) then (c, Some ErrStoreDisabled)
  else match doc with
       | None => (c, Some ErrInvalidDocument)
       | Some d =>
           if Document.ID d =? "" then (c, Some ErrInvalidDocument)
           else match ReplaceOne c d with
                | (c', Some cause) => (c', Some (ErrDriver cause))
                | (c', None) => (c', None)
                end
       end.
End Driver.

End Mongostore.

(** ** Package [cmd/docinator]: the command [scrape] *)

Module Docinator.
Import GoStrings Utils Models Dom Parser Scraper Markdown Raw Mongostore.
Local Open Scope list_scope.

(** The three slices the command fills. *)
Record Gathered := {
  pkgs : list Package.t;
  rawHTMLs : list string;
  scrapeErrors : list error
}.

(** What the command writes, in the order of the attempts; a failure of
    one of these is logged and changes nothing else, but for the directory
    of the output. *)
Inductive Effect :=
| Print (text : string)
| MkdirAll (path : string)
| WriteFile (name content : string).

(** How the command ends: [log.Fatalf], or the end of [Run]. *)
Inductive Outcome :=
| Fatal (message : string)
| Finished (effects : list Effect).

Section Run.
Variable Visit : nat -> string -> VisitResult.
Variable clock : nat -> Time.
Variable orders : nat -> MapOrders.
Variable render : list Node -> option string.
Variable Format : Time -> string.
Variable Coll : Type.
Variable FindOne : Coll -> string -> FindResult.
Variable ReplaceOne : Coll -> Document.t -> Coll * option string.
(** [filepath.Dir], and does [os.MkdirAll] fail on the output
    directory? *)
Variable Dir : string -> string.
Variable outputDirFails : string -> bool.

(** What the loop over the arguments changes besides its slices: the
    scraper, the collection, and the documents handed to [Upsert], the
    oldest first. *)
Record World := {
  scraper : State;
  coll : Coll;
  upserted : list Document.t
}.

(** Step 1 of the loop: the record and the raw HTML of the cache. *)
Definition cached (store : option Store) (w : World) (importPath : string)
  : option (Package.t * string) :=
  if Enabled store
  then match GetByID Coll FindOne store (coll w) importPath with
       | (_, Some _) => None
       | (Some doc, None) =>
           match Document.Package doc with
           | Some pkg => Some (pkg, Document.RawHTML doc)
           | None => None
           end
       | (None, None) => None
       end
  else None.

(** Step 3 of the loop: the upsert of what was scraped; its error is
    logged only. *)
Definition persist (store : option Store) (w : World) (importPath : string)
  (pkg : Package.t) (rawHTML : string) : World :=
  if Enabled store
  then
    let id := if negb (Package.ImportPath pkg =? "")
              then Package.ImportPath pkg else importPath in
    let doc := Document.mk id (Some pkg) rawHTML in
    let '(c, _) := Upsert Coll ReplaceOne store (coll w) (Some doc) in
    {| scraper := scraper w; coll := c; upserted := upserted w ++ [doc] |}
  else w.

(** One turn of the loop over the arguments.  [None]: a panic. *)
Definition gatherStep (config : ScrapingConfig) (store : option Store)
  (acc : Gathered * World) (importPath : string) : option (Gathered * World) :=
  let '(g, w) := acc in
  match cached store w importPath with
  | Some (pkg, rawHTML) =>
      Some ({| pkgs := pkgs g ++ [pkg]; rawHTMLs := rawHTMLs g ++ [rawHTML];
               scrapeErrors := scrapeErrors g |}, w)
  | None =>
      match ScrapePackageWithRaw Visit clock orders render config (scraper w)
              importPath with
      | None => None
      | Some (Err err, st) =>
          Some ({| pkgs := pkgs g; rawHTMLs := rawHTMLs g;
                   scrapeErrors := scrapeErrors g ++ [ErrScrape importPath err] |},
                {| scraper := st; coll := coll w; upserted := upserted w |})
      | Some (Ok (pkg, rawHTML), st) =>
          Some ({| pkgs := pkgs g ++ [pkg]; rawHTMLs := rawHTMLs g ++ [rawHTML];
                   scrapeErrors := scrapeErrors g |},
                persist store
                  {| scraper := st; coll := coll w; upserted := upserted w |}
                  importPath pkg rawHTML)
      end
  end.

Fixpoint gather (config : ScrapingConfig) (store : option Store)
  (acc : Gathered * World) (args : list string) : option (Gathered * World) :=
  match args with
  | [] => Some acc
  | importPath :: rest =>
      match gatherStep config store acc importPath with
      | None => None
      | Some acc' => gather config store acc' rest
      end
  end.

(** The loop that writes the two files of every record, from the
    [i]-th on.  [None]: [rawHTMLs[i]] is out of range, a panic. *)
Fixpoint writeFiles (outputDir : string) (rawHTMLs : list string) (i : nat)
  (l : list Package.t) : option (list Effect) :=
  match l with
  | [] => Some []
  | pkg :: rest =>
      let markdownFilename :=
        (outputDir ++ "/" ++ Package.ImportPath pkg ++ ".md")%string in
      let markdownContent := PackageToMarkdown Format pkg in
      let rawFilename :=
        (outputDir ++ "/" ++ Package.ImportPath pkg ++ "_raw.txt")%string in
      match nth_error rawHTMLs i with
      | None => None
      | Some rawHTML =>
          let rawContent := PackageToRaw Format pkg rawHTML in
          match writeFiles outputDir rawHTMLs (S i) rest with
          | None => None
          | Some more =>
              Some ([ MkdirAll (Dir markdownFilename);
                      WriteFile markdownFilename markdownContent;
                      MkdirAll (Dir rawFilename);
                      WriteFile rawFilename rawContent ] ++ more)
          end
      end
  end.

(** The output of the records gathered. *)
Definition emit (outputDir : string) (g : Gathered) : option Outcome :=
  if (outputDir =? "")%string
  then Some (Finished (map (fun pkg => Print (PackageToMarkdown Format pkg)) (pkgs g)))
  else if outputDirFails outputDir
  then Some (Fatal "Failed to create output dir")
  else match writeFiles outputDir (rawHTMLs g) 0 (pkgs g) with
       | None => None
       | Some effects => Some (Finished (MkdirAll outputDir :: effects))
       end.

(** [Run] of the command [scrape], given the flags, the value of
    MONGODB_URI with the error of the connection, the collection and the
    arguments. *)
Definition Run (verbose testMode : bool) (outputDir : string) (uri : string)
  (connectError : option string) (c : Coll) (args : list string)
  : option (Outcome * World) :=
  let config := {| MaxConcurrency := 0; Delay := 0; Timeout := 0; UserAgent := "";
                   Debug := verbose; TestMode := testMode |} in
  let s := {| PackagesScraped := 0; calls := [] |} in
  let store := match NewFromEnv uri connectError with
               | (_, Some _) => None
               | (store, None) => store
               end in
  match gather config store
          ({| pkgs := []; rawHTMLs := []; scrapeErrors := [] |},
           {| scraper := s; coll := c; upserted := [] |}) args with
  | None => None
  | Some (g, w) =>
      if ((0 <? List.length (scrapeErrors g))%nat
          && (List.length (pkgs g) =? 0)%nat)%bool
      then Some (Fatal "All scraping attempts failed", w)
      else match emit outputDir g with
           | None => None
           | Some outcome => Some (outcome, w)
           end
  end.
End Run.

Arguments scraper {Coll} w.
Arguments coll {Coll} w.
Arguments upserted {Coll} w.

End Docinator.

(** ** Notions used to state facts about the models *)

Module Notions.
Import GoStrings Regexp Utils.

(** No alternative is a prefix of another one. *)
Fixpoint prefixFree (alts : list string) : bool :=
  match alts with
  | [] => true
  | a :: rest =>
      forallb (fun b => negb (HasPrefix a b) && negb (HasPrefix b a)) rest
      && prefixFree rest
  end.

(** The segments of a text without a match. *)
Fixpoint keeps (s : string) : list segment :=
  match s with
  | EmptyString => []
  | String c s' => Keep c :: keeps s'
  end.

(** The second continuation refuses what the first refuses and returns
    what the first returns when that is [good]. *)
Definition narrows1 {R : Type} (good : R -> Prop)
  (c1 c2 : string -> option R) : Prop :=
  (forall x, c1 x = None -> c2 x = None)
  /\ (forall x v, c1 x = Some v -> good v -> c2 x = Some v).

Definition narrows {R : Type} (good : R -> Prop)
  (cont cont' : string -> caps -> option R) : Prop :=
  forall c, narrows1 good (fun x => cont x c) (fun x => cont' x c).

(** One replacement of a table. *)
Definition replaceOne (x : string) (kv : string * string) : string :=
  ReplaceAll x (fst kv) (snd kv).

(** [states] is closed under the replacements of [t], and on it any two
    of them commute. *)
Definition closedUnder (t : table) (states : list string) : bool :=
  forallb (fun x =>
    forallb (fun kv => existsb (String.eqb (replaceOne x kv)) states) t) states.

Definition commuteOn (t : table) (states : list string) : bool :=
  forallb (fun x =>
    forallb (fun a =>
      forallb (fun b =>
        String.eqb (replaceOne (replaceOne x a) b) (replaceOne (replaceOne x b) a))
        t) t) states.

(** Some [<] of the text has a [>] somewhere after it. *)
Fixpoint hasTag (s : string) : bool :=
  match s with
  | EmptyString => false
  | String c s' => (Ascii.eqb c lt && Contains s' ">") || hasTag s'
  end.

(** A text the reducer has nothing to do on: no [<] with a [>] after it,
    no entity of the table, no CR LF, no line of one backquote, no three
    line feeds in a row, no white space at either end. *)
Definition isPlain (s : string) : bool :=
  negb (hasTag s)
  && forallb (fun kv => negb (Contains s (fst kv))) entityTable
  && negb (Contains s (CR ++ LF))
  && negb (Contains s (LF ++ "`" ++ LF))
  && negb (Contains s (LF ++ LF ++ LF))
  && (TrimSpace s =? s).


(** The pattern begins with the literal [c]. *)
Fixpoint startsWith (c : ascii) (r : re) : bool :=
  match r with
  | Lit d => Ascii.eqb d c
  | Seq r1 _ => startsWith c r1
  | Group _ r1 => startsWith c r1
  | _ => false
  end.

(** Every match of the pattern holds the literal [c]. *)
Fixpoint needs (c : ascii) (r : re) : bool :=
  match r with
  | Lit d => Ascii.eqb d c
  | Seq r1 r2 => needs c r1 || needs c r2
  | Group _ r1 => needs c r1
  | _ => false
  end.

(** The text of the third scenario, and what it becomes on the way. *)
Definition scenario3 : string := "<h2>Title</h2><p>Body &amp; more</p>".
Definition scenario3Unescaped : string := "<h2>Title</h2><p>Body & more</p>".
Definition scenario3Headed : string :=
  "## Title" ++ LF ++ LF ++ "<p>Body & more</p>".
Definition scenario3Blocks : list string :=
  [ scenario3Headed;
    "## Title" ++ LF ++ LF ++ LF ++ "Body & more</p>";
    "## Title" ++ LF ++ LF ++ "<p>Body & more" ++ LF ++ LF;
    "## Title" ++ LF ++ LF ++ LF ++ "Body & more" ++ LF ++ LF ].
Definition scenario3Out : string := "## Title" ++ LF ++ LF ++ "Body & more".

(** The maps visited from their last entry to their first. *)
Definition reversedOrders : MapOrders :=
  {| entFirst := List.rev entityTable;
     entInCode := fun _ => List.rev entityTable;
     blockOrder := List.rev replacements;
     entLast := List.rev entityTable |}.
End Notions.

Module DomNotions.
Import GoStrings Utils Models Dom Parser.
Local Open Scope list_scope.

(** Two chains of ancestors with the same tags and attributes, whatever
    the siblings at each level. *)
Definition sameUp (p q : list Frame) : Prop :=
  map (fun f => (ptag f, pattr f)) p = map (fun f => (ptag f, pattr f)) q.

(** The same node under two such chains. *)
Definition alike (l l' : Loc) : Prop :=
  here l = here l' /\ sameUp (path l) (path l').

Definition atRoot (n : Node) : Loc := {| here := n; path := [] |}.

(** A renderer for the examples: it renders nothing. *)
Definition renderNothing (_ : list Node) : option string := Some "".

Definition emptyPackage : Package.t :=
  Package.mk "" "" "" "" false "" "" "" "" "" "" zeroTime "" "" 0%Z 0%Z [] [] [] [] [].

(** What the extractor returns for a page, in the examples. *)
Definition parsed (page : Node) : Package.t :=
  match ParsePackagePage sourceOrders renderNothing (atRoot page) with
  | Some (Ok pkg) => pkg
  | _ => emptyPackage
  end.

Definition el (t : string) (a : attrs) (cs : list Node) : Node := ElementNode t a cs.
Definition class (c : string) : attrs := [("class", c)].

(** A page without content. *)
Definition emptyPage : Node := el "html" [] [el "head" [] []; el "body" [] []].

(** Pages with a count of importers. *)
Definition importedByPage (label : string) : Node :=
  el "html" []
    [ el "body" []
        [ el "h1" (class "UnitHeader-titleHeading") [TextNode "cobra"];
          el "span" [("data-test-id", "UnitHeader-imports")]
            [ el "a" [] [TextNode " Imports: 17 "] ];
          el "span" [("data-test-id", "UnitHeader-importedby")]
            [ el "a" [("aria-label", label)] [TextNode "importers"] ] ] ].

(** A page with two sibling declaration blocks of constants, the first
    with a declaration and no span, the second a paragraph. *)
Definition constantA : Node :=
  el "div" (class "Documentation-declaration")
    [ el "pre" [] [TextNode "const A = 1"] ].

Definition constantB (text : string) : Node :=
  el "p" (class "Documentation-declaration") [TextNode text].

Definition constantsPage (text : string) : Node :=
  el "html" []
    [ el "head" [] [];
      el "body" []
        [ el "div" (class "Documentation-constants")
            [ constantA; constantB text ] ] ].

(** Blocks without an anchor id: a variable, a function and a type. *)
Definition variableNoId : Node :=
  el "div" (class "Documentation-declaration")
    [ el "pre" [] [TextNode "var V int"] ].

Definition functionNoId : Node :=
  el "div" (class "Documentation-function")
    [ el "h4" [] [TextNode "func Anon"];
      el "div" (class "Documentation-declaration")
        [ el "pre" [] [TextNode "func Anon()"] ] ].

Definition typeNoId : Node :=
  el "div" (class "Documentation-type")
    [ el "h4" [] [TextNode "type T"];
      el "div" (class "Documentation-declaration")
        [ el "pre" [] [TextNode "type T struct{}"] ] ].

Definition noIdPage : Node :=
  el "html" []
    [ el "body" []
        [ el "div" (class "Documentation-constants") [constantA];
          el "div" (class "Documentation-variables") [variableNoId];
          el "div" (class "Documentation-functions") [functionNoId];
          el "div" (class "Documentation-types") [typeNoId] ] ].

(** A function block in two surroundings. *)
Definition functionBlock : Node :=
  el "div" (class "Documentation-function")
    [ el "h4" [("id", "Execute")] [TextNode "func Execute"];
      el "div" (class "Documentation-declaration")
        [ el "pre" [] [TextNode "func Execute() error"] ];
      el "p" [] [TextNode "Execute runs the root command."] ].

Definition around (before after : list Node) : list Frame :=
  [ {| left := before; ptag := "div"; pattr := class "Documentation-functions";
       right := after |};
    {| left := []; ptag := "body"; pattr := []; right := [] |};
    {| left := []; ptag := "html"; pattr := []; right := [] |} ].

Definition nameValue (c : Constant.t) : string * string :=
  (Constant.Name c, Constant.Value c).

Definition nameType (v : Variable_.t) : string * string :=
  (Variable_.Name v, Variable_.Type_ v).


(** The first constant block of [constantsPage text], where it stands. *)
Definition constantALoc (text : string) : Loc :=
  {| here := constantA;
     path := [ {| left := []; ptag := "div";
                  pattr := class "Documentation-constants";
                  right := [constantB text] |};
               {| left := []; ptag := "body"; pattr := []; right := [] |};
               {| left := [el "head" [] []]; ptag := "html"; pattr := [];
                  right := [] |} ] |}.

(** The blocks of [noIdPage], where they stand. *)
Definition blockOf (sel : selector) (page : Node) : Loc :=
  match Find [atRoot page] sel with
  | l :: _ => l
  | [] => atRoot page
  end.
End DomNotions.

Module ScraperNotions.
Import GoStrings Utils Models Dom Parser Scraper DomNotions.
Local Open Scope list_scope.

Definition nonBlank (importPath : string) : bool :=
  negb (TrimSpace importPath =? "").


(** Surroundings for the examples. *)
Definition emptyState : State := {| PackagesScraped := 0; calls := [] |}.
Definition stoppedClock (_ : nat) : Time := instant 0.
Definition sourceOrder (_ : nat) : MapOrders := sourceOrders.

(** Every visit hands over the given page. *)
Definition serving (page : Node) (_ : nat) (_ : string) : VisitResult :=
  VisitOK (Some page).

(** The visit of [a] fails, that of [b] hands over an empty page. *)
Definition aFailsBServes (_ : nat) (url : string) : VisitResult :=
  if url =? "https://pkg.go.dev/a" then VisitErr "connection refused"
  else if url =? "https://pkg.go.dev/b" then VisitOK (Some emptyPage)
  else VisitOK None.

(** A page whose breadcrumb names another package. *)
Definition breadcrumbPage : Node :=
  el "html" []
    [ el "body" []
        [ el "h1" (class "UnitHeader-titleHeading") [TextNode "viper"];
          el "span" (class "UnitHeader-breadcrumbCurrent")
            [TextNode "github.com/spf13/viper"] ] ].

Definition inOrder (order : list nat) : Schedule :=
  {| completion := order; abandoned := fun _ => false |}.

Definition allCancelled (order : list nat) : Schedule :=
  {| completion := order; abandoned := fun _ => true |}.

(** The entries of the two slices of a batch, and what its errors
    are: one failed scrape each, of one of the import paths. *)
Definition tally (b : Batch) : nat :=
  List.length (packages b) + List.length (errors b).

Definition failuresOf (importPaths : list string) (errs : list error) : Prop :=
  Forall (fun e => exists p cause, e = ErrScrape p cause /\ In p importPaths) errs.

Definition noBatch : Batch := {| packages := []; errors := [] |}.

Definition testConfig : ScrapingConfig :=
  {| MaxConcurrency := 2; Delay := 0; Timeout := 0; UserAgent := "";
     Debug := false; TestMode := true |}.
End ScraperNotions.

(** ** Notions used to state facts about the renderers and the command *)

Module TextNotions.
Import GoStrings.

(** Every byte of the text passes the test. *)
Fixpoint allBytes (p : ascii -> bool) (s : string) : bool :=
  match s with
  | EmptyString => true
  | String c s' => p c && allBytes p s'
  end.

Definition isDigit (c : ascii) : bool :=
  let n := nat_of_ascii c in ((48 <=? n) && (n <=? 57))%nat.

(** An ASCII byte that is neither a control nor a blank. *)
Definition isGraphic (c : ascii) : bool :=
  let n := nat_of_ascii c in ((33 <=? n) && (n <=? 126))%nat.

(** The fields of a text between the occurrences of a separator byte
    ([strings.Split] with a separator of one byte); [cur] is the field
    being read. *)
Fixpoint fields (sep : ascii) (cur : string) (s : string) : list string :=
  match s with
  | EmptyString => [cur]
  | String c s' =>
      if Ascii.eqb c sep then cur :: fields sep "" s'
      else fields sep (cur ++ String c "") s'
  end.

Fixpoint joined (l : list string) : string :=
  match l with
  | [] => ""
  | x :: rest => x ++ joined rest
  end.
End TextNotions.

Module EntityNotions.
Import GoStrings Utils.
Local Open Scope list_scope.

(** The first entry of a table whose key the text begins with. *)
Fixpoint firstKey (T : table) (s : string) : option (string * string) :=
  match T with
  | [] => None
  | kv :: rest => if HasPrefix s (fst kv) then Some kv else firstKey rest s
  end.

(** All the replacements of a table made in one pass over the text, from
    the left: where a key of the table begins, its value is written and
    the key is passed over.  [skip] counts the bytes of a key still to be
    passed over. *)
Fixpoint decodeFrom (T : table) (skip : nat) (s : string) : string :=
  match s with
  | EmptyString => EmptyString
  | String c s' =>
      match skip with
      | S k => decodeFrom T k s'
      | O =>
          match firstKey T s with
          | Some kv => (snd kv ++ decodeFrom T (String.length (fst kv) - 1) s')%string
          | None => String c (decodeFrom T 0 s')
          end
      end
  end.

Definition decode (T : table) (s : string) : string := decodeFrom T 0 s.

Fixpoint occurs (x : ascii) (s : string) : bool :=
  match s with
  | EmptyString => false
  | String c s' => Ascii.eqb c x || occurs x s'
  end.

(** The entities but [&amp;], whose value begins an entity. *)
Definition plainEntities : table :=
  [ ("&quot;", DQ); ("&#34;", DQ); ("&apos;", "'"); ("&#39;", "'");
    ("&lt;", "<"); ("&gt;", ">"); ("&nbsp;", " ") ]%string.

Definition ampEntity : string * string := ("&amp;", "&")%string.

(** A table of entities that do not interfere: every key is among [A],
    and is an ampersand and bytes that are not ampersands; every value is
    one byte, which is in none of the keys [A]; only equal entries have
    keys of which one begins the other. *)
Definition apart (A : list string) (T : table) : Prop :=
  (forall kv, In kv T ->
     exists tail x,
       fst kv = String "&" tail /\ occurs "&" tail = false
       /\ snd kv = String x EmptyString
       /\ In (fst kv) A
       /\ forall k, In k A -> occurs x k = false)
  /\ (forall kv kv', In kv T -> In kv' T ->
        HasPrefix (fst kv) (fst kv') = true -> kv = kv').

(** The entities visited with [&lt;] before [&amp;]. *)
Definition ampLast : table :=
  [ ("&quot;", DQ); ("&#34;", DQ); ("&apos;", "'"); ("&#39;", "'");
    ("&lt;", "<"); ("&gt;", ">"); ("&nbsp;", " "); ("&amp;", "&") ]%string.
End EntityNotions.

Module RenderNotions.
Import GoStrings Models.
Local Open Scope list_scope.

(** The record of the test of [ConvertToMarkdown]. *)
Definition testPkg : Package.t :=
  Package.mk
    "testpkg"
    "A test package for markdown conversion with extensive content to ensure long output. This description is expanded to add more characters and test rendering of longer texts."
    "test/module"
    "v1.0.0"
    false
    ""
    "Test Synopsis with additional details for coverage."
    "MIT"
    ""
    "https://github.com/test/pkg"
    "github.com/test/pkg"
    (instant 0)
    "" "" 0%Z 0%Z
    [ Function.mk "TestFunc"
        "A test function for rendering. This description is detailed to increase output length."
        "func TestFunc() string" "" "" ""
        [ Example.mk "TestExample"
            ("fmt.Println(" ++ DQ ++ "Hello World from test example" ++ DQ ++ ")")%string
            ("Hello World from test example" ++ LF)%string;
          Example.mk "SecondExample"
            ("fmt.Println(" ++ DQ ++ "Another example for coverage" ++ DQ ++ ")")%string
            ("Another example for coverage" ++ LF)%string ];
      Function.mk "AnotherFunc" "Second function to add more content."
        "func AnotherFunc() error" "" "" ""
        [ Example.mk "AnotherExample" "return nil" "" ] ]
    [ Type_.mk "TestType" "A test type for rendering with more details."
        "type TestType struct { Field string }" "struct" "" ""
        [ Function.mk "Method" "A test method with description."
            "func (t *TestType) Method() string" "" "" "" [];
          Function.mk "SecondMethod" "Another method for the type."
            "func (t *TestType) SecondMethod()" "" "" "" [] ]
        [ Example.mk "TypeExample"
            ("t := &TestType{Field: " ++ DQ ++ "value" ++ DQ ++ "}" ++ LF
             ++ "fmt.Println(t.Field)")%string
            ("value" ++ LF)%string;
          Example.mk "SecondTypeExample" "t.Method()" "" ];
      Type_.mk "AnotherType" "Another test type to extend output."
        "type AnotherType interface {}" "interface" "" ""
        [ Function.mk "InterfaceMethod" "Method for interface."
            "func (a AnotherType) InterfaceMethod()" "" "" "" [] ]
        [] ]
    [ Variable_.mk "TestVar" "string" "A test variable with longer description.";
      Variable_.mk "AnotherVar" "int" "Second variable." ]
    [ Constant.mk "TestConst" "int" "42" "A test constant with details.";
      Constant.mk "AnotherConst" "string"
        (DQ ++ "constant value" ++ DQ)%string "Another constant." ]
    [ Example.mk "PackageExample"
        ("fmt.Println(" ++ DQ ++ "Package level example" ++ DQ ++ ")")%string
        ("Package level example" ++ LF)%string ].

(** A format of the time for the examples: the seconds since the epoch. *)
Definition secondsFormat (t : Time) : string :=
  match t with
  | zeroTime => "0001-01-01 00:00:00"
  | instant s => FormatInt s
  end.
End RenderNotions.

Module BatchNotions.
Import GoStrings Utils Models Dom Parser Scraper.
Local Open Scope list_scope.

(** The import path a failure of a batch is about. *)
Definition scrapedPath (e : error) : string :=
  match e with
  | ErrScrape importPath _ => importPath
  | _ => ""
  end.

(** The import paths at the given places of a list. *)
Definition pathsAt (importPaths : list string) (places : list nat) : list string :=
  flat_map (fun i => match nth_error importPaths i with
                     | Some p => [p]
                     | None => []
                     end) places.

(** What a batch keeps true while it goes through [paths]: the records
    and the failures it adds are about these paths, each once; the records
    are about paths that are not blank; only records of scrapes outside
    the test mode move the counter. *)
Definition grown (cfg : ScrapingConfig) (b : Batch) (st : State)
  (b' : Batch) (st' : State) (paths : list string) : Prop :=
  exists news fails,
    packages b' = packages b ++ news
    /\ errors b' = errors b ++ fails
    /\ Permutation (map Package.ImportPath news ++ map scrapedPath fails) paths
    /\ Forall (fun pkg => negb (TrimSpace (Package.ImportPath pkg) =? "") = true) news
    /\ Forall (fun e => exists p cause, e = ErrScrape p cause) fails
    /\ PackagesScraped st'
       = PackagesScraped st + (if TestMode cfg then 0 else List.length news).

(** A run in which the goroutine of the [k]-th import path, and no
    other, returns on seeing the context cancelled. *)
Definition oneCancelled (order : list nat) (k : nat) : Schedule :=
  {| completion := order; abandoned := Nat.eqb k |}.

(** Other surroundings for the examples: no visit succeeds. *)
Definition offline (_ : nat) (_ : string) : VisitResult := VisitErr "no network".
End BatchNotions.

Module CommandNotions.
Import GoStrings Utils Models Dom Parser Scraper Mongostore Docinator.
Local Open Scope list_scope.

(** A collection for the examples: the documents in a list, the newest
    first, one for an id; no operation fails. *)
Definition listFindOne (c : list Document.t) (id : string) : FindResult :=
  match find (fun d => (Document.ID d =? id)%string) c with
  | Some d => Found d
  | None => NoDocuments
  end.

Definition listReplaceOne (c : list Document.t) (d : Document.t)
  : list Document.t * option string :=
  (d :: filter (fun x => negb (Document.ID x =? Document.ID d)%string) c, None).

(** A stand-in for [filepath.Dir] in the examples, which write no file. *)
Definition noDir (path : string) : string := path.

Definition dirsOK (_ : string) : bool := false.
End CommandNotions.

(** * Facts about the models *)

(** ** Byte strings *)

Section StringFacts.
Import GoStrings.

Lemma slength_app (a b : string) :
  String.length (a ++ b) = String.length a + String.length b.
Proof. induction a; simpl; auto. Qed.

Lemma app_empty_r (a : string) : a ++ "" = a.
Proof. induction a; simpl; congruence. Qed.

Lemma app_assoc_s (a b c : string) : (a ++ b) ++ c = a ++ (b ++ c).
Proof. induction a; simpl; congruence. Qed.

Lemma length_take (n : nat) (s : string) :
  String.length (take n s) = Nat.min n (String.length s).
Proof. revert s; induction n; destruct s; simpl; auto. Qed.

Lemma length_drop (n : nat) (s : string) :
  String.length (drop n s) = String.length s - n.
Proof. revert s; induction n; destruct s; simpl; auto. Qed.

Lemma take_drop (n : nat) (s : string) : take n s ++ drop n s = s.
Proof. revert s; induction n; destruct s; simpl; auto. now rewrite IHn. Qed.

Lemma take_app_length (a b : string) : take (String.length a) (a ++ b) = a.
Proof.
  induction a as [|c a IH]; simpl.
  - now destruct b.
  - now rewrite IH.
Qed.

Lemma CutPrefix_app (s p r : string) : CutPrefix s p = Some r -> s = p ++ r.
Proof.
  revert s; induction p as [|a p IH]; intros s H.
  - destruct s; simpl in H; now inversion H.
  - destruct s as [|b t]; simpl in H; [discriminate|].
    destruct (Ascii.eqb a b) eqn:E; [|discriminate].
    apply Ascii.eqb_eq in E; subst. simpl. f_equal. now apply IH.
Qed.

Lemma CutPrefix_self (p r : string) : CutPrefix (p ++ r) p = Some r.
Proof.
  induction p as [|a p IH]; simpl; [now destruct r|].
  now rewrite Ascii.eqb_refl.
Qed.

Lemma CutPrefix_ext (s p r t : string) :
  CutPrefix s p = Some r -> CutPrefix (s ++ t) p = Some (r ++ t).
Proof.
  intros H. apply CutPrefix_app in H. subst.
  rewrite app_assoc_s. apply CutPrefix_self.
Qed.

Lemma HasPrefix_length (s p : string) :
  HasPrefix s p = true -> String.length p <= String.length s.
Proof.
  unfold HasPrefix. destruct (CutPrefix s p) eqn:E; [|discriminate].
  intros _. apply CutPrefix_app in E. subst. rewrite slength_app. lia.
Qed.

Lemma HasPrefix_head (s : string) (c : ascii) (p : string) :
  HasPrefix s (String c p) = true -> exists t, s = String c t.
Proof.
  unfold HasPrefix. destruct (CutPrefix s (String c p)) eqn:E; [|discriminate].
  intros _. apply CutPrefix_app in E. simpl in E. eauto.
Qed.

Lemma HasPrefix_app_l (s a b : string) :
  HasPrefix s (a ++ b) = true -> HasPrefix s a = true.
Proof.
  unfold HasPrefix. destruct (CutPrefix s (a ++ b)) eqn:E; [|discriminate].
  intros _. apply CutPrefix_app in E. subst.
  rewrite app_assoc_s. now rewrite CutPrefix_self.
Qed.

Lemma Contains_cons (c : ascii) (s sub : string) :
  Contains (String c s) sub = false ->
  HasPrefix (String c s) sub = false /\ Contains s sub = false.
Proof.
  simpl. destruct (HasPrefix (String c s) sub); [discriminate|auto].
Qed.

Lemma Contains_app_l (s a b : string) :
  Contains s a = false -> Contains s (a ++ b) = false.
Proof.
  induction s as [|c s IH]; intros H.
  - simpl in *. destruct (HasPrefix "" a) eqn:E; [discriminate|].
    destruct (HasPrefix "" (a ++ b)) eqn:E'; [|reflexivity].
    apply HasPrefix_app_l in E'. congruence.
  - apply Contains_cons in H as [H1 H2]. simpl.
    destruct (HasPrefix (String c s) (a ++ b)) eqn:E'.
    + apply HasPrefix_app_l in E'. congruence.
    + auto.
Qed.

(** A text without the first byte of a word is a text without the word. *)
Lemma Contains_first_byte (s : string) (c : ascii) (p : string) :
  Contains s (String c "") = false -> Contains s (String c p) = false.
Proof. intros H. apply (Contains_app_l s (String c "") p H). Qed.

Lemma replaceFrom_absent (s old new : string) :
  Contains s old = false -> replaceFrom 0 s old new = s.
Proof.
  induction s as [|c s IH]; intros H; [reflexivity|].
  apply Contains_cons in H as [H1 H2]. simpl replaceFrom.
  rewrite H1. f_equal. auto.
Qed.

Lemma ReplaceAll_absent (s old new : string) :
  Contains s old = false -> ReplaceAll s old new = s.
Proof. apply replaceFrom_absent. Qed.

Lemma replaceFrom_length (old new : string) :
  String.length new <= String.length old -> 1 <= String.length old ->
  forall s k,
    String.length (replaceFrom k s old new) <= String.length s - k.
Proof.
  intros Hn Ho. induction s as [|c s IH]; intros k; [simpl; lia|].
  simpl replaceFrom. destruct k as [|k].
  - destruct (HasPrefix (String c s) old) eqn:E.
    + apply HasPrefix_length in E. rewrite slength_app.
      specialize (IH (String.length old - 1)). simpl in *. lia.
    + specialize (IH 0). simpl in *. lia.
  - specialize (IH k). simpl. lia.
Qed.

Lemma ReplaceAll_shrinks (s old new : string) :
  String.length new < String.length old ->
  Contains s old = true ->
  String.length (ReplaceAll s old new) < String.length s.
Proof.
  intros Hn. unfold ReplaceAll.
  induction s as [|c s IH]; intros H.
  - simpl in H. destruct (HasPrefix "" old) eqn:E; [|discriminate].
    apply HasPrefix_length in E. simpl in E. lia.
  - simpl replaceFrom. simpl in H.
    destruct (HasPrefix (String c s) old) eqn:E.
    + apply HasPrefix_length in E. rewrite slength_app.
      pose proof (replaceFrom_length old new ltac:(lia) ltac:(lia) s
                    (String.length old - 1)).
      simpl in *. lia.
    + simpl. apply IH in H. lia.
Qed.

Lemma IndexByte_lt (s : string) (c : ascii) (i : nat) :
  IndexByte s c = Some i -> i < String.length s.
Proof.
  revert i; induction s as [|d s IH]; intros i H; simpl in *; [discriminate|].
  destruct (Ascii.eqb d c).
  - inversion H. lia.
  - destruct (IndexByte s c); [|discriminate]. inversion H.
    specialize (IH n eq_refl). lia.
Qed.

Lemma IndexByte_absent (s : string) (c : ascii) :
  Contains s (String c "") = false -> IndexByte s c = None.
Proof.
  induction s as [|d s IH]; intros H; [reflexivity|].
  apply Contains_cons in H as [H1 H2]. simpl.
  destruct (Ascii.eqb d c) eqn:E.
  - apply Ascii.eqb_eq in E. subst. unfold HasPrefix in H1. simpl in H1.
    rewrite Ascii.eqb_refl in H1. destruct s; discriminate.
  - now rewrite IH.
Qed.

End StringFacts.

(** ** The matcher *)

Section RegexpFacts.
Import GoStrings Regexp Notions.

Lemma app_split (s t a y : string) :
  s ++ t = a ++ y ->
  (exists s', s = a ++ s' /\ y = s' ++ t)
  \/ (exists a', a' <> "" /\ a = s ++ a' /\ t = a' ++ y).
Proof.
  revert a; induction s as [|c s IH]; intros a H.
  - destruct a as [|b a].
    + left. exists "". simpl in *. auto.
    + right. exists (String b a). simpl in *. repeat split; auto. discriminate.
  - destruct a as [|b a].
    + left. exists (String c s). simpl in *. auto.
    + simpl in H. inversion H; subst.
      destruct (IH a H2) as [[s' [E1 E2]] | [a' [N [E1 E2]]]].
      * left. exists s'. simpl. split; congruence.
      * right. exists a'. simpl. repeat split; congruence.
Qed.

Lemma take_app_le (n : nat) (s t : string) :
  n <= String.length s -> take n (s ++ t) = take n s.
Proof.
  revert s; induction n as [|n IH]; intros s H.
  - now destruct s, t.
  - destruct s as [|c s]; simpl in *; [lia|]. f_equal. apply IH. lia.
Qed.

Lemma cutAny_app (s : string) (alts : list string) (y : string) :
  cutAny s alts = Some y -> exists a, In a alts /\ s = a ++ y.
Proof.
  induction alts as [|a rest IH]; simpl; [discriminate|].
  destruct (CutPrefix s a) eqn:E.
  - intros H; inversion H; subst. exists a. split; auto.
    now apply CutPrefix_app.
  - intros H. destruct (IH H) as [b [Hb Hs]]. eauto.
Qed.

Lemma cutAny_length (s : string) (alts : list string) (y : string) :
  cutAny s alts = Some y -> String.length y <= String.length s.
Proof.
  intros H. apply cutAny_app in H as [a [_ E]]. subst.
  rewrite slength_app. lia.
Qed.

Lemma CutPrefix_longer (s a' : string) :
  a' <> "" -> CutPrefix s (s ++ a') = None.
Proof.
  intros N. destruct (CutPrefix s (s ++ a')) eqn:E; [|reflexivity].
  apply CutPrefix_app in E. apply (f_equal String.length) in E.
  rewrite !slength_app in E. destruct a'; [congruence|]. simpl in E. lia.
Qed.

Lemma cutAny_trunc (alts : list string) :
  prefixFree alts = true ->
  forall s t,
    match cutAny (s ++ t) alts with
    | Some y =>
        (exists s', y = s' ++ t /\ cutAny s alts = Some s')
        \/ (String.length y < String.length t /\ cutAny s alts = None)
    | None => cutAny s alts = None
    end.
Proof.
  induction alts as [|a rest IH]; intros PF s t; [reflexivity|].
  simpl in PF. apply andb_true_iff in PF as [Hfa PF].
  specialize (IH PF s t). simpl.
  destruct (CutPrefix (s ++ t) a) eqn:E.
  - apply CutPrefix_app in E.
    destruct (app_split _ _ _ _ E) as [[s' [E1 E2]] | [a' [N [E1 E2]]]].
    + left. exists s'. split; auto. subst s. now rewrite CutPrefix_self.
    + right. split.
      * subst t. rewrite slength_app. destruct a'; [congruence|simpl; lia].
      * subst a. rewrite CutPrefix_longer by assumption.
        destruct (cutAny s rest) eqn:C; [|reflexivity].
        apply cutAny_app in C as [b [Hb Es]].
        rewrite forallb_forall in Hfa. specialize (Hfa b Hb).
        apply andb_true_iff in Hfa as [Hfa _].
        subst s. rewrite app_assoc_s in Hfa.
        unfold HasPrefix in Hfa. rewrite CutPrefix_self in Hfa. discriminate.
  - destruct (CutPrefix s a) eqn:E'.
    + apply (CutPrefix_ext _ _ _ t) in E'. congruence.
    + exact IH.
Qed.

Lemma fold_prefixFree (c : ascii) : prefixFree (foldAlternatives c) = true.
Proof.
  destruct c as [[] [] [] [] [] [] [] []]; reflexivity.
Qed.

Section Conts.
Context {R : Type}.
Implicit Types (cont : string -> caps -> option R) (k : class).

(** A continuation that refuses short remainders is never reached on a
    short input. *)
Lemma starGreedy_reject k (N : nat) (c1 : string -> option R) :
  (forall x, String.length x < N -> c1 x = None) ->
  forall s, String.length s < N -> starGreedy k s c1 = None.
Proof.
  intros H. induction s as [|c s IH]; intros L; simpl; [now apply H|].
  destruct (inClass k c); [|now apply H].
  rewrite IH by (simpl in L; lia). now apply H.
Qed.

Lemma starLazy_reject k (N : nat) (c1 : string -> option R) :
  (forall x, String.length x < N -> c1 x = None) ->
  forall s, String.length s < N -> starLazy k s c1 = None.
Proof.
  intros H. induction s as [|c s IH]; intros L; simpl.
  - now rewrite H.
  - rewrite H by assumption. destruct (inClass k c); [|reflexivity].
    apply IH. simpl in L; lia.
Qed.

Lemma run_reject (r : re) (N : nat) :
  forall cont, (forall x c, String.length x < N -> cont x c = None) ->
  forall s cs, String.length s < N -> run r s cs cont = None.
Proof.
  induction r as [|c|k|g k|r1 IH1|r1 IH1 r2 IH2|n r1 IH1];
    intros cont H s cs L; simpl.
  - now apply H.
  - destruct (cutAny s (foldAlternatives c)) eqn:E; [|reflexivity].
    apply H. apply cutAny_length in E. lia.
  - destruct s as [|d s]; [reflexivity|].
    destruct (inClass k d); [|reflexivity]. apply H. simpl in L; lia.
  - destruct g.
    + apply (starGreedy_reject k N); auto.
    + apply (starLazy_reject k N); auto.
  - rewrite IH1 by assumption. now apply H.
  - apply IH1; [|assumption]. intros x c Lx. now apply IH2.
  - apply IH1; [|assumption]. intros x c Lx. now apply H.
Qed.

(** Cutting the text after the match: the matcher runs alike on
    [s ++ t] and on [s] when the continuation of the first refuses what
    is shorter than [t] and agrees with that of the second. *)
Lemma starGreedy_trunc k (t : string) (c1 c2 : string -> option R) :
  (forall x, String.length x < String.length t -> c1 x = None) ->
  (forall x, c1 (x ++ t) = c2 x) ->
  forall s, starGreedy k (s ++ t) c1 = starGreedy k s c2.
Proof.
  intros Hr Ha. induction s as [|c s IH].
  - simpl. specialize (Ha ""). simpl in Ha.
    destruct t as [|d t]; simpl; [exact Ha|].
    destruct (inClass k d); [|exact Ha].
    rewrite (starGreedy_reject k (String.length (String d t))); auto.
  - simpl. destruct (inClass k c).
    + rewrite IH. destruct (starGreedy k s c2); [reflexivity|].
      apply (Ha (String c s)).
    + apply (Ha (String c s)).
Qed.

Lemma starLazy_trunc k (t : string) (c1 c2 : string -> option R) :
  (forall x, String.length x < String.length t -> c1 x = None) ->
  (forall x, c1 (x ++ t) = c2 x) ->
  forall s, starLazy k (s ++ t) c1 = starLazy k s c2.
Proof.
  intros Hr Ha. induction s as [|c s IH].
  - pose proof (Ha "") as Ha0. simpl in Ha0.
    destruct t as [|d t]; simpl.
    + now rewrite Ha0.
    + simpl in Ha0. rewrite Ha0. destruct (c2 ""); [reflexivity|].
      destruct (inClass k d); [|reflexivity].
      apply (starLazy_reject k (String.length (String d t))); auto.
  - simpl. pose proof (Ha (String c s)) as Hc. simpl in Hc. rewrite Hc.
    destruct (c2 (String c s)); [reflexivity|].
    destruct (inClass k c); [apply IH|reflexivity].
Qed.

Lemma run_trunc (r : re) (t : string) :
  forall cont cont',
    (forall x c, String.length x < String.length t -> cont x c = None) ->
    (forall x c, cont (x ++ t) c = cont' x c) ->
    forall s cs, run r (s ++ t) cs cont = run r s cs cont'.
Proof.
  induction r as [|c|k|g k|r1 IH1|r1 IH1 r2 IH2|n r1 IH1];
    intros cont cont' Hr Ha s cs; simpl.
  - apply Ha.
  - pose proof (cutAny_trunc _ (fold_prefixFree c) s t) as T.
    destruct (cutAny (s ++ t) (foldAlternatives c)) as [y|].
    + destruct T as [[s' [E1 E2]] | [L E2]]; rewrite E2.
      * subst y. apply Ha.
      * now apply Hr.
    + now rewrite T.
  - destruct s as [|d s]; simpl.
    + destruct t as [|e t]; [reflexivity|].
      destruct (inClass k e); [|reflexivity]. apply Hr. simpl; lia.
    + destruct (inClass k d); [apply Ha|reflexivity].
  - destruct g.
    + apply starGreedy_trunc; intros; auto.
    + apply starLazy_trunc; intros; auto.
  - rewrite (IH1 cont cont' Hr Ha). now rewrite Ha.
  - apply IH1.
    + intros x c L. apply run_reject with (N := String.length t); auto.
    + intros x c. now apply IH2.
  - apply IH1.
    + intros x c L. now apply Hr.
    + intros x c. rewrite Ha. do 3 f_equal.
      rewrite !slength_app.
      replace (String.length s + String.length t
               - (String.length x + String.length t))
        with (String.length s - String.length x) by lia.
      apply take_app_le. lia.
Qed.

(** A continuation may be replaced by one that refuses more, as long as
    it keeps the result reached. *)
Section Narrow.
Variable good : R -> Prop.

Lemma starGreedy_narrow k (c1 c2 : string -> option R) :
  narrows1 good c1 c2 ->
  narrows1 good (fun s => starGreedy k s c1) (fun s => starGreedy k s c2).
Proof.
  intros [H1 H2]. split.
  - induction x as [|c s IH]; simpl; [apply H1|].
    destruct (inClass k c); [|apply H1].
    destruct (starGreedy k s c1) eqn:E; [discriminate|].
    rewrite IH by reflexivity. apply H1.
  - assert (N : forall x, starGreedy k x c1 = None -> starGreedy k x c2 = None).
    { induction x as [|c s IH]; simpl; [apply H1|].
      destruct (inClass k c); [|apply H1].
      destruct (starGreedy k s c1) eqn:E; [discriminate|].
      rewrite IH by reflexivity. apply H1. }
    induction x as [|c s IH]; simpl; intros v; [apply H2|].
    destruct (inClass k c); [|apply H2].
    destruct (starGreedy k s c1) eqn:E.
    + intros Hv G. inversion Hv; subst. now rewrite (IH v eq_refl G).
    + rewrite (N s E). apply H2.
Qed.

Lemma starLazy_narrow k (c1 c2 : string -> option R) :
  narrows1 good c1 c2 ->
  narrows1 good (fun s => starLazy k s c1) (fun s => starLazy k s c2).
Proof.
  intros [H1 H2].
  assert (N : forall x, starLazy k x c1 = None -> starLazy k x c2 = None).
  { induction x as [|c s IH]; simpl.
    - destruct (c1 "") eqn:E; [discriminate|]. now rewrite H1.
    - destruct (c1 (String c s)) eqn:E; [discriminate|]. rewrite H1 by assumption.
      destruct (inClass k c); auto. }
  split; [exact N|].
  induction x as [|c s IH]; simpl; intros v.
  - destruct (c1 "") eqn:E; [|discriminate].
    intros Hv G. inversion Hv; subst. now rewrite (H2 _ _ E G).
  - destruct (c1 (String c s)) eqn:E.
    + intros Hv G. inversion Hv; subst. now rewrite (H2 _ _ E G).
    + rewrite H1 by assumption. destruct (inClass k c); [apply IH|discriminate].
Qed.

Lemma run_narrow (r : re) :
  forall cont cont', narrows good cont cont' ->
  forall cs, narrows1 good (fun s => run r s cs cont) (fun s => run r s cs cont').
Proof.
  induction r as [|c|k|g k|r1 IH1|r1 IH1 r2 IH2|n r1 IH1];
    intros cont cont' H cs; simpl.
  - apply H.
  - destruct (H cs) as [H1 H2]. split.
    + intros x. destruct (cutAny x (foldAlternatives c)); auto.
    + intros x v. destruct (cutAny x (foldAlternatives c)); [auto|discriminate].
  - destruct (H cs) as [H1 H2]. split.
    + intros [|d s]; [reflexivity|]. destruct (inClass k d); auto.
    + intros [|d s] v; [discriminate|]. destruct (inClass k d); [auto|discriminate].
  - destruct g.
    + apply starGreedy_narrow. apply H.
    + apply starLazy_narrow. apply H.
  - destruct (IH1 cont cont' H cs) as [A1 A2]. destruct (H cs) as [H1 H2].
    split.
    + intros x. destruct (run r1 x cs cont) eqn:E; [discriminate|].
      rewrite (A1 x E). apply H1.
    + intros x v. destruct (run r1 x cs cont) eqn:E.
      * intros Hv G. inversion Hv; subst. now rewrite (A2 x v E G).
      * rewrite (A1 x E). apply H2.
  - apply IH1. intros c. apply IH2. exact H.
  - assert (G : forall x,
               narrows good
                 (fun s' c' => cont s' ((n, take (String.length x - String.length s') x) :: c'))
                 (fun s' c' => cont' s' ((n, take (String.length x - String.length s') x) :: c'))).
    { intros x c. split.
      - intros y. apply (H _).
      - intros y v. apply (H _). }
    split.
    + intros x. apply (proj1 (IH1 _ _ (G x) cs)).
    + intros x v. apply (proj2 (IH1 _ _ (G x) cs)).
Qed.
End Narrow.

(** The continuation is reached on a suffix of the input only. *)
Lemma starGreedy_suffix k (c1 : string -> option R) (s : string) (v : R) :
  starGreedy k s c1 = Some v -> exists m x, s = m ++ x /\ c1 x = Some v.
Proof.
  induction s as [|c s IH]; simpl.
  - intros H. exists "", "". auto.
  - assert (D : c1 (String c s) = Some v ->
                exists m x, String c s = m ++ x /\ c1 x = Some v).
    { intros H. exists "", (String c s). auto. }
    destruct (inClass k c); [|exact D].
    destruct (starGreedy k s c1) eqn:E; [|exact D].
    intros H. inversion H; subst.
    destruct (IH eq_refl) as [m [x [E1 E2]]].
    exists (String c m), x. simpl. split; congruence.
Qed.

Lemma starLazy_suffix k (c1 : string -> option R) (s : string) (v : R) :
  starLazy k s c1 = Some v -> exists m x, s = m ++ x /\ c1 x = Some v.
Proof.
  induction s as [|c s IH]; simpl.
  - destruct (c1 "") eqn:E; [|discriminate].
    intros H. inversion H; subst. exists "", "". auto.
  - destruct (c1 (String c s)) eqn:E.
    + intros H. inversion H; subst. exists "", (String c s). auto.
    + destruct (inClass k c); [|discriminate]. intros H.
      destruct (IH H) as [m [x [E1 E2]]].
      exists (String c m), x. simpl. split; congruence.
Qed.

Lemma run_suffix (r : re) :
  forall cont s cs v,
    run r s cs cont = Some v ->
    exists m x c, s = m ++ x /\ cont x c = Some v.
Proof.
  induction r as [|c|k|g k|r1 IH1|r1 IH1 r2 IH2|n r1 IH1];
    intros cont s cs v; simpl.
  - intros H. exists "", s, cs. auto.
  - destruct (cutAny s (foldAlternatives c)) eqn:E; [|discriminate].
    intros H. apply cutAny_app in E as [a [_ E]]. exists a, s0, cs. auto.
  - destruct s as [|d s]; [discriminate|].
    destruct (inClass k d); [|discriminate].
    intros H. exists (String d ""), s, cs. auto.
  - destruct g; intros H.
    + apply starGreedy_suffix in H as [m [x [E1 E2]]]. exists m, x, cs. auto.
    + apply starLazy_suffix in H as [m [x [E1 E2]]]. exists m, x, cs. auto.
  - destruct (run r1 s cs cont) eqn:E.
    + intros H. inversion H; subst. eapply IH1; eauto.
    + intros H. exists "", s, cs. auto.
  - intros H. apply IH1 in H as [m [x [c [E1 E2]]]].
    apply IH2 in E2 as [m' [x' [c' [E3 E4]]]].
    exists (m ++ m'), x', c'. subst. rewrite app_assoc_s. auto.
  - intros H. apply IH1 in H as [m [x [c [E1 E2]]]]. eauto.
Qed.
End Conts.

(** The result passes through a function applied to what the continuation
    returns. *)
Lemma starGreedy_map {A B : Type} (f : A -> B) k
  (c1 : string -> option A) (c2 : string -> option B) :
  (forall x, c2 x = option_map f (c1 x)) ->
  forall s, starGreedy k s c2 = option_map f (starGreedy k s c1).
Proof.
  intros H. induction s as [|c s IH]; simpl; [apply H|].
  destruct (inClass k c); [|apply H].
  rewrite IH. destruct (starGreedy k s c1); [reflexivity|apply H].
Qed.

Lemma starLazy_map {A B : Type} (f : A -> B) k
  (c1 : string -> option A) (c2 : string -> option B) :
  (forall x, c2 x = option_map f (c1 x)) ->
  forall s, starLazy k s c2 = option_map f (starLazy k s c1).
Proof.
  intros H. induction s as [|c s IH]; simpl.
  - rewrite H. now destruct (c1 "").
  - rewrite H. destruct (c1 (String c s)); [reflexivity|]. simpl.
    destruct (inClass k c); [apply IH|reflexivity].
Qed.

Lemma run_map {A B : Type} (f : A -> B) (r : re) :
  forall (cont : string -> caps -> option A) (cont2 : string -> caps -> option B),
    (forall x c, cont2 x c = option_map f (cont x c)) ->
    forall s cs, run r s cs cont2 = option_map f (run r s cs cont).
Proof.
  induction r as [|c|k|g k|r1 IH1|r1 IH1 r2 IH2|n r1 IH1];
    intros cont cont2 H s cs; simpl.
  - apply H.
  - destruct (cutAny s (foldAlternatives c)); [apply H|reflexivity].
  - destruct s as [|d s]; [reflexivity|].
    destruct (inClass k d); [apply H|reflexivity].
  - destruct g.
    + apply (starGreedy_map f k (fun x => cont x cs)). intros; apply H.
    + apply (starLazy_map f k (fun x => cont x cs)). intros; apply H.
  - rewrite (IH1 cont cont2 H). destruct (run r1 s cs cont); [reflexivity|apply H].
  - apply IH1. intros x c. now apply IH2.
  - apply IH1. intros x c. apply H.
Qed.

End RegexpFacts.

(** ** Matches, and the totality of the reducer *)

Section ReducerTotal.
Import GoStrings Regexp Utils Notions.

Lemma app_same_length (x t : string) : x ++ t = t -> x = "".
Proof.
  intros H. apply (f_equal String.length) in H. rewrite slength_app in H.
  destruct x; [reflexivity|simpl in H; lia].
Qed.

Lemma take_all (s : string) : take (String.length s) s = s.
Proof. rewrite <- (app_empty_r s) at 2. apply take_app_length. Qed.

(** The text of a match, taken alone, is matched whole and with the same
    groups. *)
Lemma matchAt_self (r : re) (s : string) (cs : caps) (rest : string) :
  matchAt r s = Some (cs, rest) ->
  exists m, s = m ++ rest /\ matchAt r m = Some (cs, "").
Proof.
  unfold matchAt. intros H.
  destruct (run_suffix r _ _ _ _ H) as [m [x [c [E1 E2]]]].
  inversion E2; subst c x. exists m. split; [assumption|].
  set (kt := fun (x : string) (c : caps) =>
               if (String.length x <? String.length rest)%nat
               then None else Some (c, x)).
  assert (N : run r s [] kt = Some (cs, rest)).
  { apply (proj2 (run_narrow
                   (fun v : caps * string => String.length rest <= String.length (snd v))
                   r (fun s' c' => Some (c', s')) kt
                   ltac:(intros c; split;
                         [ intros y; discriminate
                         | intros y v Hv G; inversion Hv; subst v; unfold kt;
                           simpl in G; apply Nat.ltb_ge in G; now rewrite G ])
                   [])); [exact H|simpl; lia]. }
  rewrite E1 in N.
  rewrite (run_trunc r rest kt (fun x c => Some (c, x ++ rest))) in N.
  - rewrite (run_map (fun v : caps * string => (fst v, snd v ++ rest)) r
               (fun s' c' => Some (c', s'))) in N by reflexivity.
    destruct (run r m [] (fun s' c' => Some (c', s'))) as [[c' x']|];
      [|discriminate].
    simpl in N. inversion N; subst c'.
    apply app_same_length in H2. now subst x'.
  - intros x c L. unfold kt. apply Nat.ltb_lt in L. now rewrite L.
  - intros x c. unfold kt.
    assert (L : (String.length (x ++ rest) <? String.length rest)%nat = false).
    { apply Nat.ltb_ge. rewrite slength_app. lia. }
    now rewrite L.
Qed.

Lemma segments_cons (r : re) (c : ascii) (s : string) :
  segments r 0 (String c s)
  = match matchAt r (String c s) with
    | Some (cs, rest) =>
        Match (take (String.length (String c s) - String.length rest) (String c s)) cs
        :: segments r (String.length (String c s) - String.length rest - 1) s
    | None => Keep c :: segments r 0 s
    end.
Proof. reflexivity. Qed.

Lemma segments_matches (r : re) :
  forall s skip w cs,
    In (Match w cs) (segments r skip s) -> matchAt r w = Some (cs, "").
Proof.
  induction s as [|c s IH]; intros skip w cs; [simpl; tauto|].
  destruct skip as [|k]; [|apply IH].
  rewrite segments_cons.
  destruct (matchAt r (String c s)) as [[cs' rest]|] eqn:E.
  - intros [H|H]; [|eapply IH; eauto].
    injection H as Hw Hc. subst w cs'.
    destruct (matchAt_self _ _ _ _ E) as [m [E1 E2]].
    assert (L : String.length (String c s) - String.length rest = String.length m).
    { rewrite E1, slength_app. lia. }
    change (matchAt r (take (String.length (String c s) - String.length rest)
                         (String c s)) = Some (cs, "")).
    rewrite L, E1. now rewrite take_app_length.
  - intros [H|H]; [discriminate|eapply IH; eauto].
Qed.

Lemma FindStringSubmatch_self (r : re) (w : string) (cs : caps) :
  matchAt r w = Some (cs, "") -> w <> "" ->
  FindStringSubmatch r w = Some (w :: map (group cs) (seq 1 (numGroups r))).
Proof.
  intros H N. unfold FindStringSubmatch.
  destruct w as [|c w]; [congruence|].
  rewrite segments_cons, H.
  change (String.length (String c w) - String.length "")
    with (String.length (String c w)).
  rewrite (take_all (String c w)). reflexivity.
Qed.

(** The function for fenced code blocks does not panic on a match of the
    pattern of fenced code blocks. *)
Lemma fenceBlock_returns (o : MapOrders) (i : nat) (w : string) (cs : caps) :
  matchAt preCodeRe w = Some (cs, "") -> exists out, fenceBlock o i w = Some out.
Proof.
  intros H. unfold fenceBlock.
  rewrite (FindStringSubmatch_self _ _ _ H).
  - change (numGroups preCodeRe) with 2. simpl nth_error.
    cbv beta iota.
    match goal with
    | |- context [if negb ?b then _ else _] => destruct (negb b)
    end; eauto.
  - intros E. subst w. vm_compute in H. discriminate.
Qed.

Lemma substituteFunc_returns (f : nat -> string -> option string)
  (l : list segment) :
  (forall w cs, In (Match w cs) l -> forall i, exists out, f i w = Some out) ->
  forall i, exists out, substituteFunc f i l = Some out.
Proof.
  induction l as [|[c|w cs] l IH]; intros H i; simpl.
  - eauto.
  - destruct (IH (fun w cs Hw => H w cs (or_intror Hw)) i) as [t E].
    rewrite E. eauto.
  - destruct (H w cs (or_introl eq_refl) i) as [out E]. rewrite E.
    destruct (IH (fun w cs Hw => H w cs (or_intror Hw)) (S i)) as [t E'].
    rewrite E'. eauto.
Qed.

Lemma fences_return (o : MapOrders) (html : string) :
  exists out, ReplaceAllStringFunc preCodeRe html (fenceBlock o) = Some out.
Proof.
  unfold ReplaceAllStringFunc. apply substituteFunc_returns.
  intros w cs H i. apply fenceBlock_returns with (cs := cs).
  eapply segments_matches; eauto.
Qed.

(** The loop of [stripAllTags] ends: each turn shortens the text. *)
Lemma stripLoop_returns (fuel : nat) :
  forall s, String.length s < fuel -> exists out, stripLoop fuel s = Some out.
Proof.
  induction fuel as [|f IH]; intros s L; [lia|]. simpl.
  destruct (IndexByte s lt) as [start|] eqn:E1; [|eauto].
  destruct (IndexByte (drop start s) gt) as [e|] eqn:E2; [|eauto].
  apply IH. apply IndexByte_lt in E1.
  rewrite slength_app, length_take, length_drop. lia.
Qed.

Lemma stripAllTags_returns (s : string) : exists out, stripAllTags s = Some out.
Proof. apply stripLoop_returns. lia. Qed.

Lemma stripAllTags_absent (s : string) :
  Contains s "<" = false -> stripAllTags s = Some s.
Proof.
  intros H. unfold stripAllTags. simpl.
  now rewrite (IndexByte_absent s lt H).
Qed.

(** The loop that collapses line feeds ends: each turn shortens the text. *)
Lemma collapseLoop_returns (fuel : nat) :
  forall s, String.length s < fuel -> exists out, collapseLoop fuel s = Some out.
Proof.
  induction fuel as [|f IH]; intros s L; [lia|]. cbn [collapseLoop].
  destruct (Contains s (LF ++ LF ++ LF)) eqn:E; [|eauto].
  apply IH.
  pose proof (ReplaceAll_shrinks s (LF ++ LF ++ LF) (LF ++ LF)
                ltac:(simpl; lia) E).
  lia.
Qed.

Lemma ConvertHTMLToMarkdown_returns (o : MapOrders) (html : string) :
  exists out, ConvertHTMLToMarkdown o html = Some out.
Proof.
  unfold ConvertHTMLToMarkdown.
  destruct (TrimSpace html =? ""); [eauto|].
  destruct (fences_return o
              (unescapeCommonEntities (entFirst o) (ReplaceAll html (CR ++ LF) LF)))
    as [h1 E1].
  rewrite E1.
  match goal with
  | |- context [stripAllTags ?x] =>
      destruct (stripAllTags_returns x) as [h2 E2]; rewrite E2
  end.
  match goal with
  | |- context [collapseLoop (S (String.length ?x)) ?x] =>
      destruct (collapseLoop_returns (S (String.length x)) x ltac:(lia))
        as [h3 E3]; rewrite E3
  end.
  eauto.
Qed.

End ReducerTotal.

(** ** The reducer on plain text and on the third scenario *)

Section ReducerFacts.
Import GoStrings Regexp Utils Notions.

Lemma replaceEach_absent (order : table) (s : string) :
  (forall kv, In kv order -> Contains s (fst kv) = false) ->
  replaceEach order s = s.
Proof.
  unfold replaceEach. induction order as [|kv order IH]; intros H; simpl.
  - reflexivity.
  - rewrite ReplaceAll_absent by (apply H; now left).
    apply IH. intros kv' Hk. apply H. now right.
Qed.

(** On a set of texts closed under the replacements of a table, on which
    these commute, the order of the visit does not matter. *)
Lemma replaceEach_perm (t : table) (states : list string) :
  closedUnder t states = true ->
  commuteOn t states = true ->
  forall o1 o2, Permutation o1 o2 -> incl o1 t ->
  forall x, In x states ->
    replaceEach o1 x = replaceEach o2 x /\ In (replaceEach o1 x) states.
Proof.
  intros Hc Hm.
  assert (Step : forall x kv, In x states -> In kv t -> In (replaceOne x kv) states).
  { intros x kv Hx Hk. unfold closedUnder in Hc.
    rewrite forallb_forall in Hc. specialize (Hc x Hx).
    rewrite forallb_forall in Hc. specialize (Hc kv Hk).
    apply existsb_exists in Hc as [y [Hy E]].
    apply String.eqb_eq in E. now rewrite E. }
  assert (Comm : forall x a b, In x states -> In a t -> In b t ->
                   replaceOne (replaceOne x a) b = replaceOne (replaceOne x b) a).
  { intros x a b Hx Ha Hb. unfold commuteOn in Hm.
    rewrite forallb_forall in Hm. specialize (Hm x Hx).
    rewrite forallb_forall in Hm. specialize (Hm a Ha).
    rewrite forallb_forall in Hm. specialize (Hm b Hb).
    now apply String.eqb_eq in Hm. }
  assert (Stay : forall o, incl o t -> forall x, In x states ->
                   In (replaceEach o x) states).
  { induction o as [|kv o IH]; intros Hi x Hx; [exact Hx|].
    unfold replaceEach. simpl. apply IH.
    - intros y Hy. apply Hi. now right.
    - apply Step; [assumption|]. apply Hi. now left. }
  intros o1 o2 P. induction P as [|kv l l' P IH|a b l|l l' l'' P1 IH1 P2 IH2];
    intros Hi x Hx.
  - split; [reflexivity|exact Hx].
  - assert (Hk : In kv t) by (apply Hi; now left).
    assert (Hl : incl l t) by (intros y Hy; apply Hi; now right).
    unfold replaceEach. simpl.
    apply (IH Hl (replaceOne x kv)). now apply Step.
  - assert (Ha : In a t) by (apply Hi; right; now left).
    assert (Hb : In b t) by (apply Hi; now left).
    assert (Hl : incl l t) by (intros y Hy; apply Hi; right; now right).
    unfold replaceEach. simpl. split.
    + f_equal. apply (Comm x b a Hx Hb Ha).
    + apply (Stay l Hl). apply Step; [apply Step|]; assumption.
  - assert (Hi' : incl l' t).
    { intros y Hy. apply Hi. apply Permutation_in with (l := l'); [|assumption].
      now apply Permutation_sym. }
    destruct (IH1 Hi x Hx) as [E1 S1]. destruct (IH2 Hi' x Hx) as [E2 S2].
    split; [congruence|assumption].
Qed.

(** Without the first byte of a pattern, no match. *)
Lemma run_startsWith {R : Type} (c : ascii) (r : re) :
  startsWith c r = true -> lowerAscii c = upperAscii c ->
  forall (cont : string -> caps -> option R) d t cs,
    d <> c -> run r (String d t) cs cont = None.
Proof.
  intros H F. induction r as [|e|k|g k|r1 IH1|r1 IH1 r2 IH2|n r1 IH1];
    simpl in H; try discriminate; intros cont d t cs N.
  - apply Ascii.eqb_eq in H. subst e. simpl.
    unfold foldAlternatives. rewrite F, Ascii.eqb_refl. simpl.
    destruct (Ascii.eqb c d) eqn:E; [|reflexivity].
    apply Ascii.eqb_eq in E. congruence.
  - simpl. now apply IH1.
  - simpl. now apply IH1.
Qed.

(** What follows in a text without a word is without it. *)
Lemma Contains_suffix (a s sub : string) :
  Contains (a ++ s) sub = false -> Contains s sub = false.
Proof.
  induction a as [|c a IH]; intros H; [exact H|].
  apply IH. change (String c a ++ s) with (String c (a ++ s)) in H.
  now apply Contains_cons in H as [_ H].
Qed.

Lemma Contains_inside (a sub b : string) : Contains (a ++ sub ++ b) sub = true.
Proof.
  induction a as [|c a IH].
  - change ("" ++ sub ++ b) with (sub ++ b).
    destruct (sub ++ b) as [|d t] eqn:E; cbn [Contains]; unfold HasPrefix;
      rewrite <- E, CutPrefix_self; reflexivity.
  - change (String c a ++ sub ++ b) with (String c (a ++ sub ++ b)).
    cbn [Contains]. rewrite IH. now destruct (HasPrefix _ sub).
Qed.

Section Closed.
Context {R : Type}.
Variable sub : string.

Lemma starGreedy_closed k (c1 : string -> option R) :
  (forall x, Contains x sub = false -> c1 x = None) ->
  forall s, Contains s sub = false -> starGreedy k s c1 = None.
Proof.
  intros H. induction s as [|c s IH]; intros A; cbn [starGreedy]; [now apply H|].
  destruct (inClass k c); [|now apply H].
  rewrite IH by (now apply Contains_cons in A as [_ A]). now apply H.
Qed.

Lemma starLazy_closed k (c1 : string -> option R) :
  (forall x, Contains x sub = false -> c1 x = None) ->
  forall s, Contains s sub = false -> starLazy k s c1 = None.
Proof.
  intros H. induction s as [|c s IH]; intros A; cbn [starLazy].
  - now rewrite H.
  - rewrite H by assumption. destruct (inClass k c); [|reflexivity].
    apply IH. now apply Contains_cons in A as [_ A].
Qed.

(** A pattern hands over to what follows it an end of the text: when
    what follows refuses every text without the word, so does the
    pattern. *)
Lemma run_closed (r : re) :
  forall cont : string -> caps -> option R,
    (forall x c, Contains x sub = false -> cont x c = None) ->
    forall s cs, Contains s sub = false -> run r s cs cont = None.
Proof.
  induction r as [|c|k|g k|r1 IH1|r1 IH1 r2 IH2|n r1 IH1];
    intros cont H s cs A; cbn [run].
  - now apply H.
  - destruct (cutAny s (foldAlternatives c)) eqn:E; [|reflexivity].
    apply H. apply cutAny_app in E as [a [_ ->]].
    now apply Contains_suffix in A.
  - destruct s as [|d s]; [reflexivity|].
    destruct (inClass k d); [|reflexivity]. apply H.
    now apply Contains_cons in A as [_ A].
  - destruct g.
    + apply starGreedy_closed; auto.
    + apply starLazy_closed; auto.
  - rewrite IH1 by assumption. now apply H.
  - apply IH1; [|assumption]. intros x c Ax. now apply IH2.
  - apply IH1; [|assumption]. intros x c Ax. now apply H.
Qed.
End Closed.

(** Without a byte that every match holds, no match. *)
Lemma run_needs {R : Type} (c : ascii) (r : re) :
  needs c r = true -> lowerAscii c = upperAscii c ->
  forall (cont : string -> caps -> option R) s cs,
    Contains s (String c "") = false -> run r s cs cont = None.
Proof.
  intros H F. induction r as [|e|k|g k|r1 IH1|r1 IH1 r2 IH2|n r1 IH1];
    cbn [needs] in H; try discriminate; intros cont s cs A; cbn [run].
  - apply Ascii.eqb_eq in H. subst e.
    unfold foldAlternatives. rewrite F, Ascii.eqb_refl. cbn [cutAny].
    destruct (CutPrefix s (String c "")) eqn:E; [|reflexivity].
    exfalso. destruct s; cbn [Contains] in A; unfold HasPrefix in A;
      rewrite E in A; discriminate.
  - apply orb_true_iff in H as [H|H].
    + now apply IH1.
    + apply (run_closed (String c "")); [|assumption].
      intros x c' Ax. now apply IH2.
  - now apply IH1.
Qed.

Lemma hasTag_cons (c : ascii) (s : string) :
  hasTag (String c s) = false ->
  (c = lt -> Contains s ">" = false) /\ hasTag s = false.
Proof.
  cbn [hasTag]. intros H. apply orb_false_iff in H as [H1 H2].
  split; [|exact H2]. intros ->. now rewrite Ascii.eqb_refl in H1.
Qed.

(** A pattern that begins with [<] and holds [>] matches nowhere in a
    text in which no [<] has a [>] after it. *)
Lemma matchAt_untagged (r : re) :
  startsWith lt r = true -> needs gt r = true ->
  forall s, hasTag s = false -> matchAt r s = None.
Proof.
  intros H N s A. unfold matchAt. destruct s as [|c t].
  - now apply (run_needs gt r N eq_refl).
  - apply hasTag_cons in A as [A _].
    destruct (Ascii.eqb c lt) eqn:E.
    + apply Ascii.eqb_eq in E. subst c.
      apply (run_needs gt r N eq_refl).
      change (Contains (String lt t) ">" = false).
      cbn [Contains]. rewrite (A eq_refl). reflexivity.
    + apply (run_startsWith lt r H eq_refl).
      intros ->. now rewrite Ascii.eqb_refl in E.
Qed.

Lemma segments_untagged (r : re) :
  startsWith lt r = true -> needs gt r = true ->
  forall s, hasTag s = false -> segments r 0 s = keeps s.
Proof.
  intros H N. induction s as [|c s IH]; intros A; [reflexivity|].
  rewrite segments_cons, (matchAt_untagged r H N _ A).
  apply hasTag_cons in A as [_ A]. cbn [keeps]. f_equal. auto.
Qed.

Lemma substitute_keeps (tpl : list piece) (s : string) :
  substitute tpl (keeps s) = s.
Proof. induction s; simpl; congruence. Qed.

Lemma substituteFunc_keeps (f : nat -> string -> option string) (i : nat)
  (s : string) : substituteFunc f i (keeps s) = Some s.
Proof. induction s as [|c s IH]; simpl; [reflexivity|now rewrite IH]. Qed.

Lemma ReplaceAllString_untagged (r : re) (tpl : list piece) (s : string) :
  startsWith lt r = true -> needs gt r = true -> hasTag s = false ->
  ReplaceAllString r s tpl = s.
Proof.
  intros H N A. unfold ReplaceAllString.
  rewrite segments_untagged by assumption. apply substitute_keeps.
Qed.

(** The keys of [replacements] are tags. *)
Lemma replacements_tags (kv : string * string) :
  In kv replacements -> exists p, fst kv = String lt (p ++ ">").
Proof.
  intros H. unfold replacements in H. cbn [In] in H.
  repeat (destruct H as [<-|H];
          [cbn [fst];
           first [ now exists "p" | now exists "/p" | now exists "br"
                 | now exists "br/" | now exists "strong" | now exists "/strong"
                 | now exists "b" | now exists "/b" | now exists "em"
                 | now exists "/em" | now exists "i" | now exists "/i"
                 | now exists "ul" | now exists "/ul" | now exists "ol"
                 | now exists "/ol" | now exists "li" | now exists "/li"
                 | now exists "blockquote" | now exists "/blockquote"
                 | now exists "hr" | now exists "hr/" ]|]).
  contradiction.
Qed.

Lemma untagged_no_tag (s p : string) :
  hasTag s = false -> Contains s (String lt (p ++ ">")) = false.
Proof.
  induction s as [|c s IH]; intros A; [reflexivity|].
  apply hasTag_cons in A as [A1 A2]. cbn [Contains].
  rewrite (IH A2). unfold HasPrefix.
  destruct (CutPrefix (String c s) (String lt (p ++ ">"))) as [rest|] eqn:E;
    [|reflexivity].
  apply CutPrefix_app in E.
  change (String lt (p ++ ">") ++ rest) with (String lt ((p ++ ">") ++ rest)) in E.
  injection E as -> ->. specialize (A1 eq_refl).
  rewrite app_assoc_s, Contains_inside in A1. discriminate.
Qed.

(** Where no [<] has a [>] after it, [stripAllTags] finds no tag. *)
Lemma stripAllTags_untagged (s : string) :
  hasTag s = false -> stripAllTags s = Some s.
Proof.
  intros A. unfold stripAllTags. cbn [stripLoop].
  destruct (IndexByte s lt) as [start|] eqn:I; [|reflexivity].
  assert (G : IndexByte (drop start s) gt = None).
  { revert start I. induction s as [|d s IH]; intros start I; [discriminate|].
    apply hasTag_cons in A as [A1 A2]. cbn [IndexByte] in I.
    destruct (Ascii.eqb d lt) eqn:E.
    - injection I as <-. apply Ascii.eqb_eq in E. subst d.
      change (drop 0 (String lt s)) with (String lt s). cbn [IndexByte].
      change (Ascii.eqb lt gt) with false. cbn iota.
      now rewrite (IndexByte_absent s gt (A1 eq_refl)).
    - destruct (IndexByte s lt) as [i|] eqn:I'; [|discriminate].
      injection I as <-. change (drop (S i) (String d s)) with (drop i s).
      now apply IH. }
  now rewrite G.
Qed.

(** Plain text comes back as it is. *)
Lemma plain_unchanged (o : MapOrders) (html : string) :
  OrdersOK o -> isPlain html = true ->
  ConvertHTMLToMarkdown o html = Some html.
Proof.
  intros [O1 [_ [O3 O4]]] P. unfold isPlain in P.
  repeat (apply andb_true_iff in P as [P ?]).
  repeat match goal with
         | H : negb _ = true |- _ => apply negb_true_iff in H
         end.
  rename P into NoTag.
  match goal with H : (TrimSpace html =? html) = true |- _ =>
    apply String.eqb_eq in H; rename H into Trim end.
  match goal with H : forallb _ entityTable = true |- _ =>
    rewrite forallb_forall in H; rename H into NoEnt end.
  assert (Ent : forall order, Permutation order entityTable ->
                  unescapeCommonEntities order html = html).
  { intros order Hp. apply replaceEach_absent. intros kv Hk.
    apply negb_true_iff. apply NoEnt.
    now apply Permutation_in with (l := order). }
  unfold ConvertHTMLToMarkdown.
  destruct (TrimSpace html =? ""); [reflexivity|].
  rewrite (ReplaceAll_absent html (CR ++ LF)) by assumption.
  rewrite (Ent _ O1).
  unfold ReplaceAllStringFunc.
  rewrite segments_untagged by (auto; reflexivity).
  rewrite substituteFunc_keeps.
  assert (Hd : forall level, headingStep html level = html).
  { intros level. unfold headingStep.
    apply ReplaceAllString_untagged; [reflexivity| |assumption].
    unfold headingRe. cbn [seqs needs]. rewrite Ascii.eqb_refl.
    now rewrite orb_true_r. }
  cbn [fold_left seq]. rewrite !Hd.
  rewrite (ReplaceAllString_untagged anchorRe _ html) by (auto; reflexivity).
  rewrite (ReplaceAllString_untagged imgAltSrcRe _ html) by (auto; reflexivity).
  rewrite (ReplaceAllString_untagged imgSrcAltRe _ html) by (auto; reflexivity).
  rewrite (ReplaceAllString_untagged imgSrcOnlyRe _ html) by (auto; reflexivity).
  rewrite (ReplaceAllString_untagged inlineCodeRe _ html) by (auto; reflexivity).
  rewrite replaceEach_absent.
  2:{ intros kv Hk.
      apply Permutation_in with (l' := replacements) in Hk; [|assumption].
      destruct (replacements_tags kv Hk) as [p Ep]. rewrite Ep.
      now apply untagged_no_tag. }
  rewrite stripAllTags_untagged by assumption.
  rewrite (ReplaceAll_absent html (LF ++ "`" ++ LF)) by assumption.
  rewrite (ReplaceAll_absent html (LF ++ "`" ++ LF ++ LF)).
  2:{ apply (Contains_app_l html (LF ++ "`" ++ LF) LF). assumption. }
  rewrite (Ent _ O4).
  cbn [collapseLoop].
  match goal with H : Contains html (LF ++ LF ++ LF) = false |- _ => rewrite H end.
  now rewrite Trim.
Qed.

Lemma blank_unchanged (o : MapOrders) (html : string) :
  TrimSpace html = "" -> ConvertHTMLToMarkdown o html = Some html.
Proof.
  intros H. unfold ConvertHTMLToMarkdown. now rewrite H.
Qed.

End ReducerFacts.

Section ReducerClaims.
Import GoStrings Regexp Utils Notions.

Lemma OrdersOK_source : OrdersOK sourceOrders.
Proof. unfold OrdersOK, sourceOrders; simpl; repeat split; intros; apply Permutation_refl. Qed.

Lemma replaceEach_any_order (t : table) (states : list string)
  (order : table) (x : string) :
  closedUnder t states = true -> commuteOn t states = true ->
  Permutation order t -> In x states ->
  replaceEach order x = replaceEach t x.
Proof.
  intros Hc Hm P Hx.
  apply (replaceEach_perm t states Hc Hm order t P); [|assumption].
  intros y Hy. now apply Permutation_in with (l := order).
Qed.

(** C8.  Whatever the orders of the map visits, the reducer turns
    [<h2>Title</h2><p>Body &amp; more</p>] into the heading [## Title], an
    empty line and [Body & more]. *)
Theorem reduce_heading_and_paragraph (o : MapOrders) :
  OrdersOK o ->
  ConvertHTMLToMarkdown o "<h2>Title</h2><p>Body &amp; more</p>"
  = Some ("## Title" ++ LF ++ LF ++ "Body & more").
Proof.
  intros [O1 [_ [O3 O4]]].
  change "<h2>Title</h2><p>Body &amp; more</p>" with scenario3.
  unfold ConvertHTMLToMarkdown.
  replace (TrimSpace scenario3 =? "") with false by (vm_compute; reflexivity).
  replace (ReplaceAll scenario3 (CR ++ LF) LF) with scenario3
    by (vm_compute; reflexivity).
  unfold unescapeCommonEntities at 1.
  rewrite (replaceEach_any_order entityTable [scenario3; scenario3Unescaped]
             (entFirst o) scenario3)
    by (try assumption; try (vm_compute; reflexivity); now left).
  replace (replaceEach entityTable scenario3) with scenario3Unescaped
    by (vm_compute; reflexivity).
  unfold ReplaceAllStringFunc.
  replace (segments preCodeRe 0 scenario3Unescaped) with (keeps scenario3Unescaped)
    by (vm_compute; reflexivity).
  rewrite substituteFunc_keeps.
  match goal with
  | |- context [replaceEach (blockOrder o) ?x] =>
      replace x with scenario3Headed by (vm_compute; reflexivity)
  end.
  rewrite (replaceEach_any_order replacements scenario3Blocks
             (blockOrder o) scenario3Headed)
    by (try assumption; try (vm_compute; reflexivity); now left).
  match goal with
  | |- context [stripAllTags ?x] =>
      replace (stripAllTags x) with (Some (nth 3 scenario3Blocks ""))
        by (vm_compute; reflexivity)
  end.
  match goal with
  | |- context [unescapeCommonEntities (entLast o) ?x] =>
      replace x with (nth 3 scenario3Blocks "") by (vm_compute; reflexivity)
  end.
  unfold unescapeCommonEntities.
  rewrite (replaceEach_any_order entityTable [nth 3 scenario3Blocks ""]
             (entLast o) (nth 3 scenario3Blocks ""))
    by (try assumption; try (vm_compute; reflexivity); now left).
  vm_compute. reflexivity.
Qed.

Lemma reduce_heading_and_paragraph_witness :
  OrdersOK sourceOrders
  /\ ConvertHTMLToMarkdown sourceOrders "<h2>Title</h2><p>Body &amp; more</p>"
     = Some ("## Title" ++ LF ++ LF ++ "Body & more").
Proof.
  split.
  - exact OrdersOK_source.
  - apply (reduce_heading_and_paragraph sourceOrders). exact OrdersOK_source.
Defined.

(** C7, as the code has it.  The reducer returns on every text, for
    every order of the map visits.  It returns the text itself when the
    text is blank, and when the text has no [<] with a [>] somewhere
    after it, none of the eight entities, no CR LF, no line of a single
    backquote, no three line feeds in a row and no white space at its
    ends. *)
Theorem reduce_total_plain_unchanged (o : MapOrders) (html : string) :
  (exists out, ConvertHTMLToMarkdown o html = Some out)
  /\ (OrdersOK o -> TrimSpace html = "" \/ isPlain html = true ->
      ConvertHTMLToMarkdown o html = Some html).
Proof.
  split.
  - apply ConvertHTMLToMarkdown_returns.
  - intros O [B|P].
    + now apply blank_unchanged.
    + now apply plain_unchanged.
Qed.

Lemma reduce_total_plain_unchanged_witness :
  OrdersOK sourceOrders
  /\ (TrimSpace "4 > 3 and 1 < 2" = "" \/ isPlain "4 > 3 and 1 < 2" = true)
  /\ LooksLikeHTML "4 > 3 and 1 < 2" = true
  /\ ConvertHTMLToMarkdown sourceOrders "4 > 3 and 1 < 2" = Some "4 > 3 and 1 < 2".
Proof.
  split; [exact OrdersOK_source|]. split; [right; vm_compute; reflexivity|].
  split; [vm_compute; reflexivity|].
  apply (proj2 (reduce_total_plain_unchanged sourceOrders "4 > 3 and 1 < 2")).
  - exact OrdersOK_source.
  - right. vm_compute. reflexivity.
Defined.

(** C7 as the spec has it fails: a line of plain text that ends in a line
    feed has no markup, and comes back without the line feed. *)
Lemma reduce_plain_text_changed :
  LooksLikeHTML ("plain text" ++ LF) = false
  /\ ConvertHTMLToMarkdown sourceOrders ("plain text" ++ LF) = Some "plain text"
  /\ "plain text" <> "plain text" ++ LF.
Proof.
  split; [vm_compute; reflexivity|]. split; [vm_compute; reflexivity|].
  vm_compute. discriminate.
Qed.

(** The reducer at work, with the maps visited in the order they are
    written in. *)
Example link_reduced :
  ConvertHTMLToMarkdown sourceOrders
    ("see <a class=x href=" ++ DQ ++ "https://go.dev" ++ DQ ++ ">the <b>Go</b> site</a>")
  = Some "see [the **Go** site](https://go.dev)".
Proof. vm_compute. reflexivity. Qed.

Example images_reduced :
  ConvertHTMLToMarkdown sourceOrders
    ("<img alt=" ++ DQ ++ "logo" ++ DQ ++ " src=" ++ DQ ++ "a.png" ++ DQ ++ "/> "
     ++ "<IMG SRC=" ++ DQ ++ "b.png" ++ DQ ++ " ALT=" ++ DQ ++ "b" ++ DQ ++ "> "
     ++ "<img src=" ++ DQ ++ "c.png" ++ DQ ++ ">")
  = Some "![logo](a.png) ![b](b.png) ![](c.png)".
Proof. vm_compute. reflexivity. Qed.

Example fenced_code_reduced :
  ConvertHTMLToMarkdown sourceOrders
    ("<pre> <code class=" ++ DQ ++ "language-go" ++ DQ ++ ">x := &quot;y&quot;</code></pre>"
     ++ "<p>and <code>z</code></p>")
  = Some ("```go" ++ LF ++ "x := " ++ DQ ++ "y" ++ DQ ++ LF ++ "```" ++ LF ++ LF
          ++ "and `z`").
Proof. vm_compute. reflexivity. Qed.

Example remaining_tags_stripped :
  ConvertHTMLToMarkdown sourceOrders "<div id=x>a<span>b</span> < c</div> d"
  = Some "ab  d".
Proof. vm_compute. reflexivity. Qed.

(** The order of the visits can show in the result: an escaped entity is
    unescaped twice when [&amp;] is visited before [&lt;], once when it is
    visited after it. *)
Example visit_order_shows :
  OrdersOK reversedOrders
  /\ ConvertHTMLToMarkdown sourceOrders "&amp;lt;b&amp;gt;" = Some "**"
  /\ ConvertHTMLToMarkdown reversedOrders "&amp;lt;b&amp;gt;" = Some "<b>".
Proof.
  split.
  - unfold OrdersOK, reversedOrders; simpl; repeat split; intros;
      apply Permutation_sym, Permutation_rev.
  - split; vm_compute; reflexivity.
Qed.

Example white_space_trimmed :
  TrimSpace (ch 194 ++ ch 160 ++ " a b" ++ LF ++ ch 226 ++ ch 128 ++ ch 168) = "a b".
Proof. vm_compute. reflexivity. Qed.

Example numbers_read :
  Atoi "177680" = Some 177680%Z /\ Atoi "-12" = Some (-12)%Z
  /\ Atoi "N/A" = None /\ Atoi "" = None /\ Atoi "1_000" = None
  /\ Atoi "9223372036854775808" = None /\ Itoa 120 = "120".
Proof. repeat split; vm_compute; reflexivity. Qed.

End ReducerClaims.

Open Scope list_scope.

(** ** The document tree *)

Section DomFacts.
Import GoStrings Utils Models Dom Parser DomNotions.

Lemma Node_induction (P : Node -> Prop) :
  (forall d, P (TextNode d)) ->
  (forall d, P (CommentNode d)) ->
  (forall t a cs, Forall P cs -> P (ElementNode t a cs)) ->
  forall n, P n.
Proof.
  intros HT HC HE. fix IH 1. intros [d|d|t a cs].
  - apply HT.
  - apply HC.
  - apply HE. induction cs as [|c cs IHcs]; constructor; [apply IH|exact IHcs].
Qed.

Lemma sameUp_cons (f g : Frame) (p q : list Frame) :
  ptag f = ptag g -> pattr f = pattr g -> sameUp p q -> sameUp (f :: p) (g :: q).
Proof. unfold sameUp. simpl. congruence. Qed.

Lemma matchUp_sameUp (cs : list compound) :
  forall p q, sameUp p q -> matchUp cs p = matchUp cs q.
Proof.
  induction cs as [|c rest IH]; intros p q S; [reflexivity|].
  simpl. revert q S. induction p as [|f p IHp]; intros [|g q] S;
    try discriminate; [reflexivity|].
  unfold sameUp in S. simpl in S. injection S as Et Ea S.
  rewrite Et, Ea, (IH p q S), (IHp q S). reflexivity.
Qed.

Lemma matches_alike (sel : selector) (l l' : Loc) :
  alike l l' -> matches sel l = matches sel l'.
Proof.
  intros [E S]. unfold matches.
  induction sel as [|ch sel IH]; simpl; [reflexivity|].
  rewrite IH. f_equal. unfold matchChain. rewrite E.
  destruct (here l') as [| |t a cs]; try reflexivity.
  destruct (List.rev ch) as [|c rest]; [reflexivity|].
  now rewrite (matchUp_sameUp rest _ _ S).
Qed.

Lemma Forall2_alike_app (a b a' b' : list Loc) :
  Forall2 alike a a' -> Forall2 alike b b' -> Forall2 alike (a ++ b) (a' ++ b').
Proof. apply Forall2_app. Qed.

(** The descendants of a node are the same under two chains of ancestors
    alike. *)
Lemma descendants_alike (n : Node) :
  forall p q, sameUp p q -> Forall2 alike (descendants n p) (descendants n q).
Proof.
  induction n as [d|d|t a cs IH] using Node_induction; intros p q S;
    try (simpl; constructor).
  simpl.
  match goal with
  | |- Forall2 alike (?w [] cs) (?w' [] cs) =>
      enough (G : forall before, Forall2 alike (w before cs) (w' before cs))
        by apply G
  end.
  induction cs as [|c cs IHcs]; intros before; [constructor|].
  inversion IH as [|? ? Hc Hcs]; subst.
  assert (S' : sameUp ({| left := before; ptag := t; pattr := a; right := cs |} :: p)
                      ({| left := before; ptag := t; pattr := a; right := cs |} :: q))
    by (apply sameUp_cons; auto).
  apply Forall2_app; [|apply Forall2_app].
  - destruct (isElement c); constructor; [|constructor]. split; auto.
  - apply Hc. exact S'.
  - apply (IHcs Hcs).
Qed.

Lemma filter_alike (f g : Loc -> bool) (l l' : list Loc) :
  (forall x y, alike x y -> f x = g y) ->
  Forall2 alike l l' -> Forall2 alike (filter f l) (filter g l').
Proof.
  intros H F. induction F as [|x y l l' A F IH]; simpl; [constructor|].
  rewrite (H x y A). destruct (g y); [constructor|]; assumption.
Qed.

Lemma Find_alike (sel : selector) (s s' : Selection) :
  Forall2 alike s s' -> Forall2 alike (Find s sel) (Find s' sel).
Proof.
  intros F. unfold Find. induction F as [|x y l l' A F IH]; simpl; [constructor|].
  apply Forall2_app; [|exact IH].
  apply filter_alike; [apply matches_alike|].
  destruct A as [E S]. rewrite E. now apply descendants_alike.
Qed.

Lemma First_alike (s s' : Selection) :
  Forall2 alike s s' -> Forall2 alike (First s) (First s').
Proof.
  intros F. unfold First. destruct F as [|x y l l' A F]; simpl.
  - constructor.
  - constructor; [exact A|constructor].
Qed.

Lemma Text_alike (s s' : Selection) : Forall2 alike s s' -> Text s = Text s'.
Proof.
  intros F. unfold Text. induction F as [|x y l l' [E _] F IH]; simpl; congruence.
Qed.

Lemma Length_alike (s s' : Selection) : Forall2 alike s s' -> Length s = Length s'.
Proof. apply Forall2_length. Qed.

Lemma AttrOr_alike (s s' : Selection) (k d : string) :
  Forall2 alike s s' -> AttrOr s k d = AttrOr s' k d.
Proof.
  intros F. destruct F as [|x y l l' [E _] F]; simpl; [reflexivity|now rewrite E].
Qed.

Lemma alike_single (l l' : Loc) : alike l l' -> Forall2 alike [l] [l'].
Proof. intros A. constructor; [exact A|constructor]. Qed.

Lemma filterMap_alike {B : Type} (f : Loc -> option B) (l l' : list Loc) :
  (forall x y, alike x y -> f x = f y) ->
  Forall2 alike l l' -> filterMap f l = filterMap f l'.
Proof.
  intros H F. unfold filterMap.
  induction F as [|x y l l' A F IH]; simpl; [reflexivity|].
  now rewrite (H x y A), IH.
Qed.

Ltac alike_step :=
  repeat first
    [ apply Find_alike
    | apply First_alike
    | apply alike_single; assumption ].

Lemma addedInOf_alike (l l' : Loc) :
  alike l l' -> addedInOf [l] = addedInOf [l'].
Proof.
  intros A. unfold addedInOf.
  rewrite (Text_alike (First (Find [l] selSinceVersionVersion))
             (First (Find [l'] selSinceVersionVersion))) by alike_step.
  rewrite (Text_alike (First (Find [l] selSinceVersion))
             (First (Find [l'] selSinceVersion))) by alike_step.
  reflexivity.
Qed.

Lemma deprecatedOf_alike (l l' : Loc) :
  alike l l' -> deprecatedOf [l] = deprecatedOf [l'].
Proof.
  intros A. unfold deprecatedOf.
  now rewrite (Length_alike (Find [l] selDeprecatedTag) (Find [l'] selDeprecatedTag))
    by alike_step.
Qed.

Lemma functionOf_alike (l l' : Loc) : alike l l' -> functionOf l = functionOf l'.
Proof.
  intros A. unfold functionOf.
  rewrite (AttrOr_alike (First (Find [l] selH4)) (First (Find [l'] selH4)))
    by alike_step.
  rewrite (Text_alike (First (Find [l] selDeclPre)) (First (Find [l'] selDeclPre)))
    by alike_step.
  rewrite (Text_alike (First (Find [l] selP)) (First (Find [l'] selP)))
    by alike_step.
  now rewrite (addedInOf_alike l l' A), (deprecatedOf_alike l l' A).
Qed.

Lemma methodOf_alike (l l' : Loc) : alike l l' -> methodOf l = methodOf l'.
Proof.
  intros A. unfold methodOf.
  rewrite (AttrOr_alike (First (Find [l] selH4)) (First (Find [l'] selH4)))
    by alike_step.
  rewrite (Text_alike (First (Find [l] selH4)) (First (Find [l'] selH4)))
    by alike_step.
  rewrite (Text_alike (First (Find [l] selDeclPre)) (First (Find [l'] selDeclPre)))
    by alike_step.
  rewrite (Text_alike (First (Find [l] selP)) (First (Find [l'] selP)))
    by alike_step.
  now rewrite (addedInOf_alike l l' A), (deprecatedOf_alike l l' A).
Qed.

Lemma typeOf_alike (l l' : Loc) : alike l l' -> typeOf l = typeOf l'.
Proof.
  intros A. unfold typeOf.
  rewrite (AttrOr_alike (First (Find [l] selH4)) (First (Find [l'] selH4)))
    by alike_step.
  rewrite (Text_alike (First (Find [l] selDeclPre)) (First (Find [l'] selDeclPre)))
    by alike_step.
  rewrite (Text_alike (First (Find [l] selP)) (First (Find [l'] selP)))
    by alike_step.
  rewrite (filterMap_alike methodOf (Find [l] selTypeMethod) (Find [l'] selTypeMethod))
    by (try apply methodOf_alike; alike_step).
  now rewrite (addedInOf_alike l l' A), (deprecatedOf_alike l l' A).
Qed.

Lemma constantOf_alike (i : nat) (l l' : Loc) :
  alike l l' ->
  option_map nameValue (constantOf i l) = option_map nameValue (constantOf i l').
Proof.
  intros A. unfold constantOf.
  rewrite (Text_alike (First (Find [l] selPre)) (First (Find [l'] selPre)))
    by alike_step.
  rewrite (AttrOr_alike (First (Find (First (Find [l] selPre)) (selSpanKind "constant")))
             (First (Find (First (Find [l'] selPre)) (selSpanKind "constant"))))
    by alike_step.
  destruct (TrimSpace (Text (First (Find [l'] selPre))) =? ""); reflexivity.
Qed.

Lemma variableOf_alike (i : nat) (l l' : Loc) :
  alike l l' ->
  option_map nameType (variableOf i l) = option_map nameType (variableOf i l').
Proof.
  intros A. unfold variableOf.
  rewrite (Text_alike (First (Find [l] selPre)) (First (Find [l'] selPre)))
    by alike_step.
  rewrite (AttrOr_alike (First (Find (First (Find [l] selPre)) (selSpanKind "variable")))
             (First (Find (First (Find [l'] selPre)) (selSpanKind "variable"))))
    by alike_step.
  destruct (TrimSpace (Text (First (Find [l'] selPre))) =? ""); reflexivity.
Qed.

End DomFacts.

(** ** The extractor *)

Section ParserFacts.
Import GoStrings Utils Models Dom Parser DomNotions.

Lemma rev_app (a b : string) : rev (a ++ b)%string = (rev b ++ rev a)%string.
Proof.
  induction a as [|c a IH]; simpl.
  - now rewrite app_empty_r.
  - now rewrite IH, app_assoc_s.
Qed.

Lemma rev_rev (s : string) : rev (rev s) = s.
Proof.
  induction s as [|c s IH]; simpl; [reflexivity|].
  rewrite rev_app. simpl. now rewrite IH.
Qed.

Lemma TrimSpace_kept (s : string) :
  spaceWidth s = 0 -> spaceWidthRev (rev s) = 0 -> TrimSpace s = s.
Proof.
  intros L R. unfold TrimSpace, TrimLeftSpace, TrimRightSpace.
  assert (E : trimWith spaceWidth (String.length s) s = s).
  { destruct (String.length s); simpl; [reflexivity|now rewrite L]. }
  rewrite E.
  assert (E' : trimWith spaceWidthRev (String.length s) (rev s) = rev s).
  { destruct (String.length s); simpl; [reflexivity|now rewrite R]. }
  rewrite E'. apply rev_rev.
Qed.

Lemma Itoa_last_digit (n : nat) :
  exists x d, d < 10 /\ Itoa n = (x ++ digit d)%string.
Proof.
  unfold Itoa. simpl. destruct (n <? 10)%nat eqn:E.
  - apply Nat.ltb_lt in E. exists "", n. auto.
  - exists (itoaDigits n (n / 10)), (n mod 10). split; [|reflexivity].
    apply Nat.mod_upper_bound. lia.
Qed.

Lemma digit_code_not_space (m : nat) :
  48 <= m <= 57 ->
  asciiSpace m = false
  /\ (forall x, space2 x m = false)
  /\ (forall x y, space3 x y m = false).
Proof.
  intros B. unfold asciiSpace, space2, space3.
  assert (T1 : (m <=? 13)%nat = false) by (apply Nat.leb_gt; lia).
  assert (T2 : (m =? 32)%nat = false) by (apply Nat.eqb_neq; lia).
  assert (T3 : (m =? 133)%nat = false) by (apply Nat.eqb_neq; lia).
  assert (T4 : (m =? 160)%nat = false) by (apply Nat.eqb_neq; lia).
  assert (T5 : (m =? 128)%nat = false) by (apply Nat.eqb_neq; lia).
  assert (T6 : (128 <=? m)%nat = false) by (apply Nat.leb_gt; lia).
  assert (T7 : (m =? 168)%nat = false) by (apply Nat.eqb_neq; lia).
  assert (T8 : (m =? 169)%nat = false) by (apply Nat.eqb_neq; lia).
  assert (T9 : (m =? 175)%nat = false) by (apply Nat.eqb_neq; lia).
  assert (T10 : (m =? 159)%nat = false) by (apply Nat.eqb_neq; lia).
  rewrite T1, T2, T3, T4, T5, T6, T7, T8, T9, T10.
  repeat split; intros; rewrite ?andb_false_r, ?orb_false_r; reflexivity.
Qed.

Lemma spaceWidthRev_digit (d : nat) (r : string) :
  d < 10 -> spaceWidthRev (String (ascii_of_nat (48 + d)) r) = 0.
Proof.
  intros L. unfold spaceWidthRev.
  rewrite (nat_ascii_embedding (48 + d)) by lia.
  destruct (digit_code_not_space (48 + d) ltac:(lia)) as [F1 [F2 F3]].
  rewrite F1. destruct r as [|b r]; [reflexivity|]. rewrite F2.
  destruct r as [|a r]; [reflexivity|]. now rewrite F3.
Qed.

(** The names made for blocks without a span come through [TrimSpace]
    as they are. *)
Lemma TrimSpace_numbered (pfx : string) (n : nat) :
  (forall x, spaceWidth (pfx ++ x)%string = 0) ->
  TrimSpace (pfx ++ Itoa n)%string = (pfx ++ Itoa n)%string.
Proof.
  intros K. destruct (Itoa_last_digit n) as [x [d [L E]]]. rewrite E.
  apply TrimSpace_kept; [apply K|].
  unfold digit. rewrite !rev_app. cbn [rev append].
  now apply spaceWidthRev_digit.
Qed.

Lemma In_indexed_from {A : Type} (l : list A) :
  forall k i x, nth_error l i = Some x ->
    In (k + i, x) (combine (seq k (List.length l)) l).
Proof.
  induction l as [|y l IH]; intros k [|i] x H; simpl in *; try discriminate.
  - inversion H; subst. left. f_equal. lia.
  - right. replace (k + S i) with (S k + i) by lia. now apply IH.
Qed.

Lemma In_indexed {A : Type} (l : list A) (i : nat) (x : A) :
  nth_error l i = Some x -> In (i, x) (indexed l).
Proof. intros H. apply (In_indexed_from l 0 i x H). Qed.

Lemma In_filterMap {A B : Type} (f : A -> option B) (l : list A) (x : A) (y : B) :
  In x l -> f x = Some y -> In y (filterMap f l).
Proof.
  intros Hx Hf. unfold filterMap. apply in_flat_map. exists x.
  split; [assumption|]. rewrite Hf. now left.
Qed.

Lemma filterMap_In {A B : Type} (f : A -> option B) (l : list A) (y : B) :
  In y (filterMap f l) -> exists x, In x l /\ f x = Some y.
Proof.
  unfold filterMap. intros H. apply in_flat_map in H as [x [Hx Hy]].
  exists x. split; [assumption|].
  destruct (f x); simpl in Hy; [|contradiction].
  destruct Hy as [->|[]]. reflexivity.
Qed.

(** The extractor returns a record, and no error, for every element. *)
Lemma ParsePackagePage_fields (o : MapOrders) (render : list Node -> option string)
  (e : Loc) :
  exists readme processed,
    ParsePackagePage o render e
    = Some (Ok (Package.mk (nameOf [e]) (descriptionOf [e]) "" (versionOf [e])
                  (isLatestOf [e]) (publishedOf [e]) "" (fst (licenseOf [e]))
                  (snd (licenseOf [e])) (repositoryOf [e]) (importPathOf [e])
                  zeroTime readme processed (importsOf [e]) (importedByOf [e])
                  (functionsOf [e]) (typesOf [e]) (variablesOf [e])
                  (constantsOf [e]) [])).
Proof.
  unfold ParsePackagePage.
  assert (R : exists rp, readmeOf o render [e] = Some rp).
  { unfold readmeOf. destruct (0 <? Length (Find [e] selReadme))%nat; [|eauto].
    destruct (Html render (Find [e] selReadme)) as [html|]; [|eauto].
    destruct (ConvertHTMLToMarkdown_returns o html) as [md E]. rewrite E. eauto. }
  destruct R as [[readme processed] E]. rewrite E. eauto.
Qed.

Lemma labelValue_none : labelValue [] = "".
Proof. reflexivity. Qed.

Lemma countAfter_label (pfx rest : string) :
  countAfter (pfx ++ rest)%string pfx
  = Atoi (ReplaceAll (TrimSpace rest) "," "").
Proof.
  unfold countAfter, TrimPrefix. now rewrite CutPrefix_self.
Qed.

Lemma HasPrefix_self (pfx rest : string) : HasPrefix (pfx ++ rest)%string pfx = true.
Proof. unfold HasPrefix. now rewrite CutPrefix_self. Qed.

(** C6.  The two counts are read from a text made of a label, a colon
    and a blank, and a number: the rest of the text is trimmed, its commas
    are removed, and it is read as a decimal number; when it is not one,
    the count is zero.  So [Imported By: 177,680] gives 177680 and
    [Imported By: N/A] gives 0. *)
Theorem counts_read_from_labelled_text (o : MapOrders)
  (render : list Node -> option string) (e : Loc) :
  exists pkg,
  ParsePackagePage o render e = Some (Ok pkg) /\
  (forall rest,
      labelValue (Find [e] selImports) = ("Imports: " ++ rest)%string ->
      Package.Imports pkg
      = match Atoi (ReplaceAll (TrimSpace rest) "," "") with
        | Some n => n
        | None => 0%Z
        end)
  /\ (forall pfx rest,
        In pfx ["Imported By: "; "Imported by: "] ->
        labelValue (Find [e] selImportedBy) = (pfx ++ rest)%string ->
        Package.ImportedBy pkg
        = match Atoi (ReplaceAll (TrimSpace rest) "," "") with
          | Some n => n
          | None => 0%Z
          end)
  /\ (labelValue (Find [e] selImportedBy) = "Imported By: 177,680" ->
      Package.ImportedBy pkg = 177680%Z)
  /\ (labelValue (Find [e] selImportedBy) = "Imported By: N/A" ->
      Package.ImportedBy pkg = 0%Z).
Proof.
  destruct (ParsePackagePage_fields o render e) as [readme [processed E]].
  eexists. split; [exact E|].
  cbn [Package.Imports Package.ImportedBy].
  assert (By : forall pfx rest,
             In pfx ["Imported By: "; "Imported by: "] ->
             labelValue (Find [e] selImportedBy) = (pfx ++ rest)%string ->
             importedByOf [e]
             = match Atoi (ReplaceAll (TrimSpace rest) "," "") with
               | Some n => n
               | None => 0%Z
               end).
  { intros pfx rest Hp Hv. unfold importedByOf.
    destruct (Find [e] selImportedBy) as [|l ls] eqn:F.
    - rewrite labelValue_none in Hv.
      destruct Hp as [<-|[<-|[]]]; discriminate.
    - change (0 <? Length (l :: ls))%nat with true. cbv iota. rewrite Hv.
      destruct Hp as [<-|[<-|[]]].
      + cbn [importedByFrom]. rewrite HasPrefix_self, countAfter_label. reflexivity.
      + cbn [importedByFrom].
        replace (HasPrefix ("Imported by: " ++ rest)%string "Imported By: ")
          with false by reflexivity.
        rewrite HasPrefix_self, countAfter_label. reflexivity. }
  split; [|split; [exact By|split]].
  - intros rest Hv. unfold importsOf.
    destruct (Find [e] selImports) as [|l ls] eqn:F.
    + rewrite labelValue_none in Hv. discriminate.
    + change (0 <? Length (l :: ls))%nat with true. cbv iota. rewrite Hv.
      rewrite HasPrefix_self, countAfter_label. reflexivity.
  - intros Hv. rewrite (By "Imported By: " "177,680"); [reflexivity|now left|exact Hv].
  - intros Hv. rewrite (By "Imported By: " "N/A"); [reflexivity|now left|exact Hv].
Qed.

Lemma counts_read_from_labelled_text_witness :
  (labelValue (Find [atRoot (importedByPage "Imported By: 177,680")] selImportedBy)
   = "Imported By: 177,680"
   /\ exists pkg,
        ParsePackagePage sourceOrders renderNothing
          (atRoot (importedByPage "Imported By: 177,680")) = Some (Ok pkg)
        /\ Package.ImportedBy pkg = 177680%Z)
  /\ (labelValue (Find [atRoot (importedByPage "Imported By: N/A")] selImportedBy)
      = "Imported By: N/A"
      /\ labelValue (Find [atRoot (importedByPage "Imported By: N/A")] selImports)
         = "Imports: 17"
      /\ exists pkg,
           ParsePackagePage sourceOrders renderNothing
             (atRoot (importedByPage "Imported By: N/A")) = Some (Ok pkg)
           /\ Package.ImportedBy pkg = 0%Z
           /\ Package.Imports pkg = 17%Z).
Proof.
  split.
  - split; [vm_compute; reflexivity|].
    destruct (counts_read_from_labelled_text sourceOrders renderNothing
                (atRoot (importedByPage "Imported By: 177,680")))
      as [pkg [E [_ [_ [H _]]]]].
    exists pkg. split; [exact E|]. apply H. vm_compute. reflexivity.
  - split; [vm_compute; reflexivity|]. split; [vm_compute; reflexivity|].
    destruct (counts_read_from_labelled_text sourceOrders renderNothing
                (atRoot (importedByPage "Imported By: N/A")))
      as [pkg [E [HI [_ [_ HN]]]]].
    exists pkg. split; [exact E|]. split.
    + apply HN. vm_compute. reflexivity.
    + rewrite (HI "17"); [vm_compute; reflexivity|vm_compute; reflexivity].
Defined.

End ParserFacts.

Section ParserClaims.
Import GoStrings Utils Models Dom Parser DomNotions.

Lemma description_from_next (a nx : Loc) (more : list Loc) :
  nextAll a = nx :: more -> matches selP nx = true ->
  TrimSpace (Text (First (NextAllFiltered [a] selP))) = TrimSpace (nodeText (here nx)).
Proof.
  intros N M. unfold NextAllFiltered. cbn [flat_map]. rewrite N. cbn [filter].
  rewrite M. cbn [app First firstn Text fold_right].
  now rewrite app_empty_r.
Qed.

(** C2, as the code has it.  What is extracted for a function block and
    for a type block, methods included, and the name and the declaration
    extracted for a block of constants or of variables, depend on the
    subtree of the block and on the tags and attributes of its ancestors
    only: they are the same whatever stands beside the block, or beside
    its ancestors.  The description of a block of constants or of
    variables is read outside the block: when the element that follows
    the block is a [p] element, the description is the trimmed text of that
    element. *)
Theorem block_fields_confined (n : Node) (p q : list Frame) :
  sameUp p q ->
  functionOf {| here := n; path := p |} = functionOf {| here := n; path := q |}
  /\ typeOf {| here := n; path := p |} = typeOf {| here := n; path := q |}
  /\ (forall i,
        option_map nameValue (constantOf i {| here := n; path := p |})
        = option_map nameValue (constantOf i {| here := n; path := q |}))
  /\ (forall i,
        option_map nameType (variableOf i {| here := n; path := p |})
        = option_map nameType (variableOf i {| here := n; path := q |}))
  /\ (forall i c nx more,
        nextAll {| here := n; path := p |} = nx :: more ->
        matches selP nx = true ->
        constantOf i {| here := n; path := p |} = Some c ->
        Constant.Description c = TrimSpace (nodeText (here nx)))
  /\ (forall i v nx more,
        nextAll {| here := n; path := p |} = nx :: more ->
        matches selP nx = true ->
        variableOf i {| here := n; path := p |} = Some v ->
        Variable_.Description v = TrimSpace (nodeText (here nx))).
Proof.
  intros S.
  assert (A : alike {| here := n; path := p |} {| here := n; path := q |})
    by (split; [reflexivity|exact S]).
  split; [now apply functionOf_alike|].
  split; [now apply typeOf_alike|].
  split; [intros i; now apply constantOf_alike|].
  split; [intros i; now apply variableOf_alike|].
  split.
  - intros i c nx more N M. unfold constantOf.
    destruct (TrimSpace (Text (First (Find [{| here := n; path := p |}] selPre))) =? "");
      [discriminate|].
    intros H. injection H as <-. cbn [Constant.Description].
    now apply description_from_next with (more := more).
  - intros i v nx more N M. unfold variableOf.
    destruct (TrimSpace (Text (First (Find [{| here := n; path := p |}] selPre))) =? "");
      [discriminate|].
    intros H. injection H as <-. cbn [Variable_.Description].
    now apply description_from_next with (more := more).
Qed.

Lemma block_fields_confined_witness :
  sameUp (around [] []) (around [TextNode "before"] [constantB "only in B"])
  /\ functionOf {| here := functionBlock; path := around [] [] |}
     = functionOf {| here := functionBlock;
                     path := around [TextNode "before"] [constantB "only in B"] |}
  /\ map here (nextAll (constantALoc "only in B")) = [constantB "only in B"]
  /\ constantOf 0 (constantALoc "only in B")
     = Some (Constant.mk "const-block-1" "" "const A = 1" "only in B")
  /\ Constant.Description (Constant.mk "const-block-1" "" "const A = 1" "only in B")
     = TrimSpace (nodeText (constantB "only in B")).
Proof.
  split; [reflexivity|]. split.
  - apply (block_fields_confined functionBlock (around [] [])
             (around [TextNode "before"] [constantB "only in B"])).
    reflexivity.
  - split; [vm_compute; reflexivity|]. split; [vm_compute; reflexivity|].
    pose proof (block_fields_confined constantA (path (constantALoc "only in B"))
                  (path (constantALoc "only in B")) eq_refl)
      as [_ [_ [_ [_ [HC _]]]]].
    apply (HC 0 _ (hd (constantALoc "only in B") (nextAll (constantALoc "only in B")))
             []).
    + vm_compute. reflexivity.
    + vm_compute. reflexivity.
    + vm_compute. reflexivity.
Defined.

(** C2 as the spec has it fails: of two sibling declaration blocks of
    constants, the first takes as its description the text of the second,
    which stands nowhere else on the page. *)
Lemma sibling_text_in_description :
  map here (Find [atRoot (constantsPage "only in B")] selConstants)
  = [constantA; constantB "only in B"]
  /\ Find [atRoot (constantsPage "only in B")] selConstants
     = [constantALoc "only in B";
        {| here := constantB "only in B";
           path := {| left := [constantA]; ptag := "div";
                      pattr := class "Documentation-constants"; right := [] |}
                   :: tl (path (constantALoc "only in B")) |}]
  /\ nodeText constantA = "const A = 1"
  /\ nodeText (constantB "only in B") = "only in B"
  /\ Package.Constants (parsed (constantsPage "only in B"))
     = [Constant.mk "const-block-1" "" "const A = 1" "only in B"]
  /\ Package.Constants (parsed (constantsPage "other words"))
     = [Constant.mk "const-block-1" "" "const A = 1" "other words"].
Proof. repeat split; vm_compute; reflexivity. Qed.

Lemma spaceWidth_const (x : string) : spaceWidth ("const-block-" ++ x)%string = 0.
Proof. reflexivity. Qed.

Lemma spaceWidth_var (x : string) : spaceWidth ("var-block-" ++ x)%string = 0.
Proof. reflexivity. Qed.

(** C3, as the code has it.  A block of constants or of variables with a
    declaration and without a span that carries an id is appended under
    the name [const-block-N] or [var-block-N], N being the place of the
    block among the blocks of its kind, from 1.  A function block with a
    signature is appended, also when its heading has no id.  A type block
    without an id on its heading is not appended: every type of the record
    has an id and a definition. *)
Theorem blocks_without_id (o : MapOrders) (render : list Node -> option string)
  (e : Loc) :
  exists pkg,
  ParsePackagePage o render e = Some (Ok pkg) /\
  (forall i s,
      nth_error (Find [e] selConstants) i = Some s ->
      TrimSpace (Text (First (Find [s] selPre))) <> "" ->
      Find (First (Find [s] selPre)) (selSpanKind "constant") = [] ->
      exists c, In c (Package.Constants pkg)
                /\ Constant.Name c = ("const-block-" ++ Itoa (i + 1))%string
                /\ Constant.Value c = TrimSpace (Text (First (Find [s] selPre))))
  /\ (forall i s,
        nth_error (Find [e] selVariables) i = Some s ->
        TrimSpace (Text (First (Find [s] selPre))) <> "" ->
        Find (First (Find [s] selPre)) (selSpanKind "variable") = [] ->
        exists v, In v (Package.Variables pkg)
                  /\ Variable_.Name v = ("var-block-" ++ Itoa (i + 1))%string
                  /\ Variable_.Type_ v = TrimSpace (Text (First (Find [s] selPre))))
  /\ (forall s,
        In s (Find [e] selFunctions) ->
        TrimSpace (Text (First (Find [s] selDeclPre))) <> "" ->
        AttrOr (First (Find [s] selH4)) "id" "" = "" ->
        exists f, In f (Package.Functions pkg)
                  /\ Function.Signature f
                     = TrimSpace (Text (First (Find [s] selDeclPre))))
  /\ (forall s, AttrOr (First (Find [s] selH4)) "id" "" = "" -> typeOf s = None)
  /\ (forall t, In t (Package.Types pkg) ->
        Type_.Name t <> "" /\ Type_.Definition_ t <> "").
Proof.
  destruct (ParsePackagePage_fields o render e) as [readme [processed E]].
  eexists. split; [exact E|].
  cbn [Package.Constants Package.Variables Package.Functions Package.Types].
  split; [|split; [|split; [|split]]].
  - intros i s Hn Hc Hs.
    eexists. split.
    + unfold constantsOf.
      apply (In_filterMap (fun ib => constantOf (fst ib) (snd ib)) _ (i, s));
        [now apply In_indexed|].
      cbn [fst snd]. unfold constantOf.
      apply String.eqb_neq in Hc. rewrite Hc. reflexivity.
    + cbn [Constant.Name Constant.Value]. split; [|reflexivity].
      rewrite Hs. cbn [First firstn AttrOr].
      apply (TrimSpace_numbered "const-block-" (i + 1) spaceWidth_const).
  - intros i s Hn Hc Hs.
    eexists. split.
    + unfold variablesOf.
      apply (In_filterMap (fun ib => variableOf (fst ib) (snd ib)) _ (i, s));
        [now apply In_indexed|].
      cbn [fst snd]. unfold variableOf.
      apply String.eqb_neq in Hc. rewrite Hc. reflexivity.
    + cbn [Variable_.Name Variable_.Type_]. split; [|reflexivity].
      rewrite Hs. cbn [First firstn AttrOr].
      apply (TrimSpace_numbered "var-block-" (i + 1) spaceWidth_var).
  - intros s Hn Hc Hid.
    eexists. split.
    + unfold functionsOf. apply (In_filterMap functionOf _ s); [assumption|].
      unfold functionOf. apply String.eqb_neq in Hc. rewrite Hc. reflexivity.
    + reflexivity.
  - intros s Hid. unfold typeOf. rewrite Hid. reflexivity.
  - intros t Ht. unfold typesOf in Ht.
    apply filterMap_In in Ht as [s [_ Hs]]. unfold typeOf in Hs.
    destruct (AttrOr (First (Find [s] selH4)) "id" "" =? "") eqn:Eid;
      [discriminate|].
    destruct (TrimSpace (Text (First (Find [s] selDeclPre))) =? "") eqn:Edef;
      [discriminate|].
    injection Hs as <-. cbn [Type_.Name Type_.Definition_].
    split; now apply String.eqb_neq.
Qed.

Lemma blocks_without_id_witness :
  exists pkg,
    ParsePackagePage sourceOrders renderNothing (atRoot noIdPage) = Some (Ok pkg)
    /\ (exists c, In c (Package.Constants pkg)
                  /\ Constant.Name c = "const-block-1"
                  /\ Constant.Value c = "const A = 1")
    /\ (exists v, In v (Package.Variables pkg)
                  /\ Variable_.Name v = "var-block-1"
                  /\ Variable_.Type_ v = "var V int")
    /\ (exists f, In f (Package.Functions pkg)
                  /\ Function.Signature f = "func Anon()")
    /\ typeOf (blockOf selTypes noIdPage) = None.
Proof.
  destruct (blocks_without_id sourceOrders renderNothing (atRoot noIdPage))
    as [pkg [E [HC [HV [HF [HT _]]]]]].
  exists pkg. split; [exact E|].
  split.
  { apply (HC 0 (blockOf selConstants noIdPage)).
    - vm_compute. reflexivity.
    - vm_compute. discriminate.
    - vm_compute. reflexivity. }
  split.
  { apply (HV 0 (blockOf selVariables noIdPage)).
    - vm_compute. reflexivity.
    - vm_compute. discriminate.
    - vm_compute. reflexivity. }
  split.
  { apply (HF (blockOf selFunctions noIdPage)).
    - vm_compute. left. reflexivity.
    - vm_compute. discriminate.
    - vm_compute. reflexivity. }
  apply HT. vm_compute. reflexivity.
Defined.

(** C3 as the spec has it fails: a type block with a definition and no
    id on its heading is dropped. *)
Lemma type_without_id_dropped :
  map here (Find [atRoot noIdPage] selTypes) = [typeNoId]
  /\ AttrOr (First (Find [blockOf selTypes noIdPage] selH4)) "id" "" = ""
  /\ TrimSpace (Text (First (Find [blockOf selTypes noIdPage] selDeclPre)))
     = "type T struct{}"
  /\ Package.Types (parsed noIdPage) = [].
Proof. repeat split; vm_compute; reflexivity. Qed.

End ParserClaims.

(** ** The orchestrator *)

Section ScraperFacts.
Import GoStrings Utils Models Dom Parser Scraper DomNotions ScraperNotions.

Variable Visit : nat -> string -> VisitResult.
Variable clock : nat -> Time.
Variable orders : nat -> MapOrders.
Variable render : list Node -> option string.


Lemma ParsePackagePage_returns (o : MapOrders) (e : Loc) :
  exists pkg, ParsePackagePage o render e = Some (Ok pkg).
Proof.
  destruct (ParsePackagePage_fields o render e) as [r [p E]]. eauto.
Qed.

Lemma scrape_blank (cfg : ScrapingConfig) (st : State) (p : string) :
  nonBlank p = false ->
  ScrapePackageWithRaw Visit clock orders render cfg st p = Some (Err ErrEmptyImportPath, st).
Proof.
  unfold nonBlank, ScrapePackageWithRaw. intros H.
  apply negb_false_iff in H. now rewrite H.
Qed.

Lemma scrape_mock (cfg : ScrapingConfig) (st : State) (p : string) :
  nonBlank p = true -> TestMode cfg = true ->
  ScrapePackageWithRaw Visit clock orders render cfg st p
  = Some (Ok (mockPackage (clock (List.length (calls st))) p,
              mockHTML (mockPackage (clock (List.length (calls st))) p)),
          logCall st p).
Proof.
  unfold nonBlank, ScrapePackageWithRaw. intros H T.
  apply negb_true_iff in H. now rewrite H, T.
Qed.

(** What a scrape outside the test mode returns, by what the visit does. *)
Lemma scrape_visit (cfg : ScrapingConfig) (st : State) (p : string) :
  nonBlank p = true -> TestMode cfg = false ->
  match Visit (List.length (calls st)) ("https://pkg.go.dev/" ++ TrimSpace p)%string with
  | VisitErr cause =>
      ScrapePackageWithRaw Visit clock orders render cfg st p
      = Some (Err (ErrVisit ("https://pkg.go.dev/" ++ TrimSpace p)%string cause),
              logCall st p)
  | VisitOK None =>
      ScrapePackageWithRaw Visit clock orders render cfg st p = Some (Err (ErrNoPackageData p), logCall st p)
  | VisitOK (Some root) =>
      exists pkg,
        ParsePackagePage (orders (List.length (calls st))) render (atRoot root)
        = Some (Ok pkg)
        /\ ScrapePackageWithRaw Visit clock orders render cfg st p
           = Some (Ok (Package.setImportPathScrapedAt pkg p
                         (clock (List.length (calls st))),
                       match Html render [atRoot root] with
                       | Some h => h
                       | None => ""
                       end),
                   countScraped (logCall st p))
  end.
Proof.
  unfold nonBlank, ScrapePackageWithRaw. intros H T.
  apply negb_true_iff in H. rewrite H, T.
  destruct (Visit (List.length (calls st)) ("https://pkg.go.dev/" ++ TrimSpace p)%string)
    as [cause|[root|]]; try reflexivity.
  destruct (ParsePackagePage_returns (orders (List.length (calls st))) (atRoot root))
    as [pkg E].
  exists pkg. split; [exact E|]. unfold atRoot in E. rewrite E. reflexivity.
Qed.

Lemma scrapeWithRaw_returns (cfg : ScrapingConfig) (st : State) (p : string) :
  exists r st', ScrapePackageWithRaw Visit clock orders render cfg st p = Some (r, st').
Proof.
  destruct (nonBlank p) eqn:B.
  - destruct (TestMode cfg) eqn:T.
    + rewrite scrape_mock by assumption. eauto.
    + pose proof (scrape_visit cfg st p B T) as H.
      destruct (Visit _ _) as [cause|[root|]]; eauto.
      destruct H as [pkg [_ E]]. eauto.
  - rewrite scrape_blank by assumption. eauto.
Qed.

Lemma scrapeWithRaw_import_path (cfg : ScrapingConfig) (st : State) (p : string)
  (pkg : Package.t) (raw : string) (st' : State) :
  ScrapePackageWithRaw Visit clock orders render cfg st p = Some (Ok (pkg, raw), st') -> Package.ImportPath pkg = p.
Proof.
  destruct (nonBlank p) eqn:B.
  - destruct (TestMode cfg) eqn:T.
    + rewrite scrape_mock by assumption. intros H. injection H as <- _ _. reflexivity.
    + pose proof (scrape_visit cfg st p B T) as H.
      destruct (Visit _ _) as [cause|[root|]].
      * rewrite H. discriminate.
      * destruct H as [pkg' [_ E]]. rewrite E. intros H. injection H as <- _ _.
        reflexivity.
      * rewrite H. discriminate.
  - rewrite scrape_blank by assumption. discriminate.
Qed.

(** One import path adds one record or one error. *)
Lemma into_one (cfg : ScrapingConfig) (b : Batch) (st : State) (p : string) :
  exists b' st',
    scrapeInto Visit clock orders render cfg (b, st) p = Some (b', st')
    /\ ((exists pkg, packages b' = packages b ++ [pkg] /\ errors b' = errors b
                     /\ Package.ImportPath pkg = p)
        \/ (exists cause, packages b' = packages b
                          /\ errors b' = errors b ++ [ErrScrape p cause])).
Proof.
  unfold scrapeInto, ScrapePackage.
  destruct (scrapeWithRaw_returns cfg st p) as [[[pkg raw]|err] [st' E]]; rewrite E.
  - eexists _, _. split; [reflexivity|]. left. exists pkg. simpl.
    repeat split. eapply scrapeWithRaw_import_path; eauto.
  - eexists _, _. split; [reflexivity|]. right. exists err. simpl. auto.
Qed.

Lemma batchResult_eq (b : Batch) (st : State) :
  batchResult (b, st) = (packages b, hd_error (errors b), st).
Proof. unfold batchResult. now destruct (errors b). Qed.

Lemma sequential_count (cfg : ScrapingConfig) (importPaths all : list string) :
  incl importPaths all ->
  forall b st, failuresOf all (errors b) ->
  exists b' st',
    scrapeSequential Visit clock orders render cfg (b, st) importPaths = Some (b', st')
    /\ tally b' = tally b + List.length importPaths
    /\ failuresOf all (errors b').
Proof.
  induction importPaths as [|p rest IH]; intros Hi b st F.
  - exists b, st. simpl. split; [reflexivity|]. split; [unfold tally; lia|assumption].
  - destruct (into_one cfg b st p) as [b1 [st1 [E H]]].
    assert (Hr : incl rest all) by (intros x Hx; apply Hi; now right).
    assert (F1 : failuresOf all (errors b1)).
    { destruct H as [[pkg [_ [Ee _]]]|[cause [_ Ee]]]; rewrite Ee; [assumption|].
      apply Forall_app. split; [assumption|]. constructor; [|constructor].
      exists p, cause. split; [reflexivity|]. apply Hi. now left. }
    destruct (IH Hr b1 st1 F1) as [b' [st' [E' [T' F']]]].
    exists b', st'. cbn [scrapeSequential]. rewrite E. split; [exact E'|].
    split; [|assumption]. rewrite T'. unfold tally.
    destruct H as [[pkg [Ep [Ee _]]]|[cause [Ep Ee]]]; rewrite Ep, Ee;
      rewrite ?length_app; simpl; lia.
Qed.




Lemma sequential_mock (cfg : ScrapingConfig) (importPaths : list string) :
  TestMode cfg = true ->
  forall b st,
  exists news st',
    scrapeSequential Visit clock orders render cfg (b, st) importPaths
    = Some ({| packages := packages b ++ news;
               errors := errors b
                         ++ map (fun p => ErrScrape p ErrEmptyImportPath)
                              (filter (fun p => negb (nonBlank p)) importPaths) |},
            st')
    /\ Forall2 (fun pkg p => exists now, pkg = mockPackage now p)
         news (filter nonBlank importPaths)
    /\ calls st' = calls st ++ filter nonBlank importPaths.
Proof.
  intros T. induction importPaths as [|p rest IH]; intros b st.
  - exists [], st. simpl. rewrite !app_nil_r. destruct b. repeat split. constructor.
  - cbn [scrapeSequential]. unfold scrapeInto, ScrapePackage. cbn [filter].
    destruct (nonBlank p) eqn:B; cbn [negb].
    + rewrite scrape_mock by assumption.
      destruct (IH {| packages := packages b
                        ++ [mockPackage (clock (List.length (calls st))) p];
                      errors := errors b |} (logCall st p))
        as [news [st' [E [Hp Hc]]]].
      exists (mockPackage (clock (List.length (calls st))) p :: news), st'.
      rewrite E. cbn [packages errors logCall calls] in *.
      rewrite <- !app_assoc. split; [reflexivity|]. split.
      * constructor; [eauto|assumption].
      * rewrite Hc, <- app_assoc. reflexivity.
    + rewrite scrape_blank by assumption.
      destruct (IH {| packages := packages b;
                      errors := errors b ++ [ErrScrape p ErrEmptyImportPath] |} st)
        as [news [st' [E [Hp Hc]]]].
      exists news, st'. rewrite E. cbn [packages errors map] in *.
      rewrite <- !app_assoc. split; [reflexivity|]. split; assumption.
Qed.

Lemma mock_import_paths (news : list Package.t) (paths : list string) :
  Forall2 (fun pkg p => exists now, pkg = mockPackage now p) news paths ->
  map Package.ImportPath news = paths.
Proof.
  intros F. induction F as [|pkg p l l' [now E] F IH]; simpl; [reflexivity|].
  rewrite E, IH. reflexivity.
Qed.

(** C9.  In the test mode the batch takes the import paths one after the
    other in the order given.  The calls it logs are the import paths that
    are not blank, in that order; the records it returns are the mock
    records of these import paths, in that order; the failed import paths
    are the blank ones, and the error returned is that of the first of
    them. *)
Theorem test_mode_keeps_input_order (cfg : ScrapingConfig) (sched : Schedule)
  (st : State) (importPaths : list string) :
  TestMode cfg = true -> importPaths <> [] ->
  exists pkgs st',
    ScrapePackages Visit clock orders render cfg sched st importPaths
    = Some (pkgs,
            hd_error (map (fun p => ErrScrape p ErrEmptyImportPath)
                        (filter (fun p => negb (nonBlank p)) importPaths)),
            st')
    /\ Forall2 (fun pkg p => exists now, pkg = mockPackage now p)
         pkgs (filter nonBlank importPaths)
    /\ map Package.ImportPath pkgs = filter nonBlank importPaths
    /\ calls st' = calls st ++ filter nonBlank importPaths.
Proof.
  intros T NE. unfold ScrapePackages.
  destruct importPaths as [|p0 rest] eqn:Eids; [congruence|]. rewrite <- Eids in *.
  rewrite T.
  destruct (sequential_mock cfg importPaths T {| packages := []; errors := [] |} st)
    as [news [st' [E [Hp Hc]]]].
  rewrite E. cbn [option_map]. rewrite batchResult_eq.
  cbn [packages errors app].
  exists news, st'. split; [reflexivity|]. split; [assumption|].
  split; [now apply mock_import_paths|assumption].
Qed.

(** C10.  The record of a successful scrape carries the import path that
    was asked for, as it was given.  Outside the test mode the record is
    the one extracted from the page handed over, with its import path,
    read from the breadcrumb, replaced by the one asked for. *)
Theorem scraped_import_path_is_requested (cfg : ScrapingConfig) (st : State)
  (importPath : string) (pkg : Package.t) (raw : string) (st' : State) :
  ScrapePackageWithRaw Visit clock orders render cfg st importPath
  = Some (Ok (pkg, raw), st') ->
  Package.ImportPath pkg = importPath
  /\ (TestMode cfg = false ->
      exists root extracted,
        Visit (List.length (calls st))
          ("https://pkg.go.dev/" ++ TrimSpace importPath)%string
        = VisitOK (Some root)
        /\ ParsePackagePage (orders (List.length (calls st))) render (atRoot root)
           = Some (Ok extracted)
        /\ pkg = Package.setImportPathScrapedAt extracted importPath
                   (clock (List.length (calls st)))).
Proof.
  intros H. split; [eapply scrapeWithRaw_import_path; eauto|].
  intros T. destruct (nonBlank importPath) eqn:B.
  - pose proof (scrape_visit cfg st importPath B T) as V.
    destruct (Visit _ _) as [cause|[root|]].
    + rewrite V in H. discriminate.
    + destruct V as [extracted [E1 E2]]. rewrite E2 in H.
      injection H as <- _ _. eauto.
    + rewrite V in H. discriminate.
  - rewrite scrape_blank in H by assumption. discriminate.
Qed.

(** C1, as the code has it.  The extractor returns a record and no error
    for every element.  Outside the test mode a scrape of an import path
    that is not blank fails exactly when the visit fails, or when the visit
    hands no element over, which is the error of a page without package
    data; for every element handed over it returns the record extracted,
    with the import path asked for. *)
Theorem scrape_fails_without_page_only (cfg : ScrapingConfig) (st : State)
  (importPath : string) :
  TestMode cfg = false -> TrimSpace importPath <> "" ->
  (forall o e, exists pkg, ParsePackagePage o render e = Some (Ok pkg))
  /\ match Visit (List.length (calls st))
             ("https://pkg.go.dev/" ++ TrimSpace importPath)%string with
     | VisitErr cause =>
         ScrapePackageWithRaw Visit clock orders render cfg st importPath
         = Some (Err (ErrVisit ("https://pkg.go.dev/" ++ TrimSpace importPath)%string
                        cause),
                 logCall st importPath)
     | VisitOK None =>
         ScrapePackageWithRaw Visit clock orders render cfg st importPath
         = Some (Err (ErrNoPackageData importPath), logCall st importPath)
     | VisitOK (Some root) =>
         exists pkg raw,
           ParsePackagePage (orders (List.length (calls st))) render (atRoot root)
           = Some (Ok pkg)
           /\ ScrapePackageWithRaw Visit clock orders render cfg st importPath
              = Some (Ok (Package.setImportPathScrapedAt pkg importPath
                            (clock (List.length (calls st))), raw),
                      countScraped (logCall st importPath))
     end.
Proof.
  intros T B. split; [intros o e; apply ParsePackagePage_returns|].
  assert (NB : nonBlank importPath = true).
  { unfold nonBlank. apply negb_true_iff. now apply String.eqb_neq. }
  pose proof (scrape_visit cfg st importPath NB T) as H.
  destruct (Visit _ _) as [cause|[root|]]; try exact H.
  destruct H as [pkg [E1 E2]]. eauto.
Qed.

(** C5.  Outside the test mode, with a positive bound on concurrency and
    no goroutine abandoned, a batch of [a] and [b] where the visit of [a]
    fails and the visit of [b] hands a page over returns one record, that
    of [b], together with the error of the scrape of [a]. *)
Theorem one_failure_one_record (cfg : ScrapingConfig) (sched : Schedule)
  (st : State) :
  TestMode cfg = false -> (0 < MaxConcurrency cfg)%Z ->
  ScheduleOK sched 2 ->
  abandoned sched 0 = false -> abandoned sched 1 = false ->
  (forall n, exists cause, Visit n "https://pkg.go.dev/a" = VisitErr cause) ->
  (forall n, exists root, Visit n "https://pkg.go.dev/b" = VisitOK (Some root)) ->
  exists pkg cause st',
    ScrapePackages Visit clock orders render cfg sched st ["a"; "b"]
    = Some ([pkg], Some (ErrScrape "a" (ErrVisit "https://pkg.go.dev/a" cause)), st')
    /\ Package.ImportPath pkg = "b".
Proof.
  intros T C S A0 A1 Va Vb.
  assert (C1 : (MaxConcurrency cfg <? 0)%Z = false) by (apply Z.ltb_ge; lia).
  assert (C2 : (MaxConcurrency cfg =? 0)%Z = false) by (apply Z.eqb_neq; lia).
  assert (Sa : forall st0, exists cause,
               ScrapePackage Visit clock orders render cfg st0 "a"
               = Some (Err (ErrVisit "https://pkg.go.dev/a" cause), logCall st0 "a")).
  { intros st0. unfold ScrapePackage.
    pose proof (scrape_visit cfg st0 "a" eq_refl T) as H.
    change ("https://pkg.go.dev/" ++ TrimSpace "a")%string
      with "https://pkg.go.dev/a" in H.
    destruct (Va (List.length (calls st0))) as [cause E]. rewrite E in H.
    rewrite H. eauto. }
  assert (Sb : forall st0, exists pkg,
               ScrapePackage Visit clock orders render cfg st0 "b" = Some (Ok pkg, countScraped (logCall st0 "b"))
               /\ Package.ImportPath pkg = "b").
  { intros st0. unfold ScrapePackage.
    pose proof (scrape_visit cfg st0 "b" eq_refl T) as H.
    change ("https://pkg.go.dev/" ++ TrimSpace "b")%string
      with "https://pkg.go.dev/b" in H.
    destruct (Vb (List.length (calls st0))) as [root E]. rewrite E in H.
    destruct H as [pkg [_ H]]. rewrite H. eexists. split; reflexivity. }
  unfold ScrapePackages. rewrite T, C1, C2.
  unfold ScheduleOK in S. simpl in S. apply Permutation_sym in S.
  apply Permutation_length_2_inv in S as [S|S]; rewrite S;
    cbn [scrapeParallel nth_error]; rewrite ?A0, ?A1; unfold scrapeInto.
  - destruct (Sa st) as [cause Ea]. rewrite Ea.
    destruct (Sb (logCall st "a")) as [pkg [Eb Ip]]. rewrite Eb.
    exists pkg, cause. eexists. split; [reflexivity|exact Ip].
  - destruct (Sb st) as [pkg [Eb Ip]]. rewrite Eb.
    destruct (Sa (countScraped (logCall st "b"))) as [cause Ea]. rewrite Ea.
    exists pkg, cause. eexists. split; [reflexivity|exact Ip].
Qed.

End ScraperFacts.

Section ScraperExamples.
Import GoStrings Utils Models Dom Parser Scraper DomNotions ScraperNotions.



Lemma one_failure_one_record_witness :
  TestMode DefaultConfig = false
  /\ (0 < MaxConcurrency DefaultConfig)%Z
  /\ ScheduleOK (inOrder [1; 0]) 2
  /\ (forall n, exists cause,
        aFailsBServes n "https://pkg.go.dev/a" = VisitErr cause)
  /\ (forall n, exists root,
        aFailsBServes n "https://pkg.go.dev/b" = VisitOK (Some root))
  /\ exists pkg cause st',
       ScrapePackages aFailsBServes stoppedClock sourceOrder renderNothing
         DefaultConfig (inOrder [1; 0]) emptyState ["a"; "b"]
       = Some ([pkg],
               Some (ErrScrape "a" (ErrVisit "https://pkg.go.dev/a" cause)), st')
       /\ Package.ImportPath pkg = "b".
Proof.
  assert (S : ScheduleOK (inOrder [1; 0]) 2)
    by (unfold ScheduleOK; simpl; apply perm_swap).
  assert (Va : forall n : nat, exists cause,
               aFailsBServes n "https://pkg.go.dev/a" = VisitErr cause)
    by (intros n; eexists; reflexivity).
  assert (Vb : forall n : nat, exists root,
               aFailsBServes n "https://pkg.go.dev/b" = VisitOK (Some root))
    by (intros n; eexists; reflexivity).
  split; [reflexivity|]. split; [reflexivity|]. split; [exact S|].
  split; [exact Va|]. split; [exact Vb|].
  apply (one_failure_one_record aFailsBServes stoppedClock sourceOrder renderNothing
           DefaultConfig (inOrder [1; 0]) emptyState);
    [reflexivity|reflexivity|exact S|reflexivity|reflexivity|exact Va|exact Vb].
Defined.

Lemma test_mode_keeps_input_order_witness :
  TestMode testConfig = true
  /\ ["github.com/spf13/viper"; " "; "github.com/spf13/cobra"] <> []
  /\ exists pkgs st',
       ScrapePackages (serving emptyPage) stoppedClock sourceOrder renderNothing
         testConfig (inOrder [2; 1; 0]) emptyState
         ["github.com/spf13/viper"; " "; "github.com/spf13/cobra"]
       = Some (pkgs, Some (ErrScrape " " ErrEmptyImportPath), st')
       /\ map Package.ImportPath pkgs
          = ["github.com/spf13/viper"; "github.com/spf13/cobra"]
       /\ calls st' = ["github.com/spf13/viper"; "github.com/spf13/cobra"].
Proof.
  split; [reflexivity|]. split; [discriminate|].
  destruct (test_mode_keeps_input_order (serving emptyPage) stoppedClock sourceOrder
              renderNothing testConfig (inOrder [2; 1; 0]) emptyState
              ["github.com/spf13/viper"; " "; "github.com/spf13/cobra"]
              eq_refl ltac:(discriminate))
    as [pkgs [st' [E [_ [Hp Hc]]]]].
  exists pkgs, st'. split; [exact E|]. split; [exact Hp|exact Hc].
Defined.

Lemma scraped_import_path_is_requested_witness :
  importPathOf [atRoot breadcrumbPage] = "github.com/spf13/viper"
  /\ exists pkg raw st',
       ScrapePackageWithRaw (serving breadcrumbPage) stoppedClock sourceOrder
         renderNothing DefaultConfig emptyState "github.com/spf13/cobra"
       = Some (Ok (pkg, raw), st')
       /\ Package.ImportPath pkg = "github.com/spf13/cobra".
Proof.
  split; [vm_compute; reflexivity|].
  destruct (ScrapePackageWithRaw (serving breadcrumbPage) stoppedClock sourceOrder
              renderNothing DefaultConfig emptyState "github.com/spf13/cobra")
    as [[[[pkg raw]|err] st']|] eqn:E.
  - exists pkg, raw, st'. split; [reflexivity|].
    exact (proj1 (scraped_import_path_is_requested (serving breadcrumbPage)
                    stoppedClock sourceOrder renderNothing DefaultConfig emptyState
                    "github.com/spf13/cobra" pkg raw st' E)).
  - vm_compute in E. discriminate.
  - vm_compute in E. discriminate.
Defined.

Lemma scrape_fails_without_page_only_witness :
  TestMode DefaultConfig = false
  /\ TrimSpace "github.com/spf13/cobra" <> ""
  /\ exists pkg raw,
       ParsePackagePage (sourceOrder 0) renderNothing (atRoot emptyPage) = Some (Ok pkg)
       /\ ScrapePackageWithRaw (serving emptyPage) stoppedClock sourceOrder
            renderNothing DefaultConfig emptyState "github.com/spf13/cobra"
          = Some (Ok (Package.setImportPathScrapedAt pkg "github.com/spf13/cobra"
                        (stoppedClock 0), raw),
                  countScraped (logCall emptyState "github.com/spf13/cobra")).
Proof.
  assert (B : TrimSpace "github.com/spf13/cobra" <> "")
    by (vm_compute; discriminate).
  split; [reflexivity|]. split; [exact B|].
  exact (proj2 (scrape_fails_without_page_only (serving emptyPage) stoppedClock
                  sourceOrder renderNothing DefaultConfig emptyState
                  "github.com/spf13/cobra" eq_refl B)).
Defined.

(** C1 as the spec has it fails: on a page without content the name and
    the import path extracted are both empty, and the extractor returns a
    record and no error, and so does the scrape. *)
Lemma empty_page_is_a_success :
  ParsePackagePage sourceOrders renderNothing (atRoot emptyPage)
  = Some (Ok emptyPackage)
  /\ Package.Name emptyPackage = ""
  /\ Package.ImportPath emptyPackage = ""
  /\ ScrapePackageWithRaw (serving emptyPage) stoppedClock sourceOrder renderNothing
       DefaultConfig emptyState "github.com/spf13/cobra"
     = Some (Ok (Package.setImportPathScrapedAt emptyPackage "github.com/spf13/cobra"
                   (instant 0), ""),
             {| PackagesScraped := 1; calls := ["github.com/spf13/cobra"] |}).
Proof. repeat split; vm_compute; reflexivity. Qed.

End ScraperExamples.

Open Scope list_scope.
Open Scope string_scope.

(** * Numbers, as the renderer writes them and the extractor reads them *)

Section NumberFacts.
Import GoStrings Utils Models Dom Parser Markdown TextNotions.

Lemma allBytes_app (p : ascii -> bool) (a b : string) :
  allBytes p (a ++ b) = (allBytes p a && allBytes p b)%bool.
Proof.
  induction a as [|c a IH]; simpl; [reflexivity|].
  now rewrite IH, andb_assoc.
Qed.

Lemma allBytes_weaken (p q : ascii -> bool) (s : string) :
  (forall c, p c = true -> q c = true) -> allBytes p s = true -> allBytes q s = true.
Proof.
  intros W. induction s as [|c s IH]; simpl; [reflexivity|].
  intros H. apply andb_true_iff in H as [H1 H2].
  rewrite (W _ H1). simpl. now apply IH.
Qed.

Lemma isDigit_digit (d : nat) : d < 10 -> isDigit (ascii_of_nat (48 + d)) = true.
Proof.
  intros L. unfold isDigit. rewrite (nat_ascii_embedding (48 + d)) by lia.
  apply andb_true_iff. split; apply Nat.leb_le; lia.
Qed.

Lemma digitVal_digit (d : nat) :
  d < 10 -> digitVal (ascii_of_nat (48 + d)) = Some (Z.of_nat d).
Proof.
  intros L. unfold digitVal. rewrite (nat_ascii_embedding (48 + d)) by lia.
  replace ((48 <=? 48 + d)%nat && (48 + d <=? 57)%nat)%bool with true.
  - do 2 f_equal. lia.
  - symmetry. apply andb_true_iff. split; apply Nat.leb_le; lia.
Qed.

(** The numeral of [Itoa] does not depend on the fuel, once there is
    enough of it. *)
Lemma itoaDigits_fuel (f : nat) :
  forall f' n, n < f -> n < f' -> itoaDigits f n = itoaDigits f' n.
Proof.
  induction f as [|f IH]; intros f' n L L'; [lia|].
  destruct f' as [|f']; [lia|]. cbn [itoaDigits].
  destruct (n <? 10)%nat eqn:E; [reflexivity|].
  apply Nat.ltb_ge in E.
  assert (D : n / 10 < n) by (apply Nat.div_lt; lia).
  rewrite (IH f' (n / 10)) by lia. reflexivity.
Qed.

Lemma Itoa_unfold (n : nat) :
  Itoa n = if (n <? 10)%nat then digit n else Itoa (n / 10) ++ digit (n mod 10).
Proof.
  unfold Itoa at 1. cbn [itoaDigits].
  destruct (n <? 10)%nat eqn:E; [reflexivity|].
  apply Nat.ltb_ge in E.
  assert (D : n / 10 < n) by (apply Nat.div_lt; lia).
  unfold Itoa. now rewrite (itoaDigits_fuel n (S (n / 10)) (n / 10)) by lia.
Qed.

Lemma Itoa_digits (n : nat) : allBytes isDigit (Itoa n) = true /\ Itoa n <> "".
Proof.
  induction n as [n IH] using (well_founded_induction lt_wf).
  rewrite Itoa_unfold. destruct (n <? 10)%nat eqn:E.
  - apply Nat.ltb_lt in E. unfold digit. cbn [allBytes].
    rewrite isDigit_digit by assumption. split; [reflexivity|discriminate].
  - apply Nat.ltb_ge in E.
    assert (D : n / 10 < n) by (apply Nat.div_lt; lia).
    destruct (IH _ D) as [A N]. split.
    + rewrite allBytes_app, A. unfold digit. cbn [allBytes andb].
      rewrite isDigit_digit; [reflexivity|].
      apply Nat.mod_upper_bound. lia.
    + destruct (Itoa (n / 10)); [congruence|discriminate].
Qed.

Lemma parseDigits_app (a b : string) :
  forall acc,
    parseDigits acc (a ++ b)
    = match parseDigits acc a with
      | Some v => parseDigits v b
      | None => None
      end.
Proof.
  induction a as [|c a IH]; intros acc; simpl; [reflexivity|].
  destruct (digitVal c); [apply IH|reflexivity].
Qed.

Lemma parseDigits_Itoa (n : nat) : parseDigits 0 (Itoa n) = Some (Z.of_nat n).
Proof.
  induction n as [n IH] using (well_founded_induction lt_wf).
  rewrite Itoa_unfold. destruct (n <? 10)%nat eqn:E.
  - apply Nat.ltb_lt in E. unfold digit. cbn [parseDigits].
    rewrite digitVal_digit by assumption. reflexivity.
  - apply Nat.ltb_ge in E.
    assert (D : n / 10 < n) by (apply Nat.div_lt; lia).
    rewrite parseDigits_app, (IH _ D). unfold digit. cbn [parseDigits].
    rewrite digitVal_digit by (apply Nat.mod_upper_bound; lia).
    f_equal. rewrite (Nat.div_mod_eq n 10) at 3. lia.
Qed.

Lemma isDigit_not_sign (c : ascii) :
  isDigit c = true -> Ascii.eqb c "-" = false /\ Ascii.eqb c "+" = false
                      /\ Ascii.eqb c "," = false.
Proof.
  unfold isDigit. intros H. apply andb_true_iff in H as [H1 H2].
  apply Nat.leb_le in H1. apply Nat.leb_le in H2.
  repeat split; apply Ascii.eqb_neq; intros ->; cbn in H1, H2; lia.
Qed.

(** [Atoi] reads back what [FormatInt] writes. *)
Lemma Atoi_FormatInt (n : Z) :
  (minInt <= n <= maxInt)%Z -> Atoi (FormatInt n) = Some n.
Proof.
  intros B. unfold FormatInt. destruct (n <? 0)%Z eqn:S.
  - apply Z.ltb_lt in S.
    destruct (Itoa_digits (Z.to_nat (- n))) as [A N].
    pose proof (parseDigits_Itoa (Z.to_nat (- n))) as P.
    cbn [append Atoi]. change (Ascii.eqb "-" "-") with true. cbv iota.
    destruct (Itoa (Z.to_nat (- n))) as [|c r] eqn:I; [congruence|].
    rewrite P. rewrite Z2Nat.id by lia. rewrite Z.opp_involutive.
    replace ((minInt <=? n)%Z && (n <=? maxInt)%Z)%bool with true; [reflexivity|].
    symmetry. apply andb_true_iff. split; apply Z.leb_le; lia.
  - apply Z.ltb_ge in S.
    destruct (Itoa_digits (Z.to_nat n)) as [A N].
    pose proof (parseDigits_Itoa (Z.to_nat n)) as P.
    destruct (Itoa (Z.to_nat n)) as [|c r] eqn:I; [congruence|].
    cbn [allBytes] in A. apply andb_true_iff in A as [A1 A2].
    destruct (isDigit_not_sign c A1) as [M [Q _]].
    unfold Atoi. rewrite M, Q. rewrite P. rewrite Z2Nat.id by lia.
    replace ((minInt <=? n)%Z && (n <=? maxInt)%Z)%bool with true; [reflexivity|].
    symmetry. apply andb_true_iff. split; apply Z.leb_le; lia.
Qed.

Lemma HasPrefix_byte (c d : ascii) (s : string) :
  HasPrefix (String c s) (String d "") = Ascii.eqb d c.
Proof.
  unfold HasPrefix. cbn [CutPrefix]. destruct (Ascii.eqb d c); [|reflexivity].
  destruct s; reflexivity.
Qed.

Lemma Contains_byte_absent (p : ascii -> bool) (d : ascii) (s : string) :
  (forall c, p c = true -> Ascii.eqb d c = false) ->
  allBytes p s = true -> Contains s (String d "") = false.
Proof.
  intros W. induction s as [|c s IH]; intros H; [reflexivity|].
  cbn [allBytes] in H. apply andb_true_iff in H as [H1 H2].
  cbn [Contains]. rewrite HasPrefix_byte, (W _ H1). now apply IH.
Qed.

Lemma digit_not_comma (c : ascii) : isDigit c = true -> Ascii.eqb "," c = false.
Proof.
  intros H. rewrite Ascii.eqb_sym. now destruct (isDigit_not_sign c H) as [_ [_ K]].
Qed.

(** Without its commas, what the loop of [addCommas] writes is the
    numeral it was given. *)
Lemma commaLoop_without_commas (str : string) :
  allBytes isDigit str = true ->
  forall len i, ReplaceAll (commaLoop len i str) "," "" = str.
Proof.
  unfold ReplaceAll. induction str as [|c str IH]; intros A len i; [reflexivity|].
  cbn [allBytes] in A. apply andb_true_iff in A as [A1 A2].
  cbn [commaLoop].
  assert (K : replaceFrom 0 (String c (commaLoop len (S i) str)) "," ""
              = String c str).
  { cbn [replaceFrom]. rewrite HasPrefix_byte, (digit_not_comma c A1).
    now rewrite IH. }
  destruct ((0 <? i)%nat && ((len - i) mod 3 =? 0)%nat)%bool.
  - change ("," ++ String c (commaLoop len (S i) str))
      with (String "," (String c (commaLoop len (S i) str))).
    cbn [replaceFrom]. rewrite HasPrefix_byte, Ascii.eqb_refl.
    change (String.length "," - 1) with 0. cbn [append]. exact K.
  - cbn [append]. exact K.
Qed.

Lemma graphic_code_not_space (m : nat) :
  33 <= m <= 126 ->
  asciiSpace m = false
  /\ (forall x, space2 x m = false)
  /\ (forall x y, space3 x y m = false)
  /\ (forall y, space2 m y = false)
  /\ (forall y z, space3 m y z = false).
Proof.
  intros B. unfold asciiSpace, space2, space3.
  assert (T1 : (m <=? 13)%nat = false) by (apply Nat.leb_gt; lia).
  assert (T2 : (m =? 32)%nat = false) by (apply Nat.eqb_neq; lia).
  assert (T3 : (m =? 133)%nat = false) by (apply Nat.eqb_neq; lia).
  assert (T4 : (m =? 160)%nat = false) by (apply Nat.eqb_neq; lia).
  assert (T5 : (m =? 128)%nat = false) by (apply Nat.eqb_neq; lia).
  assert (T6 : (128 <=? m)%nat = false) by (apply Nat.leb_gt; lia).
  assert (T7 : (m =? 168)%nat = false) by (apply Nat.eqb_neq; lia).
  assert (T8 : (m =? 169)%nat = false) by (apply Nat.eqb_neq; lia).
  assert (T9 : (m =? 175)%nat = false) by (apply Nat.eqb_neq; lia).
  assert (T10 : (m =? 159)%nat = false) by (apply Nat.eqb_neq; lia).
  assert (T11 : (m =? 194)%nat = false) by (apply Nat.eqb_neq; lia).
  assert (T12 : (m =? 225)%nat = false) by (apply Nat.eqb_neq; lia).
  assert (T13 : (m =? 226)%nat = false) by (apply Nat.eqb_neq; lia).
  assert (T14 : (m =? 227)%nat = false) by (apply Nat.eqb_neq; lia).
  rewrite T1, T2, T3, T4, T5, T6, T7, T8, T9, T10, T11, T12, T13, T14.
  repeat split; intros; rewrite ?andb_false_r, ?orb_false_r; reflexivity.
Qed.

Lemma isGraphic_code (c : ascii) :
  isGraphic c = true -> 33 <= nat_of_ascii c <= 126.
Proof.
  unfold isGraphic. intros H. apply andb_true_iff in H as [H1 H2].
  apply Nat.leb_le in H1. apply Nat.leb_le in H2. lia.
Qed.

Lemma allBytes_rev (p : ascii -> bool) (s : string) :
  allBytes p (rev s) = allBytes p s.
Proof.
  induction s as [|c s IH]; [reflexivity|].
  cbn [rev allBytes]. rewrite allBytes_app, IH. cbn [allBytes].
  rewrite andb_true_r. apply andb_comm.
Qed.

(** [TrimSpace] leaves a text of graphic ASCII bytes as it is. *)
Lemma TrimSpace_graphic (s : string) :
  allBytes isGraphic s = true -> TrimSpace s = s.
Proof.
  intros A. apply TrimSpace_kept.
  - destruct s as [|c r]; [reflexivity|].
    cbn [allBytes] in A. apply andb_true_iff in A as [A1 _].
    destruct (graphic_code_not_space _ (isGraphic_code c A1)) as [F1 [_ [_ [F4 F5]]]].
    unfold spaceWidth. rewrite F1. destruct r as [|b r]; [reflexivity|].
    rewrite F4. destruct r as [|a r]; [reflexivity|]. now rewrite F5.
  - rewrite <- allBytes_rev in A. destruct (rev s) as [|c r]; [reflexivity|].
    cbn [allBytes] in A. apply andb_true_iff in A as [A1 _].
    destruct (graphic_code_not_space _ (isGraphic_code c A1)) as [F1 [F2 [F3 _]]].
    unfold spaceWidthRev. rewrite F1. destruct r as [|b r]; [reflexivity|].
    rewrite F2. destruct r as [|a r]; [reflexivity|]. now rewrite F3.
Qed.

Lemma digit_graphic (c : ascii) : isDigit c = true -> isGraphic c = true.
Proof.
  unfold isDigit, isGraphic. intros H. apply andb_true_iff in H as [H1 H2].
  apply Nat.leb_le in H1. apply Nat.leb_le in H2.
  apply andb_true_iff. split; apply Nat.leb_le; lia.
Qed.

Lemma commaLoop_graphic (str : string) :
  allBytes isDigit str = true ->
  forall len i, allBytes isGraphic (commaLoop len i str) = true.
Proof.
  induction str as [|c str IH]; intros A len i; [reflexivity|].
  cbn [allBytes] in A. apply andb_true_iff in A as [A1 A2].
  cbn [commaLoop]. rewrite allBytes_app. cbn [allBytes].
  rewrite (digit_graphic c A1), (IH A2).
  destruct ((0 <? i)%nat && ((len - i) mod 3 =? 0)%nat)%bool; reflexivity.
Qed.

Lemma FormatInt_graphic (n : Z) : allBytes isGraphic (FormatInt n) = true.
Proof.
  unfold FormatInt. destruct (n <? 0)%Z.
  - destruct (Itoa_digits (Z.to_nat (- n))) as [A _].
    change ("-" ++ Itoa (Z.to_nat (- n))) with (String "-" (Itoa (Z.to_nat (- n)))).
    cbn [allBytes]. rewrite (allBytes_weaken _ _ _ digit_graphic A). reflexivity.
  - destruct (Itoa_digits (Z.to_nat n)) as [A _].
    apply (allBytes_weaken _ _ _ digit_graphic A).
Qed.

Lemma FormatInt_digits (n : Z) :
  (0 <= n)%Z -> allBytes isDigit (FormatInt n) = true /\ FormatInt n <> "".
Proof.
  intros P. unfold FormatInt.
  replace (n <? 0)%Z with false by (symmetry; apply Z.ltb_ge; lia).
  apply Itoa_digits.
Qed.

Lemma formatNumber_graphic (n : Z) : allBytes isGraphic (formatNumber n) = true.
Proof.
  unfold formatNumber, addCommas. destruct (n <? 1000)%Z eqn:E.
  - apply FormatInt_graphic.
  - destruct (String.length (FormatInt n) <=? 3)%nat; [apply FormatInt_graphic|].
    apply commaLoop_graphic. apply FormatInt_digits.
    apply Z.ltb_ge in E. lia.
Qed.

Lemma formatNumber_without_commas (n : Z) :
  ReplaceAll (formatNumber n) "," "" = FormatInt n.
Proof.
  assert (K : ReplaceAll (FormatInt n) "," "" = FormatInt n).
  { apply ReplaceAll_absent.
    apply (Contains_byte_absent (fun c => negb (Ascii.eqb "," c))).
    - intros c H. now apply negb_true_iff in H.
    - unfold FormatInt. destruct (n <? 0)%Z.
      + destruct (Itoa_digits (Z.to_nat (- n))) as [A _].
        change ("-" ++ Itoa (Z.to_nat (- n)))
          with (String "-" (Itoa (Z.to_nat (- n)))).
        cbn [allBytes]. apply andb_true_iff. split; [reflexivity|].
        apply (allBytes_weaken isDigit); [|exact A].
        intros c H. now rewrite (digit_not_comma c H).
      + destruct (Itoa_digits (Z.to_nat n)) as [A _].
        apply (allBytes_weaken isDigit); [|exact A].
        intros c H. now rewrite (digit_not_comma c H). }
  unfold formatNumber, addCommas. destruct (n <? 1000)%Z eqn:E; [exact K|].
  destruct (String.length (FormatInt n) <=? 3)%nat; [exact K|].
  apply commaLoop_without_commas. apply FormatInt_digits.
  apply Z.ltb_ge in E. lia.
Qed.

Lemma fields_no_separator (sep : ascii) (s : string) :
  allBytes (fun c => negb (Ascii.eqb c sep)) s = true ->
  forall cur, fields sep cur s = [cur ++ s].
Proof.
  induction s as [|c s IH]; intros A cur.
  - cbn [fields]. now rewrite app_empty_r.
  - cbn [allBytes] in A. apply andb_true_iff in A as [A1 A2].
    apply negb_true_iff in A1. cbn [fields]. rewrite A1, (IH A2).
    now rewrite app_assoc_s.
Qed.

Lemma digit_is_not_comma (c : ascii) : isDigit c = true -> Ascii.eqb c "," = false.
Proof. intros H. now destruct (isDigit_not_sign c H) as [_ [_ K]]. Qed.

(** The loop of [addCommas], past the first byte, ends the field being
    read after as many digits as make the rest a multiple of three, and
    goes on with fields of three digits. *)
Lemma commaLoop_fields (str : string) :
  allBytes isDigit str = true ->
  forall len i cur,
    len = i + String.length str -> 0 < i ->
    exists first rest,
      fields "," cur (commaLoop len i str) = (cur ++ first) :: rest
      /\ String.length first = String.length str mod 3
      /\ Forall (fun g => String.length g = 3) rest
      /\ first ++ joined rest = str.
Proof.
  induction str as [|c str IH]; intros A len i cur L P.
  - exists "", []. cbn [commaLoop fields]. rewrite app_empty_r.
    repeat split. constructor.
  - cbn [allBytes] in A. apply andb_true_iff in A as [A1 A2].
    cbn [String.length] in L.
    pose proof (Nat.div_mod_eq (S (String.length str)) 3) as D1.
    pose proof (Nat.mod_upper_bound (S (String.length str)) 3 ltac:(lia)) as U1.
    pose proof (Nat.div_mod_eq (String.length str) 3) as D2.
    pose proof (Nat.mod_upper_bound (String.length str) 3 ltac:(lia)) as U2.
    cbn [commaLoop String.length].
    replace (0 <? i)%nat with true by (symmetry; apply Nat.ltb_lt; lia).
    replace (len - i) with (S (String.length str)) by lia.
    cbn [andb].
    destruct (S (String.length str) mod 3 =? 0)%nat eqn:E.
    + apply Nat.eqb_eq in E.
      destruct (IH A2 len (S i) (String c "") ltac:(lia) ltac:(lia))
        as [first [rest [F [Lf [Fr J]]]]].
      exists "", ((String c "" ++ first) :: rest).
      change ("," ++ String c (commaLoop len (S i) str))
        with (String "," (String c (commaLoop len (S i) str))).
      cbn [fields]. rewrite Ascii.eqb_refl, (digit_is_not_comma c A1).
      cbn [append] in F |- *. rewrite F, app_empty_r.
      split; [reflexivity|]. split; [cbn [String.length]; lia|].
      split.
      * constructor; [cbn [String.length]; lia|exact Fr].
      * cbn [joined append]. now rewrite J.
    + apply Nat.eqb_neq in E.
      destruct (IH A2 len (S i) (cur ++ String c "") ltac:(lia) ltac:(lia))
        as [first [rest [F [Lf [Fr J]]]]].
      exists (String c first), rest.
      cbn [append fields]. rewrite (digit_is_not_comma c A1), F.
      split; [now rewrite app_assoc_s|].
      split; [cbn [String.length]; lia|].
      split; [exact Fr|]. cbn [append]. now rewrite J.
Qed.

Lemma Itoa_length_small (m : nat) : m < 1000 -> String.length (Itoa m) <= 3.
Proof.
  intros L. rewrite Itoa_unfold. destruct (m <? 10)%nat eqn:E1; [cbn; lia|].
  apply Nat.ltb_ge in E1. rewrite slength_app, Itoa_unfold.
  assert (L2 : m / 10 < 100) by (apply Nat.Div0.div_lt_upper_bound; lia).
  destruct (m / 10 <? 10)%nat eqn:E2; [cbn; lia|].
  apply Nat.ltb_ge in E2. rewrite slength_app, Itoa_unfold.
  assert (L3 : m / 10 / 10 < 10) by (apply Nat.Div0.div_lt_upper_bound; lia).
  replace (m / 10 / 10 <? 10)%nat with true by (symmetry; apply Nat.ltb_lt; lia).
  cbn. lia.
Qed.

End NumberFacts.

Open Scope list_scope.
Open Scope string_scope.

Section NumberProperties.
Import GoStrings Utils Models Dom Parser Markdown TextNotions DomNotions.

Lemma countAfter_formatNumber (pfx : string) (n : Z) :
  (minInt <= n <= maxInt)%Z -> countAfter (pfx ++ formatNumber n) pfx = Some n.
Proof.
  intros B. rewrite countAfter_label.
  rewrite (TrimSpace_graphic _ (formatNumber_graphic n)).
  rewrite formatNumber_without_commas. now apply Atoi_FormatInt.
Qed.

(** X1.  [formatNumber] writes a count that is not negative as its
    decimal numeral cut by commas into groups of digits: a first group of
    one to three digits, then groups of exactly three. *)
Theorem formatNumber_groups_of_three (n : Z) :
  (0 <= n)%Z ->
  exists first rest,
    fields "," "" (formatNumber n) = first :: rest
    /\ 1 <= String.length first <= 3
    /\ Forall (fun g => String.length g = 3) rest
    /\ allBytes isDigit (first ++ joined rest) = true
    /\ first ++ joined rest = FormatInt n.
Proof.
  intros P. destruct (FormatInt_digits n P) as [A N].
  assert (Single : 1 <= String.length (FormatInt n) <= 3 ->
            fields "," "" (FormatInt n) = [FormatInt n] ->
            exists first rest,
              fields "," "" (FormatInt n) = first :: rest
              /\ 1 <= String.length first <= 3
              /\ Forall (fun g => String.length g = 3) rest
              /\ allBytes isDigit (first ++ joined rest) = true
              /\ first ++ joined rest = FormatInt n).
  { intros L F. exists (FormatInt n), []. cbn [joined]. rewrite app_empty_r.
    repeat split; try assumption; try lia. constructor. }
  assert (NoComma : fields "," "" (FormatInt n) = [FormatInt n]).
  { apply (fields_no_separator "," (FormatInt n)).
    apply (allBytes_weaken isDigit); [|exact A].
    intros c H. now rewrite (digit_is_not_comma c H). }
  assert (Pos : 1 <= String.length (FormatInt n)).
  { destruct (FormatInt n); [congruence|cbn [String.length]; lia]. }
  unfold formatNumber, addCommas. destruct (n <? 1000)%Z eqn:E.
  - apply Z.ltb_lt in E. apply Single; [|exact NoComma].
    split; [exact Pos|]. unfold FormatInt.
    replace (n <? 0)%Z with false by (symmetry; apply Z.ltb_ge; lia).
    apply Itoa_length_small. lia.
  - destruct (String.length (FormatInt n) <=? 3)%nat eqn:E3.
    + apply Nat.leb_le in E3. apply Single; [lia|exact NoComma].
    + destruct (FormatInt n) as [|c str] eqn:I; [congruence|].
      cbn [allBytes] in A. apply andb_true_iff in A as [A1 A2].
      cbn [commaLoop String.length]. change (0 <? 0)%nat with false. cbn [andb append].
      cbn [fields]. rewrite (digit_is_not_comma c A1). cbn [append].
      destruct (commaLoop_fields str A2 (S (String.length str)) 1 (String c "")
                  ltac:(lia) ltac:(lia)) as [first [rest [F [Lf [Fr J]]]]].
      exists (String c first), rest. cbn [append] in F.
      pose proof (Nat.mod_upper_bound (String.length str) 3 ltac:(lia)) as U.
      split; [exact F|]. split; [cbn [String.length]; lia|].
      split; [exact Fr|]. cbn [append]. rewrite J. cbn [allBytes].
      rewrite A1, A2. split; reflexivity.
Qed.

Lemma formatNumber_groups_of_three_witness :
  (0 <= 1234567)%Z
  /\ exists first rest,
       fields "," "" (formatNumber 1234567) = first :: rest
       /\ 1 <= String.length first <= 3
       /\ Forall (fun g => String.length g = 3) rest
       /\ allBytes isDigit (first ++ joined rest) = true
       /\ first ++ joined rest = FormatInt 1234567.
Proof.
  split; [lia|]. apply (formatNumber_groups_of_three 1234567). lia.
Defined.

(** X2.  The extractor reads back what [formatNumber] writes: for a count
    [n] in the range of [int], the text made of a label and of
    [formatNumber n] is read as [n], and a page whose link to the importers
    is labelled that way gives a record with [ImportedBy = n]. *)
Theorem formatted_count_read_back (o : MapOrders)
  (render : list Node -> option string) (e : Loc) (n : Z) (pfx : string) :
  (minInt <= n <= maxInt)%Z ->
  In pfx ["Imported By: "; "Imported by: "] ->
  labelValue (Find [e] selImportedBy) = (pfx ++ formatNumber n)%string ->
  countAfter (pfx ++ formatNumber n) pfx = Some n
  /\ exists pkg,
       ParsePackagePage o render e = Some (Ok pkg) /\ Package.ImportedBy pkg = n.
Proof.
  intros B Hp Hv. split; [now apply countAfter_formatNumber|].
  destruct (ParsePackagePage_fields o render e) as [readme [processed E]].
  eexists. split; [exact E|]. cbn [Package.ImportedBy].
  unfold importedByOf.
  destruct (Find [e] selImportedBy) as [|l ls] eqn:F.
  - rewrite labelValue_none in Hv. destruct Hp as [<-|[<-|[]]]; discriminate.
  - change (0 <? Length (l :: ls))%nat with true. cbv iota. rewrite Hv.
    destruct Hp as [<-|[<-|[]]].
    + cbn [importedByFrom]. rewrite HasPrefix_self.
      now rewrite countAfter_formatNumber.
    + cbn [importedByFrom].
      replace (HasPrefix ("Imported by: " ++ formatNumber n)%string "Imported By: ")
        with false by reflexivity.
      rewrite HasPrefix_self. now rewrite countAfter_formatNumber.
Qed.

Lemma formatted_count_read_back_witness :
  (minInt <= 177680 <= maxInt)%Z
  /\ In "Imported By: " ["Imported By: "; "Imported by: "]
  /\ labelValue (Find [atRoot (importedByPage ("Imported By: " ++ formatNumber 177680))]
                   selImportedBy)
     = ("Imported By: " ++ formatNumber 177680)%string
  /\ countAfter ("Imported By: " ++ formatNumber 177680) "Imported By: " = Some 177680%Z
  /\ exists pkg,
       ParsePackagePage sourceOrders renderNothing
         (atRoot (importedByPage ("Imported By: " ++ formatNumber 177680)))
       = Some (Ok pkg)
       /\ Package.ImportedBy pkg = 177680%Z.
Proof.
  assert (B : (minInt <= 177680 <= maxInt)%Z) by (unfold minInt, maxInt; lia).
  assert (I : In "Imported By: " ["Imported By: "; "Imported by: "]) by now left.
  assert (V : labelValue (Find [atRoot (importedByPage
                                          ("Imported By: " ++ formatNumber 177680))]
                            selImportedBy)
              = ("Imported By: " ++ formatNumber 177680)%string)
    by (vm_compute; reflexivity).
  split; [exact B|]. split; [exact I|]. split; [exact V|].
  exact (formatted_count_read_back sourceOrders renderNothing _ 177680 "Imported By: "
           B I V).
Defined.

End NumberProperties.

Open Scope list_scope.
Open Scope string_scope.

(** * The reducer: what it leaves behind *)

Section ReducerShape.
Import GoStrings Regexp Utils Notions TextNotions.

Lemma IndexByte_app_found (x : string) (c : ascii) (y : string) :
  exists i, IndexByte (x ++ String c y) c = Some i /\ i <= String.length x.
Proof.
  induction x as [|d x [i [E L]]]; cbn [append IndexByte String.length].
  - rewrite Ascii.eqb_refl. exists 0. split; [reflexivity|lia].
  - destruct (Ascii.eqb d c).
    + exists 0. split; [reflexivity|lia].
    + rewrite E. exists (S i). split; [reflexivity|lia].
Qed.

Lemma drop_app_le (i : nat) :
  forall x y, i <= String.length x -> drop i (x ++ y) = drop i x ++ y.
Proof.
  induction i as [|i IH]; intros x y L; [reflexivity|].
  destruct x as [|c x]; cbn [String.length] in L; [lia|].
  cbn [append drop]. apply IH. lia.
Qed.

(** Where the loop of [stripAllTags] stops: no [<] is left, or no [>]
    follows the first [<]. *)
Lemma stripLoop_stops (fuel : nat) :
  forall s out, stripLoop fuel s = Some out ->
    (IndexByte out lt = None
     \/ exists start, IndexByte out lt = Some start
                      /\ IndexByte (drop start out) gt = None)
    /\ String.length out <= String.length s.
Proof.
  induction fuel as [|f IH]; intros s out H; [discriminate|].
  cbn [stripLoop] in H.
  destruct (IndexByte s lt) as [start|] eqn:E1.
  - destruct (IndexByte (drop start s) gt) as [e|] eqn:E2.
    + destruct (IH _ _ H) as [K L]. split; [exact K|].
      apply IndexByte_lt in E1.
      rewrite slength_app, length_take, length_drop in L. lia.
    + injection H as <-. split; [right; eauto|lia].
  - injection H as <-. split; [now left|lia].
Qed.

Lemma no_tag_left (out : string) :
  (IndexByte out lt = None
   \/ exists start, IndexByte out lt = Some start
                    /\ IndexByte (drop start out) gt = None) ->
  forall a b c, out <> a ++ "<" ++ b ++ ">" ++ c.
Proof.
  intros K a b c ->.
  change (a ++ "<" ++ b ++ ">" ++ c) with (a ++ String lt (b ++ String gt c)) in K.
  destruct (IndexByte_app_found a lt (b ++ String gt c)) as [i [E L]].
  destruct K as [K|[start [K1 K2]]]; [congruence|].
  rewrite E in K1. injection K1 as <-.
  rewrite drop_app_le in K2 by assumption.
  replace (drop i a ++ String lt (b ++ String gt c))
    with ((drop i a ++ String lt b) ++ String gt c) in K2
    by (now rewrite app_assoc_s).
  destruct (IndexByte_app_found (drop i a ++ String lt b) gt c) as [j [E' _]].
  congruence.
Qed.

Lemma Contains_drop (s sub : string) (i : nat) :
  Contains s sub = false -> Contains (drop i s) sub = false.
Proof.
  revert s. induction i as [|i IH]; intros s H; [exact H|].
  destruct s as [|c s]; [exact H|].
  apply Contains_cons in H as [_ H]. cbn [drop]. now apply IH.
Qed.

Lemma HasPrefix_ext (a b p : string) :
  HasPrefix a p = true -> HasPrefix (a ++ b) p = true.
Proof.
  unfold HasPrefix. destruct (CutPrefix a p) eqn:E; [|discriminate].
  intros _. now rewrite (CutPrefix_ext _ _ _ b E).
Qed.

Lemma Contains_prefix (a b sub : string) :
  Contains (a ++ b) sub = false -> Contains a sub = false.
Proof.
  induction a as [|c a IH]; intros H.
  - cbn [Contains]. destruct (HasPrefix "" sub) eqn:E; [|reflexivity].
    apply (HasPrefix_ext "" b) in E. cbn [append] in *.
    destruct b; cbn [Contains] in H; rewrite E in H; discriminate.
  - cbn [append] in H. apply Contains_cons in H as [H1 H2].
    cbn [Contains]. destruct (HasPrefix (String c a) sub) eqn:E.
    + apply (HasPrefix_ext _ b) in E. cbn [append] in E. congruence.
    + now apply IH.
Qed.

Lemma drop_drop (j : nat) : forall k s, drop j (drop k s) = drop (k + j) s.
Proof.
  intros k. induction k as [|k IH]; intros s; [reflexivity|].
  destruct s as [|c s]; cbn [drop plus]; [now destruct j|apply IH].
Qed.

Lemma trimWith_drop (width : string -> nat) (fuel : nat) :
  forall s, exists j, trimWith width fuel s = drop j s.
Proof.
  induction fuel as [|f IH]; intros s; cbn [trimWith]; [now exists 0|].
  destruct (width s) as [|w]; [now exists 0|].
  destruct (IH (drop (S w) s)) as [j E]. rewrite E, drop_drop. eauto.
Qed.

(** With fuel for every byte, the trimming loop stops on a text that does
    not begin with white space. *)
Lemma trimWith_stops (width : string -> nat) (fuel : nat) :
  width "" = 0 ->
  forall s, String.length s <= fuel -> width (trimWith width fuel s) = 0.
Proof.
  intros W. induction fuel as [|f IH]; intros s L; cbn [trimWith].
  - destruct s; [exact W|cbn [String.length] in L; lia].
  - destruct (width s) as [|w] eqn:E; [exact E|].
    apply IH. destruct s as [|c s]; [congruence|].
    cbn [String.length] in L. cbn [drop].
    pose proof (length_drop w s). lia.
Qed.

Lemma length_rev (s : string) : String.length (rev s) = String.length s.
Proof.
  induction s as [|c s IH]; [reflexivity|].
  cbn [rev String.length]. rewrite slength_app, IH. cbn [String.length]. lia.
Qed.

(** [TrimSpace] keeps a part of the text in one piece. *)
Lemma TrimSpace_part (s : string) : exists a z, s = a ++ TrimSpace s ++ z.
Proof.
  unfold TrimSpace, TrimLeftSpace, TrimRightSpace.
  destruct (trimWith_drop spaceWidth (String.length s) s) as [k E]. rewrite E.
  set (t := drop k s).
  destruct (trimWith_drop spaceWidthRev (String.length t) (rev t)) as [j E'].
  rewrite E'. exists (take k s), (rev (take j (rev t))).
  rewrite <- rev_app, take_drop, rev_rev. unfold t. now rewrite take_drop.
Qed.

Lemma TrimSpace_without (s sub : string) :
  Contains s sub = false -> Contains (TrimSpace s) sub = false.
Proof.
  intros H. destruct (TrimSpace_part s) as [a [z E]].
  rewrite E in H.
  assert (K : Contains (TrimSpace s ++ z) sub = false).
  { replace (TrimSpace s ++ z) with (drop (String.length a) (a ++ TrimSpace s ++ z)).
    - now apply Contains_drop.
    - rewrite drop_app_le by lia.
      replace (drop (String.length a) a) with "".
      + reflexivity.
      + clear. induction a as [|c a IH]; [reflexivity|exact IH]. }
  now apply Contains_prefix in K.
Qed.

Lemma spaceWidth_prefix (t z : string) :
  spaceWidth (t ++ z) = 0 -> spaceWidth t = 0.
Proof.
  destruct t as [|a [|b [|c r]]]; cbn [append]; unfold spaceWidth.
  - reflexivity.
  - destruct (asciiSpace (nat_of_ascii a)); [discriminate|reflexivity].
  - destruct (asciiSpace (nat_of_ascii a)); [discriminate|].
    destruct (space2 (nat_of_ascii a) (nat_of_ascii b)); [discriminate|reflexivity].
  - exact (fun H => H).
Qed.

Lemma TrimSpace_idempotent (s : string) : TrimSpace (TrimSpace s) = TrimSpace s.
Proof.
  apply TrimSpace_kept.
  - unfold TrimSpace.
    assert (L : spaceWidth (TrimLeftSpace s) = 0)
      by (apply trimWith_stops; [reflexivity|lia]).
    set (t := TrimLeftSpace s) in *.
    unfold TrimRightSpace.
    destruct (trimWith_drop spaceWidthRev (String.length t) (rev t)) as [j E].
    rewrite E. apply (spaceWidth_prefix _ (rev (take j (rev t)))).
    rewrite <- rev_app, take_drop, rev_rev. exact L.
  - unfold TrimSpace, TrimRightSpace. rewrite rev_rev.
    apply trimWith_stops; [reflexivity|]. rewrite length_rev. lia.
Qed.

Lemma collapseLoop_stops (fuel : nat) :
  forall s out, collapseLoop fuel s = Some out ->
    Contains out (LF ++ LF ++ LF) = false.
Proof.
  induction fuel as [|f IH]; intros s out H; [discriminate|].
  cbn [collapseLoop] in H.
  destruct (Contains s (LF ++ LF ++ LF)) eqn:E; [now apply IH in H|].
  now injection H as <-.
Qed.

(** X3.  [stripAllTags] comes to an end on every text, and in what it
    returns no tag is left: no [<] with a [>] somewhere after it.  The
    result is no longer than the text, and stripping it again changes
    nothing. *)
Theorem stripAllTags_leaves_no_tag (s : string) :
  exists out,
    stripAllTags s = Some out
    /\ (forall a b c, out <> a ++ "<" ++ b ++ ">" ++ c)
    /\ String.length out <= String.length s
    /\ stripAllTags out = Some out.
Proof.
  destruct (stripAllTags_returns s) as [out E]. exists out.
  destruct (stripLoop_stops _ _ _ E) as [K L].
  split; [exact E|]. split; [now apply no_tag_left|]. split; [exact L|].
  unfold stripAllTags. cbn [stripLoop].
  destruct K as [K|[start [K1 K2]]].
  - now rewrite K.
  - now rewrite K1, K2.
Qed.

(** X4.  A text in which [LooksLikeHTML] sees no HTML is returned by
    [stripAllTags] as it is. *)
Theorem not_html_not_stripped (s : string) :
  LooksLikeHTML s = false -> stripAllTags s = Some s.
Proof.
  unfold LooksLikeHTML. destruct (s =? "") eqn:E.
  - apply String.eqb_eq in E. subst. reflexivity.
  - intros H. apply andb_false_iff in H as [H|H].
    + now apply stripAllTags_absent.
    + unfold stripAllTags. cbn [stripLoop].
      destruct (IndexByte s lt) as [start|]; [|reflexivity].
      rewrite (IndexByte_absent (drop start s) gt); [reflexivity|].
      now apply Contains_drop.
Qed.

Lemma not_html_not_stripped_witness :
  LooksLikeHTML "if a < b then c" = false
  /\ stripAllTags "if a < b then c" = Some "if a < b then c".
Proof.
  split; [reflexivity|]. apply (not_html_not_stripped "if a < b then c"). reflexivity.
Defined.

(** X5.  Whatever the order of the map visits, the reducer turns a text
    that is not blank into a text without three line feeds in a row and
    without white space at either end. *)
Theorem reduced_text_is_normal (o : MapOrders) (html : string) :
  TrimSpace html <> "" ->
  exists out,
    ConvertHTMLToMarkdown o html = Some out
    /\ Contains out (LF ++ LF ++ LF) = false
    /\ TrimSpace out = out.
Proof.
  intros NB. unfold ConvertHTMLToMarkdown.
  destruct (TrimSpace html =? "") eqn:B; [apply String.eqb_eq in B; contradiction|].
  destruct (fences_return o
              (unescapeCommonEntities (entFirst o) (ReplaceAll html (CR ++ LF) LF)))
    as [h1 E1].
  rewrite E1.
  match goal with
  | |- context [stripAllTags ?x] =>
      destruct (stripAllTags_returns x) as [h2 E2]; rewrite E2
  end.
  match goal with
  | |- context [collapseLoop (S (String.length ?x)) ?x] =>
      destruct (collapseLoop_returns (S (String.length x)) x ltac:(lia))
        as [h3 E3]; rewrite E3
  end.
  exists (TrimSpace h3). split; [reflexivity|]. split.
  - apply TrimSpace_without. exact (collapseLoop_stops _ _ _ E3).
  - apply TrimSpace_idempotent.
Qed.

Lemma reduced_text_is_normal_witness :
  TrimSpace ("<p>a</p>" ++ LF ++ LF ++ LF ++ LF ++ "<p>b</p> ") <> ""
  /\ exists out,
       ConvertHTMLToMarkdown sourceOrders
         ("<p>a</p>" ++ LF ++ LF ++ LF ++ LF ++ "<p>b</p> ") = Some out
       /\ Contains out (LF ++ LF ++ LF) = false
       /\ TrimSpace out = out.
Proof.
  assert (NB : TrimSpace ("<p>a</p>" ++ LF ++ LF ++ LF ++ LF ++ "<p>b</p> ") <> "")
    by (vm_compute; discriminate).
  split; [exact NB|]. exact (reduced_text_is_normal sourceOrders _ NB).
Defined.

End ReducerShape.

Open Scope string_scope.
Open Scope list_scope.

(** * The extractor: what its records always hold *)

Section ParserShape.
Import GoStrings Utils Models Dom Parser DomNotions TextNotions.

Lemma functionOf_shape (s : Loc) (f : Function.t) :
  functionOf s = Some f ->
  Function.Signature f <> "" /\ TrimSpace (Function.Signature f) = Function.Signature f
  /\ Function.Receiver f = "" /\ Function.Examples f = [].
Proof.
  unfold functionOf.
  destruct (TrimSpace (Text (First (Find [s] selDeclPre))) =? "") eqn:E;
    [discriminate|].
  cbn [negb]. intros H. injection H as <-.
  cbn [Function.Signature Function.Receiver Function.Examples].
  apply String.eqb_neq in E. repeat split; [exact E|apply TrimSpace_idempotent].
Qed.

Lemma methodOf_shape (s : Loc) (m : Function.t) :
  methodOf s = Some m ->
  (Function.Name m <> "" \/ Function.Signature m <> "")
  /\ Function.Receiver m = "" /\ Function.Examples m = [].
Proof.
  unfold methodOf.
  set (mName := if AttrOr (First (Find [s] selH4)) "id" "" =? ""
                then TrimSpace (Text (First (Find [s] selH4)))
                else AttrOr (First (Find [s] selH4)) "id" "").
  set (mSig := TrimSpace (Text (First (Find [s] selDeclPre)))).
  destruct (mSig =? "") eqn:E1; destruct (mName =? "") eqn:E2;
    cbn [negb orb]; intros H; try discriminate; injection H as <-;
    cbn [Function.Name Function.Signature Function.Receiver Function.Examples];
    repeat split;
    try (left; now apply String.eqb_neq);
    try (right; now apply String.eqb_neq).
Qed.

Lemma typeOf_shape (s : Loc) (t : Type_.t) :
  typeOf s = Some t ->
  Type_.Kind t = "type" /\ Type_.Examples t = []
  /\ TrimSpace (Type_.Definition_ t) = Type_.Definition_ t
  /\ Forall (fun m => (Function.Name m <> "" \/ Function.Signature m <> "")
                      /\ Function.Receiver m = "" /\ Function.Examples m = [])
       (Type_.Methods t).
Proof.
  unfold typeOf.
  destruct (negb (AttrOr (First (Find [s] selH4)) "id" "" =? "")
            && negb (TrimSpace (Text (First (Find [s] selDeclPre))) =? ""))%bool;
    [|discriminate].
  intros H. injection H as <-.
  cbn [Type_.Kind Type_.Examples Type_.Definition_ Type_.Methods].
  repeat split; [apply TrimSpace_idempotent|].
  apply Forall_forall. intros m Hm.
  apply filterMap_In in Hm as [l [_ Hl]]. now apply methodOf_shape in Hl.
Qed.

Lemma constantOf_shape (i : nat) (s : Loc) (c : Constant.t) :
  constantOf i s = Some c ->
  Constant.Value c <> "" /\ TrimSpace (Constant.Value c) = Constant.Value c
  /\ TrimSpace (Constant.Name c) = Constant.Name c
  /\ TrimSpace (Constant.Description c) = Constant.Description c
  /\ Constant.Type_ c = "".
Proof.
  unfold constantOf.
  destruct (TrimSpace (Text (First (Find [s] selPre))) =? "") eqn:E; [discriminate|].
  intros H. injection H as <-.
  cbn [Constant.Value Constant.Name Constant.Description Constant.Type_].
  apply String.eqb_neq in E.
  repeat split; [exact E|apply TrimSpace_idempotent..].
Qed.

Lemma variableOf_shape (i : nat) (s : Loc) (v : Variable_.t) :
  variableOf i s = Some v ->
  Variable_.Type_ v <> "" /\ TrimSpace (Variable_.Type_ v) = Variable_.Type_ v
  /\ TrimSpace (Variable_.Name v) = Variable_.Name v
  /\ TrimSpace (Variable_.Description v) = Variable_.Description v.
Proof.
  unfold variableOf.
  destruct (TrimSpace (Text (First (Find [s] selPre))) =? "") eqn:E; [discriminate|].
  intros H. injection H as <-.
  cbn [Variable_.Type_ Variable_.Name Variable_.Description].
  apply String.eqb_neq in E.
  repeat split; [exact E|apply TrimSpace_idempotent..].
Qed.

(** X6.  Fields the extractor never fills: in the record of every page
    the module, the synopsis and the time of the scrape are empty, there
    are no examples at any level, no function or method has a receiver, no
    constant has a type, and the kind of every type is the word [type]. *)
Theorem extractor_leaves_fields_empty (o : MapOrders)
  (render : list Node -> option string) (e : Loc) :
  exists pkg,
    ParsePackagePage o render e = Some (Ok pkg)
    /\ Package.Module_ pkg = "" /\ Package.Synopsis pkg = ""
    /\ Package.ScrapedAt pkg = zeroTime /\ Package.Examples pkg = []
    /\ Forall (fun f => Function.Receiver f = "" /\ Function.Examples f = [])
         (Package.Functions pkg)
    /\ Forall (fun t => Type_.Kind t = "type" /\ Type_.Examples t = []
                        /\ Forall (fun m => Function.Receiver m = ""
                                            /\ Function.Examples m = [])
                             (Type_.Methods t))
         (Package.Types pkg)
    /\ Forall (fun c => Constant.Type_ c = "") (Package.Constants pkg).
Proof.
  destruct (ParsePackagePage_fields o render e) as [readme [processed E]].
  eexists. split; [exact E|].
  cbn [Package.Module_ Package.Synopsis Package.ScrapedAt Package.Examples
       Package.Functions Package.Types Package.Constants].
  repeat split.
  - apply Forall_forall. intros f Hf. unfold functionsOf in Hf.
    apply filterMap_In in Hf as [s [_ Hs]].
    now destruct (functionOf_shape s f Hs) as [_ [_ [R X]]].
  - apply Forall_forall. intros t Ht. unfold typesOf in Ht.
    apply filterMap_In in Ht as [s [_ Hs]].
    destruct (typeOf_shape s t Hs) as [K [X [_ M]]].
    repeat split; try assumption.
    eapply Forall_impl; [|exact M]. cbv beta. intros m [_ H]. exact H.
  - apply Forall_forall. intros c Hc. unfold constantsOf in Hc.
    apply filterMap_In in Hc as [[i s] [_ Hs]]. cbn [fst snd] in Hs.
    now destruct (constantOf_shape i s c Hs) as [_ [_ [_ [_ T]]]].
Qed.

(** X7.  No entry of a record is without its declaration: every constant
    has a value, every variable a declaration (its field [Type]), every
    function a signature, and every method a name or a signature; these
    texts, and the names and descriptions of constants and variables, have
    no white space at either end. *)
Theorem entries_have_declarations (o : MapOrders)
  (render : list Node -> option string) (e : Loc) :
  exists pkg,
    ParsePackagePage o render e = Some (Ok pkg)
    /\ Forall (fun c => Constant.Value c <> ""
                        /\ TrimSpace (Constant.Value c) = Constant.Value c
                        /\ TrimSpace (Constant.Name c) = Constant.Name c
                        /\ TrimSpace (Constant.Description c) = Constant.Description c)
         (Package.Constants pkg)
    /\ Forall (fun v => Variable_.Type_ v <> ""
                        /\ TrimSpace (Variable_.Type_ v) = Variable_.Type_ v
                        /\ TrimSpace (Variable_.Name v) = Variable_.Name v
                        /\ TrimSpace (Variable_.Description v) = Variable_.Description v)
         (Package.Variables pkg)
    /\ Forall (fun f => Function.Signature f <> ""
                        /\ TrimSpace (Function.Signature f) = Function.Signature f)
         (Package.Functions pkg)
    /\ Forall (fun t => Forall (fun m => Function.Name m <> ""
                                         \/ Function.Signature m <> "")
                          (Type_.Methods t))
         (Package.Types pkg).
Proof.
  destruct (ParsePackagePage_fields o render e) as [readme [processed E]].
  eexists. split; [exact E|].
  cbn [Package.Functions Package.Types Package.Constants Package.Variables].
  repeat split.
  - apply Forall_forall. intros c Hc. unfold constantsOf in Hc.
    apply filterMap_In in Hc as [[i s] [_ Hs]]. cbn [fst snd] in Hs.
    destruct (constantOf_shape i s c Hs) as [A [B [C [D _]]]]. auto.
  - apply Forall_forall. intros v Hv. unfold variablesOf in Hv.
    apply filterMap_In in Hv as [[i s] [_ Hs]]. cbn [fst snd] in Hs.
    destruct (variableOf_shape i s v Hs) as [A [B [C D]]]. auto.
  - apply Forall_forall. intros f Hf. unfold functionsOf in Hf.
    apply filterMap_In in Hf as [s [_ Hs]].
    destruct (functionOf_shape s f Hs) as [A [B _]]. auto.
  - apply Forall_forall. intros t Ht. unfold typesOf in Ht.
    apply filterMap_In in Ht as [s [_ Hs]].
    destruct (typeOf_shape s t Hs) as [_ [_ [_ M]]].
    eapply Forall_impl; [|exact M]. cbv beta. intros m [H _]. exact H.
Qed.

(** X8.  The two README fields of a record go together: the processed
    README is what the reducer makes of the raw one, under the orders of
    the map visits of that call. *)
Theorem processed_readme_is_reduced_readme (o : MapOrders)
  (render : list Node -> option string) (e : Loc) :
  exists pkg,
    ParsePackagePage o render e = Some (Ok pkg)
    /\ ConvertHTMLToMarkdown o (Package.Readme pkg)
       = Some (Package.ProcessedReadme pkg)
    /\ (Find [e] selReadme = [] ->
        Package.Readme pkg = "" /\ Package.ProcessedReadme pkg = "").
Proof.
  unfold ParsePackagePage, readmeOf.
  destruct (Find [e] selReadme) as [|l ls] eqn:F.
  - cbn [Length List.length Nat.ltb Nat.leb]. eexists. split; [reflexivity|].
    cbn [Package.Readme Package.ProcessedReadme]. split; [reflexivity|auto].
  - change (0 <? Length (l :: ls))%nat with true. cbv iota.
    destruct (Html render (l :: ls)) as [html|].
    + destruct (ConvertHTMLToMarkdown_returns o html) as [md E]. rewrite E.
      eexists. split; [reflexivity|].
      cbn [Package.Readme Package.ProcessedReadme]. split; [exact E|discriminate].
    + eexists. split; [reflexivity|].
      cbn [Package.Readme Package.ProcessedReadme]. split; [reflexivity|discriminate].
Qed.

Lemma licenseStep_keeps (acc : string * string) (el : Loc) :
  (HasPrefix (snd acc) "/" = false /\ (fst acc = "" -> snd acc = "")
   /\ TrimSpace (fst acc) = fst acc) ->
  HasPrefix (snd (licenseStep acc el)) "/" = false
  /\ (fst (licenseStep acc el) = "" -> snd (licenseStep acc el) = "")
  /\ TrimSpace (fst (licenseStep acc el)) = fst (licenseStep acc el).
Proof.
  intros [I1 [I2 I3]]. unfold licenseStep.
  assert (T : (if TrimSpace (Text [el]) =? "" then TrimSpace (Text [el])
               else TrimSpace (Text [el])) = TrimSpace (Text [el]))
    by (now destruct (TrimSpace (Text [el]) =? "")).
  rewrite T.
  destruct (TrimSpace (Text [el]) =? "") eqn:E; cbn [negb]; [auto|].
  apply String.eqb_neq in E. cbn [fst snd].
  split; [|split; [intros C; contradiction|apply TrimSpace_idempotent]].
  destruct (Attr el "href" =? "") eqn:H; cbn [negb]; [exact I1|].
  destruct (HasPrefix (Attr el "href") "/") eqn:P; [reflexivity|exact P].
Qed.

(** X9.  The licence of a record: its URL never begins with a slash (a
    link that does is made absolute on pkg.go.dev), there is no URL
    without a licence name, and the name has no white space at either
    end. *)
Theorem license_url_not_rooted (o : MapOrders)
  (render : list Node -> option string) (e : Loc) :
  exists pkg,
    ParsePackagePage o render e = Some (Ok pkg)
    /\ HasPrefix (Package.LicenseURL pkg) "/" = false
    /\ (Package.License pkg = "" -> Package.LicenseURL pkg = "")
    /\ TrimSpace (Package.License pkg) = Package.License pkg.
Proof.
  destruct (ParsePackagePage_fields o render e) as [readme [processed E]].
  eexists. split; [exact E|]. cbn [Package.LicenseURL Package.License].
  unfold licenseOf.
  assert (G : forall els acc,
             (HasPrefix (snd acc) "/" = false /\ (fst acc = "" -> snd acc = "")
              /\ TrimSpace (fst acc) = fst acc) ->
             HasPrefix (snd (fold_left licenseStep els acc)) "/" = false
             /\ (fst (fold_left licenseStep els acc) = ""
                 -> snd (fold_left licenseStep els acc) = "")
             /\ TrimSpace (fst (fold_left licenseStep els acc))
                = fst (fold_left licenseStep els acc)).
  { induction els as [|el els IH]; intros acc I; [exact I|].
    cbn [fold_left]. apply IH. now apply licenseStep_keeps. }
  apply G. cbn [fst snd]. repeat split.
Qed.

End ParserShape.

Open Scope string_scope.
Open Scope list_scope.

(** * The orchestrator: what a batch accounts for *)

Section BatchFacts.
Import GoStrings Utils Models Dom Parser Scraper DomNotions ScraperNotions BatchNotions.

Variable Visit : nat -> string -> VisitResult.
Variable clock : nat -> Time.
Variable orders : nat -> MapOrders.
Variable render : list Node -> option string.

(** One import path adds one record, of that path, or one failure, about
    that path; only a record of a scrape outside the test mode moves the
    counter. *)
Lemma into_step (cfg : ScrapingConfig) (b : Batch) (st : State) (p : string) :
  exists b' st',
    scrapeInto Visit clock orders render cfg (b, st) p = Some (b', st')
    /\ ((exists pkg, packages b' = packages b ++ [pkg] /\ errors b' = errors b
                     /\ Package.ImportPath pkg = p /\ nonBlank p = true
                     /\ PackagesScraped st'
                        = PackagesScraped st + (if TestMode cfg then 0 else 1))
        \/ (exists cause, packages b' = packages b
                          /\ errors b' = errors b ++ [ErrScrape p cause]
                          /\ PackagesScraped st' = PackagesScraped st)).
Proof.
  unfold scrapeInto, ScrapePackage.
  destruct (nonBlank p) eqn:B.
  - destruct (TestMode cfg) eqn:T.
    + rewrite (scrape_mock Visit clock orders render) by assumption.
      eexists _, _. split; [reflexivity|]. left. eexists.
      cbn [packages errors logCall PackagesScraped mockPackage Package.ImportPath].
      repeat split. lia.
    + pose proof (scrape_visit Visit clock orders render cfg st p B T) as H.
      destruct (Visit _ _) as [cause|[root|]].
      * rewrite H. eexists _, _. split; [reflexivity|]. right. eexists.
        cbn [packages errors logCall PackagesScraped]. repeat split.
      * destruct H as [pkg [_ E]]. rewrite E.
        eexists _, _. split; [reflexivity|]. left. eexists.
        cbn [packages errors logCall countScraped PackagesScraped
             Package.setImportPathScrapedAt Package.ImportPath].
        repeat split. lia.
      * rewrite H. eexists _, _. split; [reflexivity|]. right. eexists.
        cbn [packages errors logCall PackagesScraped]. repeat split.
  - rewrite (scrape_blank Visit clock orders render) by assumption.
    eexists _, _. split; [reflexivity|]. right. eexists.
    cbn [packages errors]. repeat split.
Qed.

Lemma grown_none (cfg : ScrapingConfig) (b : Batch) (st : State) :
  grown cfg b st b st [].
Proof.
  exists [], []. rewrite !app_nil_r. cbn [map app List.length].
  repeat split; try constructor. destruct (TestMode cfg); lia.
Qed.

Lemma grown_one (cfg : ScrapingConfig) (b : Batch) (st : State) (p : string) :
  exists b' st',
    scrapeInto Visit clock orders render cfg (b, st) p = Some (b', st')
    /\ grown cfg b st b' st' [p].
Proof.
  destruct (into_step cfg b st p) as [b' [st' [E H]]].
  exists b', st'. split; [exact E|].
  destruct H as [[pkg [Hp [He [Hi [Hb Hs]]]]]|[cause [Hp [He Hs]]]].
  - exists [pkg], []. rewrite app_nil_r. cbn [map app List.length].
    split; [exact Hp|]. split; [exact He|].
    split; [rewrite Hi; apply Permutation_refl|].
    split; [constructor; [rewrite Hi; exact Hb|constructor]|].
    split; [constructor|]. destruct (TestMode cfg); lia.
  - exists [], [ErrScrape p cause]. rewrite app_nil_r.
    cbn [map app List.length scrapedPath].
    split; [exact Hp|]. split; [exact He|].
    split; [apply Permutation_refl|].
    split; [constructor|].
    split; [constructor; [eauto|constructor]|]. destruct (TestMode cfg); lia.
Qed.

Lemma grown_more (cfg : ScrapingConfig) (b b1 b2 : Batch) (st st1 st2 : State)
  (l1 l2 : list string) :
  grown cfg b st b1 st1 l1 -> grown cfg b1 st1 b2 st2 l2 ->
  grown cfg b st b2 st2 (l1 ++ l2).
Proof.
  intros [n1 [f1 [P1 [E1 [M1 [B1 [S1 C1]]]]]]] [n2 [f2 [P2 [E2 [M2 [B2 [S2 C2]]]]]]].
  exists (n1 ++ n2), (f1 ++ f2).
  rewrite P2, P1, E2, E1, <- !app_assoc.
  split; [reflexivity|]. split; [reflexivity|]. split.
  - rewrite !map_app.
    apply Permutation_trans
      with ((map Package.ImportPath n1 ++ map scrapedPath f1)
            ++ (map Package.ImportPath n2 ++ map scrapedPath f2)).
    + rewrite <- !app_assoc. apply Permutation_app_head.
      rewrite !app_assoc. apply Permutation_app_tail. apply Permutation_app_comm.
    + now apply Permutation_app.
  - split; [apply Forall_app; now split|].
    split; [apply Forall_app; now split|].
    rewrite C2, C1, length_app. destruct (TestMode cfg); lia.
Qed.

Lemma sequential_grown (cfg : ScrapingConfig) (importPaths : list string) :
  forall b st,
  exists b' st',
    scrapeSequential Visit clock orders render cfg (b, st) importPaths = Some (b', st')
    /\ grown cfg b st b' st' importPaths.
Proof.
  induction importPaths as [|p rest IH]; intros b st.
  - exists b, st. split; [reflexivity|apply grown_none].
  - destruct (grown_one cfg b st p) as [b1 [st1 [E G1]]].
    destruct (IH b1 st1) as [b' [st' [E' G']]].
    exists b', st'. cbn [scrapeSequential]. rewrite E. split; [exact E'|].
    exact (grown_more _ _ _ _ _ _ _ _ _ G1 G').
Qed.

Lemma parallel_grown (cfg : ScrapingConfig) (sched : Schedule)
  (importPaths : list string) (order : list nat) :
  forall b st,
  exists b' st',
    scrapeParallel Visit clock orders render cfg sched importPaths (b, st) order
    = Some (b', st')
    /\ grown cfg b st b' st'
         (pathsAt importPaths (filter (fun i => negb (abandoned sched i)) order)).
Proof.
  induction order as [|i rest IH]; intros b st.
  - exists b, st. split; [reflexivity|apply grown_none].
  - cbn [scrapeParallel filter].
    destruct (nth_error importPaths i) as [p|] eqn:N.
    + destruct (abandoned sched i); cbn [negb].
      * apply IH.
      * destruct (grown_one cfg b st p) as [b1 [st1 [E G1]]]. rewrite E.
        destruct (IH b1 st1) as [b' [st' [E' G']]].
        exists b', st'. split; [exact E'|].
        unfold pathsAt. cbn [flat_map]. rewrite N.
        exact (grown_more _ _ _ _ _ _ _ _ _ G1 G').
    + destruct (IH b st) as [b' [st' [E' G']]].
      exists b', st'. split; [exact E'|].
      destruct (abandoned sched i); cbn [negb]; [exact G'|].
      unfold pathsAt. cbn [flat_map]. rewrite N. exact G'.
Qed.

Lemma pathsAt_all (importPaths : list string) :
  pathsAt importPaths (seq 0 (List.length importPaths)) = importPaths.
Proof.
  unfold pathsAt.
  assert (G : forall l pre : list string,
             flat_map (fun i => match nth_error (pre ++ l) i with
                                | Some p => [p]
                                | None => []
                                end) (seq (List.length pre) (List.length l)) = l).
  { induction l as [|x l IH]; intros pre; [reflexivity|].
    cbn [List.length seq flat_map].
    rewrite nth_error_app2 by lia. rewrite Nat.sub_diag. cbn [nth_error app].
    f_equal. specialize (IH (pre ++ [x])).
    rewrite <- app_assoc, length_app in IH. cbn [List.length app] in IH.
    now rewrite Nat.add_1_r in IH. }
  exact (G importPaths []).
Qed.

Lemma filter_perm {A : Type} (f : A -> bool) (l l' : list A) :
  Permutation l l' -> Permutation (filter f l) (filter f l').
Proof.
  intros P. induction P as [|x l l' P IH|x y l|l l' l'' P1 IH1 P2 IH2]; cbn [filter].
  - constructor.
  - destruct (f x); [now constructor|exact IH].
  - destruct (f x), (f y); try apply Permutation_refl. apply perm_swap.
  - now apply Permutation_trans with (filter f l').
Qed.

Lemma flat_map_split {A B : Type} (g : A -> list B) (f : A -> bool) (l : list A) :
  Permutation (flat_map g (filter (fun x => negb (f x)) l) ++ flat_map g (filter f l))
              (flat_map g l).
Proof.
  induction l as [|x l IH]; [constructor|].
  cbn [filter flat_map]. destruct (f x); cbn [negb flat_map].
  - apply Permutation_trans
      with (g x ++ flat_map g (filter (fun x => negb (f x)) l)
              ++ flat_map g (filter f l)).
    + apply Permutation_app_swap_app.
    + now apply Permutation_app_head.
  - rewrite <- app_assoc. now apply Permutation_app_head.
Qed.

(** X10.  A batch accounts for every import path exactly once: as the
    import path of one of its records, as the path an entry of its slice
    [errors] is about, or, outside the test mode, as the path of a
    goroutine that returned on seeing the context cancelled.  No record is
    about a blank import path, and the error returned is the first entry
    of [errors]. *)
Theorem batch_accounts_for_every_path (cfg : ScrapingConfig) (sched : Schedule)
  (st : State) (importPaths : list string) :
  importPaths <> [] ->
  TestMode cfg = true
  \/ (TestMode cfg = false /\ (0 < MaxConcurrency cfg)%Z
      /\ ScheduleOK sched (List.length importPaths)) ->
  exists b st',
    (if TestMode cfg
     then scrapeSequential Visit clock orders render cfg (noBatch, st) importPaths
     else scrapeParallel Visit clock orders render cfg sched importPaths
            (noBatch, st) (completion sched))
    = Some (b, st')
    /\ ScrapePackages Visit clock orders render cfg sched st importPaths
       = Some (packages b, hd_error (errors b), st')
    /\ Permutation
         (map Package.ImportPath (packages b) ++ map scrapedPath (errors b)
          ++ (if TestMode cfg then []
              else pathsAt importPaths
                     (filter (abandoned sched) (seq 0 (List.length importPaths)))))
         importPaths
    /\ Forall (fun pkg => nonBlank (Package.ImportPath pkg) = true) (packages b)
    /\ Forall (fun e => exists p cause, e = ErrScrape p cause) (errors b).
Proof.
  intros NE M. unfold ScrapePackages, noBatch.
  destruct importPaths as [|p0 rest] eqn:Eids; [congruence|]. rewrite <- Eids in *.
  clear NE.
  destruct M as [T|[T [C S]]]; rewrite T.
  - destruct (sequential_grown cfg importPaths {| packages := []; errors := [] |} st)
      as [b' [st' [E [news [fails [P [F [Pm [B [Sh _]]]]]]]]]].
    rewrite E. cbn [option_map]. rewrite batchResult_eq.
    cbn [packages errors app] in P, F.
    exists b', st'. split; [reflexivity|]. split; [reflexivity|].
    rewrite P, F, app_nil_r. repeat split; assumption.
  - assert (C1 : (MaxConcurrency cfg <? 0)%Z = false) by (apply Z.ltb_ge; lia).
    assert (C2 : (MaxConcurrency cfg =? 0)%Z = false) by (apply Z.eqb_neq; lia).
    rewrite C1, C2.
    destruct (parallel_grown cfg sched importPaths (completion sched)
                {| packages := []; errors := [] |} st)
      as [b' [st' [E [news [fails [P [F [Pm [B [Sh _]]]]]]]]]].
    rewrite E. cbn [option_map]. rewrite batchResult_eq.
    cbn [packages errors app] in P, F.
    exists b', st'. split; [reflexivity|]. split; [reflexivity|].
    rewrite P, F.
    split; [|split; assumption].
    rewrite app_assoc.
    apply Permutation_trans
      with (pathsAt importPaths
              (filter (fun i => negb (abandoned sched i))
                 (seq 0 (List.length importPaths)))
            ++ pathsAt importPaths
                 (filter (abandoned sched) (seq 0 (List.length importPaths)))).
    + apply Permutation_app_tail.
      apply Permutation_trans with (1 := Pm).
      unfold pathsAt. apply Permutation_flat_map. now apply filter_perm.
    + apply Permutation_trans
        with (pathsAt importPaths (seq 0 (List.length importPaths))).
      * apply flat_map_split.
      * rewrite pathsAt_all. apply Permutation_refl.
Qed.

(** X11.  The counter of packages scraped moves by one for each record of
    a batch outside the test mode, and does not move in the test mode,
    whatever the batch returns. *)
Theorem counter_counts_live_records (cfg : ScrapingConfig) (sched : Schedule)
  (st : State) (importPaths : list string)
  (pkgs : list Package.t) (err : option error) (st' : State) :
  ScrapePackages Visit clock orders render cfg sched st importPaths
  = Some (pkgs, err, st') ->
  PackagesScraped st'
  = PackagesScraped st + (if TestMode cfg then 0 else List.length pkgs).
Proof.
  unfold ScrapePackages. destruct importPaths as [|p0 rest] eqn:Eids.
  - intros H. injection H as <- _ <-. destruct (TestMode cfg); cbn [List.length]; lia.
  - rewrite <- Eids. clear Eids p0 rest.
    assert (G : forall b' st1 paths,
               grown cfg {| packages := []; errors := [] |} st b' st1 paths ->
               Some (batchResult (b', st1)) = Some (pkgs, err, st') ->
               PackagesScraped st'
               = PackagesScraped st + (if TestMode cfg then 0 else List.length pkgs)).
    { intros b' st1 paths [news [fails [P [_ [_ [_ [_ C]]]]]]] H.
      rewrite batchResult_eq in H. injection H as <- _ <-.
      cbn [packages app] in P. now rewrite P. }
    destruct (TestMode cfg).
    + destruct (sequential_grown cfg importPaths {| packages := []; errors := [] |} st)
        as [b' [st1 [E Gr]]].
      rewrite E. cbn [option_map]. now apply G with (paths := importPaths).
    + destruct (MaxConcurrency cfg <? 0)%Z; [discriminate|].
      destruct (MaxConcurrency cfg =? 0)%Z.
      * destruct (forallb (abandoned sched) (seq 0 (List.length importPaths)));
          [|discriminate].
        cbn [batchResult errors packages]. intros H. injection H as <- _ <-.
        cbn [List.length]. lia.
      * destruct (parallel_grown cfg sched importPaths (completion sched)
                    {| packages := []; errors := [] |} st) as [b' [st1 [E Gr]]].
        rewrite E. cbn [option_map]. eapply G. exact Gr.
Qed.

(** X12.  The error for an empty list of import paths is returned for an
    empty list only, and then nothing else happens: a batch over a list
    that is not empty never returns it. *)
Theorem no_import_paths_only_when_empty (cfg : ScrapingConfig) (sched : Schedule)
  (st : State) (importPaths : list string) (pkgs : list Package.t) (st' : State) :
  ScrapePackages Visit clock orders render cfg sched st importPaths
  = Some (pkgs, Some ErrNoImportPaths, st')
  <-> importPaths = [] /\ pkgs = [] /\ st' = st.
Proof.
  split.
  - unfold ScrapePackages. destruct importPaths as [|p0 rest] eqn:Eids.
    + intros H. injection H as <- <-. auto.
    + rewrite <- Eids. clear Eids p0 rest.
      assert (G : forall b' st1 paths,
                 grown cfg {| packages := []; errors := [] |} st b' st1 paths ->
                 Some (batchResult (b', st1))
                 <> Some (pkgs, Some ErrNoImportPaths, st')).
      { intros b' st1 paths [news [fails [_ [F [_ [_ [Sh _]]]]]]] H.
        rewrite batchResult_eq in H. injection H as _ Hh _.
        cbn [errors app] in F. rewrite F in Hh.
        destruct Sh as [|e fails [p [cause ->]] _]; discriminate. }
      destruct (TestMode cfg).
      * destruct (sequential_grown cfg importPaths
                    {| packages := []; errors := [] |} st) as [b' [st1 [E Gr]]].
        rewrite E. cbn [option_map]. intros H. now apply G in Gr.
      * destruct (MaxConcurrency cfg <? 0)%Z; [discriminate|].
        destruct (MaxConcurrency cfg =? 0)%Z.
        -- destruct (forallb (abandoned sched) (seq 0 (List.length importPaths)));
             discriminate.
        -- destruct (parallel_grown cfg sched importPaths (completion sched)
                       {| packages := []; errors := [] |} st) as [b' [st1 [E Gr]]].
           rewrite E. cbn [option_map]. intros H. now apply G in Gr.
  - intros [-> [-> ->]]. reflexivity.
Qed.

End BatchFacts.

Section BatchExamples.
Import GoStrings Utils Models Dom Parser Scraper DomNotions ScraperNotions BatchNotions.

Lemma batch_accounts_for_every_path_witness :
  ["a"; " "; "b"] <> []
  /\ (TestMode DefaultConfig = false /\ (0 < MaxConcurrency DefaultConfig)%Z
      /\ ScheduleOK (oneCancelled [2; 0; 1] 2) (List.length ["a"; " "; "b"]))
  /\ exists b st',
       (if TestMode DefaultConfig
        then scrapeSequential (serving emptyPage) stoppedClock sourceOrder
               renderNothing DefaultConfig (noBatch, emptyState) ["a"; " "; "b"]
        else scrapeParallel (serving emptyPage) stoppedClock sourceOrder
               renderNothing DefaultConfig (oneCancelled [2; 0; 1] 2)
               ["a"; " "; "b"] (noBatch, emptyState)
               (completion (oneCancelled [2; 0; 1] 2)))
       = Some (b, st')
       /\ ScrapePackages (serving emptyPage) stoppedClock sourceOrder renderNothing
            DefaultConfig (oneCancelled [2; 0; 1] 2) emptyState ["a"; " "; "b"]
          = Some (packages b, hd_error (errors b), st')
       /\ Permutation
            (map Package.ImportPath (packages b) ++ map scrapedPath (errors b)
             ++ (if TestMode DefaultConfig then []
                 else pathsAt ["a"; " "; "b"]
                        (filter (abandoned (oneCancelled [2; 0; 1] 2))
                           (seq 0 (List.length ["a"; " "; "b"])))))
            ["a"; " "; "b"]
       /\ Forall (fun pkg => nonBlank (Package.ImportPath pkg) = true) (packages b)
       /\ Forall (fun e => exists p cause, e = ErrScrape p cause) (errors b)
       /\ map Package.ImportPath (packages b) = ["a"]
       /\ errors b = [ErrScrape " " ErrEmptyImportPath].
Proof.
  assert (S : ScheduleOK (oneCancelled [2; 0; 1] 2) (List.length ["a"; " "; "b"])).
  { unfold ScheduleOK. cbn [completion oneCancelled List.length seq].
    apply (Permutation_cons_app [0; 1] [] 2).
    apply Permutation_refl. }
  split; [discriminate|].
  split; [split; [reflexivity|split; [reflexivity|exact S]]|].
  destruct (batch_accounts_for_every_path (serving emptyPage) stoppedClock
              sourceOrder renderNothing DefaultConfig (oneCancelled [2; 0; 1] 2)
              emptyState ["a"; " "; "b"])
    as [b [st' [E [R [P [B F]]]]]].
  - discriminate.
  - right. split; [reflexivity|split; [reflexivity|exact S]].
  - exists b, st'. split; [exact E|]. split; [exact R|]. split; [exact P|].
    split; [exact B|]. split; [exact F|].
    vm_compute in E. injection E as <- _. split; reflexivity.
Defined.

Lemma counter_counts_live_records_witness :
  ScrapePackages (serving emptyPage) stoppedClock sourceOrder renderNothing
    DefaultConfig (inOrder [1; 0]) emptyState ["a"; "b"]
  = Some ([ Package.setImportPathScrapedAt emptyPackage "b" (instant 0);
            Package.setImportPathScrapedAt emptyPackage "a" (instant 0) ],
          None,
          {| PackagesScraped := 2; calls := ["b"; "a"] |})
  /\ 2 = 0 + (if TestMode DefaultConfig then 0 else 2).
Proof.
  assert (E : ScrapePackages (serving emptyPage) stoppedClock sourceOrder renderNothing
                DefaultConfig (inOrder [1; 0]) emptyState ["a"; "b"]
              = Some ([ Package.setImportPathScrapedAt emptyPackage "b" (instant 0);
                        Package.setImportPathScrapedAt emptyPackage "a" (instant 0) ],
                      None,
                      {| PackagesScraped := 2; calls := ["b"; "a"] |}))
    by (vm_compute; reflexivity).
  split; [exact E|].
  exact (counter_counts_live_records (serving emptyPage) stoppedClock sourceOrder
           renderNothing DefaultConfig (inOrder [1; 0]) emptyState
           ["a"; "b"] _ _ _ E).
Defined.

End BatchExamples.

Section TestModeFacts.
Import GoStrings Utils Models Dom Parser Scraper DomNotions ScraperNotions BatchNotions.

Variables Visit Visit' : nat -> string -> VisitResult.
Variable clock : nat -> Time.
Variables orders orders' : nat -> MapOrders.
Variables render render' : list Node -> option string.

Lemma mock_scrape_same (cfg : ScrapingConfig) (st : State) (p : string) :
  TestMode cfg = true ->
  ScrapePackageWithRaw Visit clock orders render cfg st p
  = ScrapePackageWithRaw Visit' clock orders' render' cfg st p.
Proof.
  intros T. unfold ScrapePackageWithRaw.
  destruct (TrimSpace p =? ""); [reflexivity|]. now rewrite T.
Qed.

Lemma mock_sequential_same (cfg : ScrapingConfig) (importPaths : list string) :
  TestMode cfg = true ->
  forall acc,
    scrapeSequential Visit clock orders render cfg acc importPaths
    = scrapeSequential Visit' clock orders' render' cfg acc importPaths.
Proof.
  intros T. induction importPaths as [|p rest IH]; intros acc; [reflexivity|].
  cbn [scrapeSequential].
  assert (E : scrapeInto Visit clock orders render cfg acc p
              = scrapeInto Visit' clock orders' render' cfg acc p).
  { unfold scrapeInto, ScrapePackage. destruct acc as [b st].
    now rewrite (mock_scrape_same cfg st p T). }
  rewrite E. destruct (scrapeInto Visit' clock orders' render' cfg acc p); [apply IH|].
  reflexivity.
Qed.

(** X13.  In the test mode a batch depends on nothing around it but the
    clock: not on the network, not on the renderer, not on the orders of
    the map visits, and not on the context or the scheduler, whose
    cancellation the sequential loop does not follow. *)
Theorem test_mode_ignores_surroundings (cfg : ScrapingConfig)
  (sched sched' : Schedule) (st : State) (importPaths : list string) :
  TestMode cfg = true ->
  ScrapePackages Visit clock orders render cfg sched st importPaths
  = ScrapePackages Visit' clock orders' render' cfg sched' st importPaths.
Proof.
  intros T. unfold ScrapePackages. destruct importPaths as [|p0 rest]; [reflexivity|].
  rewrite T. now rewrite (mock_sequential_same cfg (p0 :: rest) T).
Qed.

End TestModeFacts.

Section TestModeExamples.
Import GoStrings Utils Models Dom Parser Scraper DomNotions ScraperNotions BatchNotions.

Lemma test_mode_ignores_surroundings_witness :
  TestMode testConfig = true
  /\ ScrapePackages (serving emptyPage) stoppedClock sourceOrder renderNothing
       testConfig (inOrder [0; 1]) emptyState ["a"; "b"]
     = ScrapePackages offline stoppedClock (fun _ => Notions.reversedOrders) (fun _ => None)
         testConfig (allCancelled [1; 0]) emptyState ["a"; "b"].
Proof.
  split; [reflexivity|].
  apply (test_mode_ignores_surroundings (serving emptyPage) offline stoppedClock
           sourceOrder (fun _ => Notions.reversedOrders) renderNothing (fun _ => None)
           testConfig (inOrder [0; 1]) (allCancelled [1; 0]) emptyState ["a"; "b"]).
  reflexivity.
Defined.

End TestModeExamples.

Open Scope list_scope.
Open Scope string_scope.

(** * URLs and import paths *)

Section URLFacts.
Import GoStrings Utils Models Dom Parser Scraper DomNotions ScraperNotions.

Lemma drop_app_length (a b : string) : drop (String.length a) (a ++ b) = b.
Proof. induction a as [|c a IH]; [reflexivity|exact IH]. Qed.

Lemma HasSuffix_app (p sfx : string) : HasSuffix (p ++ sfx) sfx = true.
Proof.
  unfold HasSuffix. rewrite slength_app.
  replace (String.length p + String.length sfx - String.length sfx)
    with (String.length p) by lia.
  rewrite drop_app_length, String.eqb_refl.
  replace (String.length sfx <=? String.length p + String.length sfx)%nat with true
    by (symmetry; apply Nat.leb_le; lia).
  reflexivity.
Qed.

Lemma TrimSuffix_app (p sfx : string) : TrimSuffix (p ++ sfx) sfx = p.
Proof.
  unfold TrimSuffix. rewrite HasSuffix_app, slength_app.
  replace (String.length p + String.length sfx - String.length sfx)
    with (String.length p) by lia.
  apply take_app_length.
Qed.

Lemma TrimSuffix_cut (s sfx : string) :
  HasSuffix s sfx = true -> s = TrimSuffix s sfx ++ sfx.
Proof.
  intros H. unfold TrimSuffix. rewrite H. unfold HasSuffix in H.
  apply andb_true_iff in H as [_ H]. apply String.eqb_eq in H.
  rewrite <- H at 2. symmetry. apply take_drop.
Qed.

Lemma TrimSuffix_none (s sfx : string) :
  HasSuffix s sfx = false -> TrimSuffix s sfx = s.
Proof. intros H. unfold TrimSuffix. now rewrite H. Qed.

Lemma TrimPrefix_self (pfx rest : string) : TrimPrefix (pfx ++ rest) pfx = rest.
Proof. unfold TrimPrefix. now rewrite CutPrefix_self. Qed.

Lemma ValidateURL_cut (url : string) :
  ValidateURL url = true ->
  url = "https://pkg.go.dev/" ++ TrimPrefix url "https://pkg.go.dev/".
Proof.
  unfold ValidateURL, HasPrefix, TrimPrefix.
  destruct (CutPrefix url "https://pkg.go.dev/") as [r|] eqn:E; [|discriminate].
  intros _. now apply CutPrefix_app in E.
Qed.

(** X14.  What [ExtractImportPath] returns, for every URL.  It returns an
    import path exactly for a URL made of the prefix of pkg.go.dev and of
    that path, which is not empty, with at most one slash more at the end:
    one slash at the end is removed, and no more than one.  It refuses the
    other URLs: those without the prefix, and the prefix alone, with or
    without a slash after it. *)
Theorem ExtractImportPath_cases (url : string) :
  (forall p, ExtractImportPath url = inl p
             <-> p <> ""
                 /\ ((url = "https://pkg.go.dev/" ++ p /\ HasSuffix p "/" = false)
                     \/ url = "https://pkg.go.dev/" ++ p ++ "/"))
  /\ (ExtractImportPath url = inr ErrNotPkgGoDev <-> ValidateURL url = false)
  /\ (ExtractImportPath url = inr ErrNoImportPathInURL
      <-> url = "https://pkg.go.dev/" \/ url = "https://pkg.go.dev//").
Proof.
  unfold ExtractImportPath.
  destruct (ValidateURL url) eqn:V; cbn [negb].
  - pose proof (ValidateURL_cut url V) as U.
    set (r := TrimPrefix url "https://pkg.go.dev/") in *.
    destruct (HasSuffix r "/") eqn:S.
    + pose proof (TrimSuffix_cut r "/" S) as R.
      set (q := TrimSuffix r "/") in *.
      assert (Uq : url = "https://pkg.go.dev/" ++ q ++ "/") by (now rewrite U, R).
      destruct (q =? "") eqn:Q.
      * apply String.eqb_eq in Q. rewrite Q in *. cbn [append] in Uq.
        split; [|split].
        -- intros p. split; [discriminate|].
           intros [NE [[Hu Hs]|Hu]].
           ++ rewrite Uq in Hu. injection Hu as <-. discriminate.
           ++ rewrite Uq in Hu. exfalso. apply NE. clear - Hu.
              injection Hu as Hu. destruct p; [reflexivity|].
              cbn [append] in Hu. injection Hu as _ Hu. destruct p; discriminate.
        -- split; discriminate.
        -- split; [auto|reflexivity].
      * apply String.eqb_neq in Q. split; [|split].
        -- intros p. split.
           ++ intros H. injection H as <-. split; [exact Q|now right].
           ++ intros [NE [[Hu Hs]|Hu]].
              ** exfalso. rewrite Uq in Hu.
                 assert (Ep : p = q ++ "/").
                 { clear - Hu. cbn [append] in Hu. now injection Hu as <-. }
                 rewrite Ep, HasSuffix_app in Hs. discriminate.
              ** f_equal. rewrite Uq in Hu.
                 assert (Ep : q ++ "/" = p ++ "/").
                 { clear - Hu. cbn [append] in Hu. now injection Hu. }
                 rewrite <- (TrimSuffix_app q "/"), <- (TrimSuffix_app p "/").
                 now rewrite Ep.
        -- split; discriminate.
        -- split; [discriminate|].
           intros [Hu|Hu]; rewrite Uq in Hu; exfalso; apply Q; clear - Hu.
           ++ destruct q; [reflexivity|]. cbn [append] in Hu.
              injection Hu as Hu. destruct q; discriminate.
           ++ injection Hu as Hu. destruct q; [reflexivity|].
              cbn [append] in Hu. injection Hu as _ Hu. destruct q; discriminate.
    + rewrite (TrimSuffix_none r "/" S).
      destruct (r =? "") eqn:Q.
      * apply String.eqb_eq in Q. rewrite Q in *. cbn [append] in U.
        split; [|split].
        -- intros p. split; [discriminate|].
           intros [NE [[Hu Hs]|Hu]]; rewrite U in Hu; exfalso.
           ++ apply NE. clear - Hu. injection Hu as Hu. now destruct p.
           ++ clear - Hu. injection Hu as Hu. destruct p; discriminate.
        -- split; discriminate.
        -- split; [auto|reflexivity].
      * apply String.eqb_neq in Q. split; [|split].
        -- intros p. split.
           ++ intros H. injection H as <-. split; [exact Q|now left].
           ++ intros [NE [[Hu Hs]|Hu]]; rewrite U in Hu.
              ** f_equal. clear - Hu. cbn [append] in Hu. now injection Hu.
              ** exfalso.
                 assert (Er : r = p ++ "/").
                 { clear - Hu. cbn [append] in Hu. now injection Hu. }
                 rewrite Er, HasSuffix_app in S. discriminate.
        -- split; discriminate.
        -- split; [discriminate|].
           intros [Hu|Hu]; rewrite U in Hu.
           ++ exfalso. apply Q. clear - Hu. injection Hu as Hu. exact Hu.
           ++ exfalso. assert (Er : r = "/").
              { clear - Hu. cbn [append] in Hu. now injection Hu. }
              rewrite Er in S. discriminate.
  - split; [|split].
    + intros p. split; [discriminate|].
      intros [_ [[Hu _]|Hu]]; rewrite Hu in V; unfold ValidateURL in V;
        now rewrite HasPrefix_self in V.
    + split; reflexivity.
    + split; [discriminate|].
      intros [Hu|Hu]; rewrite Hu in V; discriminate.
Qed.

(** X15.  [ExtractImportPath] leads back from the URL the scraper visits:
    the URL named in the error of a failed visit is a URL of pkg.go.dev,
    and the import path extracted from it is the import path asked for,
    without the white space around it, when that does not end with a
    slash. *)
Theorem visited_url_leads_back (Visit : nat -> string -> VisitResult)
  (clock : nat -> Time) (orders : nat -> MapOrders)
  (render : list Node -> option string) (cfg : ScrapingConfig) (st : State)
  (importPath url cause : string) (st' : State) :
  ScrapePackageWithRaw Visit clock orders render cfg st importPath
  = Some (Err (ErrVisit url cause), st') ->
  ValidateURL url = true
  /\ (HasSuffix (TrimSpace importPath) "/" = false ->
      ExtractImportPath url = inl (TrimSpace importPath)).
Proof.
  unfold ScrapePackageWithRaw.
  destruct (TrimSpace importPath =? "") eqn:B; [discriminate|].
  destruct (TestMode cfg); [discriminate|].
  destruct (Visit _ _) as [c|[root|]]; try discriminate.
  - intros H. injection H as <- _ _.
    change (ValidateURL ("https://pkg.go.dev/" ++ TrimSpace importPath) = true
            /\ (HasSuffix (TrimSpace importPath) "/" = false ->
                ExtractImportPath ("https://pkg.go.dev/" ++ TrimSpace importPath)
                = inl (TrimSpace importPath))).
    split; [apply HasPrefix_self|].
    intros S. unfold ExtractImportPath, ValidateURL.
    rewrite HasPrefix_self, TrimPrefix_self, (TrimSuffix_none _ _ S), B.
    reflexivity.
  - destruct (ParsePackagePage _ _ _) as [[pkg|e]|]; discriminate.
Qed.

Lemma visited_url_leads_back_witness :
  ScrapePackageWithRaw aFailsBServes stoppedClock sourceOrder renderNothing
    DefaultConfig emptyState " a "
  = Some (Err (ErrVisit "https://pkg.go.dev/a" "connection refused"),
          {| PackagesScraped := 0; calls := [" a "] |})
  /\ ValidateURL "https://pkg.go.dev/a" = true
  /\ (HasSuffix (TrimSpace " a ") "/" = false ->
      ExtractImportPath "https://pkg.go.dev/a" = inl (TrimSpace " a ")).
Proof.
  assert (E : ScrapePackageWithRaw aFailsBServes stoppedClock sourceOrder
                renderNothing DefaultConfig emptyState " a "
              = Some (Err (ErrVisit "https://pkg.go.dev/a" "connection refused"),
                      {| PackagesScraped := 0; calls := [" a "] |}))
    by (vm_compute; reflexivity).
  split; [exact E|].
  exact (visited_url_leads_back aFailsBServes stoppedClock sourceOrder renderNothing
           DefaultConfig emptyState " a " _ _ _ E).
Defined.

End URLFacts.

Open Scope list_scope.
Open Scope string_scope.

(** * The renderers *)

Section RenderFacts.
Import GoStrings Utils Models Markdown Raw TextNotions.

Variable Format : Time -> string.

Lemma HasPrefix_refl (x : string) : HasPrefix x x = true.
Proof.
  unfold HasPrefix. rewrite <- (app_empty_r x) at 1. now rewrite CutPrefix_self.
Qed.

Lemma Contains_here (x b : string) : Contains (x ++ b) x = true.
Proof.
  assert (H : HasPrefix (x ++ b) x = true) by apply HasPrefix_self.
  destruct (x ++ b); cbn [Contains]; now rewrite H.
Qed.

Lemma Contains_after (a b x : string) :
  Contains b x = true -> Contains (a ++ b) x = true.
Proof.
  intros H. induction a as [|c a IH]; [exact H|].
  cbn [append Contains]. rewrite IH. now destruct (HasPrefix _ _).
Qed.

Lemma Contains_before (a b x : string) :
  Contains a x = true -> Contains (a ++ b) x = true.
Proof.
  intros H. destruct (Contains (a ++ b) x) eqn:E; [reflexivity|].
  apply Contains_prefix in E. congruence.
Qed.

Lemma Contains_within (a x b : string) : Contains (a ++ x ++ b) x = true.
Proof. apply Contains_after, Contains_here. Qed.

(** The text written for a list holds the text written for each of its
    elements. *)
Lemma Contains_element {A : Type} (body : A -> string) (l : list A) (x : A)
  (y : string) :
  In x l -> Contains (body x) y = true ->
  Contains (fold_right (fun x rest => body x ++ rest) "" l) y = true.
Proof.
  intros Hx Hy. induction l as [|z l IH]; [contradiction|].
  cbn [fold_right]. destruct Hx as [->|Hx].
  - now apply Contains_before.
  - now apply Contains_after, IH.
Qed.

Lemma Contains_sectionOf {A : Type} (title : string) (body : A -> string)
  (l : list A) (x : A) (y : string) :
  In x l -> Contains (body x) y = true ->
  Contains (sectionOf title body l) y = true.
Proof.
  intros Hx Hy. unfold sectionOf.
  destruct l as [|z l]; [contradiction|].
  cbn [List.length Nat.ltb Nat.leb].
  do 3 apply Contains_after.
  now apply (Contains_element body (z :: l) x).
Qed.

Lemma Contains_indexList {A : Type} (title : string) (entry : A -> string)
  (l : list A) (x : A) :
  In x l -> Contains (indexList title entry l) (entry x) = true.
Proof.
  intros Hx. unfold indexList.
  destruct l as [|z l]; [contradiction|].
  cbn [List.length Nat.ltb Nat.leb].
  do 2 apply Contains_after. apply Contains_before.
  apply (Contains_element entry (z :: l) x); [exact Hx|].
  rewrite <- (app_empty_r (entry x)) at 1. apply Contains_here.
Qed.

Lemma Contains_heading (a b c d rest : string) :
  Contains (a ++ b ++ c ++ d ++ rest) (a ++ b ++ c ++ d) = true.
Proof.
  replace (a ++ b ++ c ++ d ++ rest) with ((a ++ b ++ c ++ d) ++ rest)
    by (now rewrite !app_assoc_s).
  apply Contains_here.
Qed.

Lemma nonempty_test (x : string) : x <> "" -> negb (x =? "") = true.
Proof. intros H. apply negb_true_iff. now apply String.eqb_neq. Qed.

Lemma Contains_functionBody (f : Function.t) :
  Function.Signature f <> "" ->
  Contains (functionBody f) (goFence (Function.Signature f)) = true.
Proof.
  intros H. unfold functionBody. rewrite (nonempty_test _ H). apply Contains_here.
Qed.

(** X16.  The Markdown of a record loses no declaration: every function
    and every type of the record has its entry in the index and its
    heading, with its signature or its definition, when there is one, as a
    fenced block of Go code; so has every method of a type its heading and
    its signature; every constant and every variable has its entry in the
    index, its heading, and its declaration, fenced or between
    backquotes. *)
Theorem markdown_keeps_declarations (pkg : Package.t) :
  (forall f, In f (Package.Functions pkg) ->
     Contains (PackageToMarkdown Format pkg)
       ("- [`" ++ Function.Name f ++ "`](#" ++ Function.Name f ++ ")" ++ LF) = true
     /\ Contains (PackageToMarkdown Format pkg)
          ("#### " ++ Function.Name f ++ LF ++ LF) = true
     /\ (Function.Signature f <> "" ->
         Contains (PackageToMarkdown Format pkg) (goFence (Function.Signature f))
         = true))
  /\ (forall t, In t (Package.Types pkg) ->
       Contains (PackageToMarkdown Format pkg)
         ("- [`" ++ Type_.Name t ++ "`](#" ++ Type_.Name t ++ ")" ++ LF) = true
       /\ Contains (PackageToMarkdown Format pkg)
            ("#### " ++ Type_.Name t ++ LF ++ LF) = true
       /\ (Type_.Definition_ t <> "" ->
           Contains (PackageToMarkdown Format pkg) (goFence (Type_.Definition_ t))
           = true)
       /\ (forall m, In m (Type_.Methods t) ->
             Contains (PackageToMarkdown Format pkg)
               ("###### " ++ Function.Name m ++ LF ++ LF) = true
             /\ (Function.Signature m <> "" ->
                 Contains (PackageToMarkdown Format pkg)
                   (goFence (Function.Signature m)) = true)))
  /\ (forall c, In c (Package.Constants pkg) ->
       Contains (PackageToMarkdown Format pkg)
         ("- [`" ++ Constant.Name c ++ "`](#pkg-constants)" ++ LF) = true
       /\ Contains (PackageToMarkdown Format pkg)
            ("#### " ++ Constant.Name c ++ LF ++ LF) = true
       /\ (Constant.Value c <> "" ->
           Contains (PackageToMarkdown Format pkg) (goFence (Constant.Value c)) = true
           \/ Contains (PackageToMarkdown Format pkg)
                ("**Value:** `" ++ Constant.Value c ++ "`" ++ LF ++ LF) = true))
  /\ (forall v, In v (Package.Variables pkg) ->
       Contains (PackageToMarkdown Format pkg)
         ("- [`" ++ Variable_.Name v ++ "`](#pkg-variables)" ++ LF) = true
       /\ Contains (PackageToMarkdown Format pkg)
            ("#### " ++ Variable_.Name v ++ LF ++ LF) = true
       /\ (Variable_.Type_ v <> "" ->
           Contains (PackageToMarkdown Format pkg) (goFence (Variable_.Type_ v)) = true
           \/ Contains (PackageToMarkdown Format pkg)
                ("**Type:** `" ++ Variable_.Type_ v ++ "`" ++ LF ++ LF) = true)).
Proof.
  unfold PackageToMarkdown.
  assert (Ix : forall y, Contains (indexText pkg) y = true ->
             Contains (headerText pkg ++ metadataText pkg ++ overviewText pkg
                ++ readmeText pkg ++ indexText pkg
                ++ sectionOf "### Constants" constantText (Package.Constants pkg)
                ++ sectionOf "### Variables" variableText (Package.Variables pkg)
                ++ sectionOf "### Functions" functionText (Package.Functions pkg)
                ++ sectionOf "### Types" typeText (Package.Types pkg)
                ++ examplesText pkg ++ footerText Format pkg) y = true).
  { intros y H. do 4 apply Contains_after. now apply Contains_before. }
  split; [|split; [|split]].
  - intros f Hf. split; [|split].
    + apply Ix. unfold indexText. do 8 apply Contains_after. apply Contains_before.
      apply (Contains_indexList "#### Functions"
               (fun f => "- [`" ++ Function.Name f ++ "`](#" ++ Function.Name f
                         ++ ")" ++ LF) _ f Hf).
    + do 7 apply Contains_after. apply Contains_before.
      apply (Contains_sectionOf _ functionText _ f _ Hf).
      unfold functionText. apply Contains_heading.
    + intros S. do 7 apply Contains_after. apply Contains_before.
      apply (Contains_sectionOf _ functionText _ f _ Hf).
      unfold functionText. do 4 apply Contains_after.
      now apply Contains_functionBody.
  - intros t Ht. split; [|split; [|split]].
    + apply Ix. unfold indexText. do 9 apply Contains_after.
      apply (Contains_indexList "#### Types"
               (fun t => "- [`" ++ Type_.Name t ++ "`](#" ++ Type_.Name t
                         ++ ")" ++ LF) _ t Ht).
    + do 8 apply Contains_after. apply Contains_before.
      apply (Contains_sectionOf _ typeText _ t _ Ht).
      unfold typeText. apply Contains_heading.
    + intros S. do 8 apply Contains_after. apply Contains_before.
      apply (Contains_sectionOf _ typeText _ t _ Ht).
      unfold typeText. do 4 apply Contains_after.
      rewrite (nonempty_test _ S). apply Contains_here.
    + intros m Hm.
      assert (Tm : forall y, Contains (methodText m) y = true ->
                 Contains (headerText pkg ++ metadataText pkg ++ overviewText pkg
                   ++ readmeText pkg ++ indexText pkg
                   ++ sectionOf "### Constants" constantText (Package.Constants pkg)
                   ++ sectionOf "### Variables" variableText (Package.Variables pkg)
                   ++ sectionOf "### Functions" functionText (Package.Functions pkg)
                   ++ sectionOf "### Types" typeText (Package.Types pkg)
                   ++ examplesText pkg ++ footerText Format pkg) y = true).
      { intros y H. do 8 apply Contains_after. apply Contains_before.
        apply (Contains_sectionOf _ typeText _ t _ Ht).
        unfold typeText. do 10 apply Contains_after. apply Contains_before.
        now apply (Contains_sectionOf _ methodText _ m _ Hm). }
      split.
      * apply Tm. unfold methodText. apply Contains_heading.
      * intros S. apply Tm. unfold methodText. do 4 apply Contains_after.
        now apply Contains_functionBody.
  - intros c Hc. split; [|split].
    + apply Ix. unfold indexText. do 6 apply Contains_after. apply Contains_before.
      apply (Contains_indexList "#### Constants"
               (fun c => "- [`" ++ Constant.Name c ++ "`](#pkg-constants)" ++ LF)
               _ c Hc).
    + do 5 apply Contains_after. apply Contains_before.
      apply (Contains_sectionOf _ constantText _ c _ Hc).
      unfold constantText. apply Contains_heading.
    + intros S.
      destruct (Contains (Constant.Value c) LF || Contains (Constant.Value c) "const ")%bool
        eqn:K; [left|right];
        do 5 apply Contains_after; apply Contains_before;
        apply (Contains_sectionOf _ constantText _ c _ Hc);
        unfold constantText; do 4 apply Contains_after;
        rewrite (nonempty_test _ S), K; apply Contains_here.
  - intros v Hv. split; [|split].
    + apply Ix. unfold indexText. do 7 apply Contains_after. apply Contains_before.
      apply (Contains_indexList "#### Variables"
               (fun v => "- [`" ++ Variable_.Name v ++ "`](#pkg-variables)" ++ LF)
               _ v Hv).
    + do 6 apply Contains_after. apply Contains_before.
      apply (Contains_sectionOf _ variableText _ v _ Hv).
      unfold variableText. apply Contains_heading.
    + intros S.
      destruct (Contains (Variable_.Type_ v) LF || Contains (Variable_.Type_ v) "var ")%bool
        eqn:K; [left|right];
        do 6 apply Contains_after; apply Contains_before;
        apply (Contains_sectionOf _ variableText _ v _ Hv);
        unfold variableText; do 4 apply Contains_after;
        rewrite (nonempty_test _ S), K; apply Contains_here.
Qed.

Lemma app_cancel_l (a x y : string) : a ++ x = a ++ y -> x = y.
Proof.
  induction a as [|c a IH]; cbn [append]; [auto|].
  intros H. injection H as H. auto.
Qed.

Lemma app_cancel_r (b x y : string) : x ++ b = y ++ b -> x = y.
Proof.
  intros H. apply (f_equal rev) in H. rewrite !rev_app in H.
  apply app_cancel_l in H. apply (f_equal rev) in H. now rewrite !rev_rev in H.
Qed.

(** X17.  The raw text of a record determines the raw HTML it was made
    from: for one record, two raw texts are equal only when the two HTML
    texts are; an empty HTML text gives the notice that none was captured,
    and any other is written as it is between its two rule lines. *)
Theorem raw_text_determines_html (pkg : Package.t) (rawHTML rawHTML' : string) :
  (PackageToRaw Format pkg rawHTML = PackageToRaw Format pkg rawHTML'
   -> rawHTML = rawHTML')
  /\ (rawHTML <> "" ->
      exists head,
        PackageToRaw Format pkg rawHTML
        = head ++ "=== RAW HTML CONTENT ===" ++ LF ++ rawHTML ++ LF
            ++ "=========================" ++ LF
        /\ PackageToRaw Format pkg "" = head ++ "=== NO RAW CONTENT AVAILABLE ===" ++ LF
             ++ "Raw HTML content was not captured during scraping." ++ LF
             ++ "===================================" ++ LF).
Proof.
  unfold PackageToRaw.
  set (l1 := "=== RAW WEB SCRAPE DATA ===").
  set (l2 := "Package: "). set (l3 := "Import Path: "). set (l4 := "Scraped At: ").
  set (l5 := "Source URL: https://pkg.go.dev/").
  set (l6 := "================================").
  set (c1 := "=== RAW HTML CONTENT ===").
  set (c2 := "=========================").
  set (n1 := "=== NO RAW CONTENT AVAILABLE ===").
  set (n2 := "Raw HTML content was not captured during scraping.").
  set (n3 := "===================================").
  split.
  - intros H.
    repeat match type of H with
           | ?a ++ _ = ?a ++ _ => apply app_cancel_l in H
           end.
    destruct (rawHTML =? "") eqn:E1; destruct (rawHTML' =? "") eqn:E2; cbn [negb] in H.
    + apply String.eqb_eq in E1, E2. congruence.
    + subst c1 n1. discriminate H.
    + subst c1 n1. discriminate H.
    + repeat match type of H with
             | ?a ++ _ = ?a ++ _ => apply app_cancel_l in H
             end.
      now apply app_cancel_r in H.
  - intros NE. rewrite (nonempty_test _ NE). cbn [String.eqb negb].
    exists (l1 ++ LF ++ l2 ++ Package.Name pkg ++ LF ++ l3 ++ Package.ImportPath pkg
              ++ LF ++ l4 ++ Format (Package.ScrapedAt pkg) ++ LF ++ l5
              ++ Package.ImportPath pkg ++ LF ++ l6 ++ LF ++ LF).
    split; now rewrite !app_assoc_s.
Qed.

End RenderFacts.

Section RenderExamples.
Import GoStrings Utils Models Scraper Markdown Raw TextNotions RenderNotions.

Lemma markdown_keeps_declarations_witness :
  exists f,
    In f (Package.Functions (mockPackage zeroTime "github.com/spf13/cobra"))
    /\ Function.Signature f = "func Execute() error"
    /\ Contains (PackageToMarkdown secondsFormat
                   (mockPackage zeroTime "github.com/spf13/cobra"))
         ("#### " ++ Function.Name f ++ LF ++ LF) = true
    /\ Contains (PackageToMarkdown secondsFormat
                   (mockPackage zeroTime "github.com/spf13/cobra"))
         (goFence (Function.Signature f)) = true.
Proof.
  eexists. split; [left; reflexivity|]. split; [reflexivity|].
  destruct (markdown_keeps_declarations secondsFormat
              (mockPackage zeroTime "github.com/spf13/cobra")) as [F _].
  destruct (F _ (or_introl eq_refl)) as [_ [H S]].
  split; [exact H|]. apply S. discriminate.
Defined.

Lemma raw_text_determines_html_witness :
  "<html></html>" <> ""
  /\ (PackageToRaw secondsFormat (mockPackage zeroTime "a") "<html></html>"
      = PackageToRaw secondsFormat (mockPackage zeroTime "a") "<html></html>"
      -> "<html></html>" = "<html></html>")
  /\ exists head,
       PackageToRaw secondsFormat (mockPackage zeroTime "a") "<html></html>"
       = head ++ "=== RAW HTML CONTENT ===" ++ LF ++ "<html></html>" ++ LF
           ++ "=========================" ++ LF
       /\ PackageToRaw secondsFormat (mockPackage zeroTime "a") ""
          = head ++ "=== NO RAW CONTENT AVAILABLE ===" ++ LF
              ++ "Raw HTML content was not captured during scraping." ++ LF
              ++ "===================================" ++ LF.
Proof.
  assert (NE : "<html></html>" <> "") by discriminate.
  destruct (raw_text_determines_html secondsFormat (mockPackage zeroTime "a")
              "<html></html>" "<html></html>") as [I H].
  split; [exact NE|]. split; [exact I|]. exact (H NE).
Defined.

End RenderExamples.

Open Scope string_scope.
Open Scope list_scope.

(** * The command [scrape] *)

Section CommandFacts.
Import GoStrings Utils Models Dom Parser Scraper Markdown Raw Mongostore Docinator.
Import DomNotions ScraperNotions BatchNotions.

Variable Visit : nat -> string -> VisitResult.
Variable clock : nat -> Time.
Variable orders : nat -> MapOrders.
Variable render : list Node -> option string.
Variable Format : Time -> string.
Variable Coll : Type.
Variable FindOne : Coll -> string -> FindResult.
Variable ReplaceOne : Coll -> Document.t -> Coll * option string.
Variable Dir : string -> string.
Variable outputDirFails : string -> bool.

(** What one turn of the loop of the command does. *)
Lemma gatherStep_cases (config : ScrapingConfig) (store : option Store)
  (g : Gathered) (w : World Coll) (p : string) :
  exists g' w',
    gatherStep Visit clock orders render Coll FindOne ReplaceOne config store (g, w) p
    = Some (g', w')
    /\ ((exists pkg raw,
           cached Coll FindOne store w p = Some (pkg, raw)
           /\ pkgs g' = pkgs g ++ [pkg] /\ rawHTMLs g' = rawHTMLs g ++ [raw]
           /\ scrapeErrors g' = scrapeErrors g /\ w' = w)
        \/ (exists err st,
              cached Coll FindOne store w p = None
              /\ ScrapePackageWithRaw Visit clock orders render config (scraper w) p
                 = Some (Err err, st)
              /\ pkgs g' = pkgs g /\ rawHTMLs g' = rawHTMLs g
              /\ scrapeErrors g' = scrapeErrors g ++ [ErrScrape p err]
              /\ w' = {| scraper := st; coll := coll w; upserted := upserted w |})
        \/ (exists pkg raw st,
              cached Coll FindOne store w p = None
              /\ ScrapePackageWithRaw Visit clock orders render config (scraper w) p
                 = Some (Ok (pkg, raw), st)
              /\ pkgs g' = pkgs g ++ [pkg] /\ rawHTMLs g' = rawHTMLs g ++ [raw]
              /\ scrapeErrors g' = scrapeErrors g
              /\ w' = persist Coll ReplaceOne store
                        {| scraper := st; coll := coll w; upserted := upserted w |}
                        p pkg raw)).
Proof.
  unfold gatherStep.
  destruct (cached Coll FindOne store w p) as [[pkg raw]|] eqn:C.
  - eexists _, _. split; [reflexivity|]. left. exists pkg, raw.
    cbn [pkgs rawHTMLs scrapeErrors]. repeat split.
  - destruct (scrapeWithRaw_returns Visit clock orders render config (scraper w) p)
      as [[[pkg raw]|err] [st E]]; rewrite E.
    + eexists _, _. split; [reflexivity|]. right. right. exists pkg, raw, st.
      cbn [pkgs rawHTMLs scrapeErrors]. repeat split.
    + eexists _, _. split; [reflexivity|]. right. left. exists err, st.
      cbn [pkgs rawHTMLs scrapeErrors]. repeat split.
Qed.

(** The loop of the command comes to an end, and keeps its slices of
    records and of raw HTML of one length. *)
Lemma gather_returns (config : ScrapingConfig) (store : option Store)
  (args : list string) :
  forall g w,
    List.length (pkgs g) = List.length (rawHTMLs g) ->
    exists g' w',
      gather Visit clock orders render Coll FindOne ReplaceOne config store (g, w) args
      = Some (g', w')
      /\ List.length (pkgs g') = List.length (rawHTMLs g').
Proof.
  induction args as [|p rest IH]; intros g w L.
  - exists g, w. split; [reflexivity|exact L].
  - cbn [gather].
    destruct (gatherStep_cases config store g w p) as [g1 [w1 [E H]]]. rewrite E.
    apply IH.
    destruct H as [[pkg [raw [_ [Hp [Hr _]]]]]
                  |[[err [st [_ [_ [Hp [Hr _]]]]]]
                   |[pkg [raw [st [_ [_ [Hp [Hr _]]]]]]]]];
      rewrite Hp, Hr, ?length_app; cbn [List.length]; lia.
Qed.

Lemma writeFiles_returns (outputDir : string) (raws : list string)
  (l : list Package.t) :
  forall i, i + List.length l <= List.length raws ->
    exists effects, writeFiles Format Dir outputDir raws i l = Some effects.
Proof.
  induction l as [|pkg rest IH]; intros i L; [now exists []|].
  cbn [writeFiles]. cbn [List.length] in L.
  destruct (nth_error raws i) as [raw|] eqn:N.
  - destruct (IH (S i) ltac:(lia)) as [more E]. rewrite E. eauto.
  - apply nth_error_None in N. lia.
Qed.

(** X18.  The command never panics: whatever the flags, the arguments,
    the store and the network, [Run] comes to an end, with [log.Fatalf] or
    at its last line.  In particular [rawHTMLs[i]] is in range for every
    record written to a file. *)
Theorem command_never_panics (verbose testMode : bool) (outputDir uri : string)
  (connectError : option string) (c : Coll) (args : list string) :
  exists outcome w,
    Run Visit clock orders render Format Coll FindOne ReplaceOne Dir outputDirFails
      verbose testMode outputDir uri connectError c args
    = Some (outcome, w).
Proof.
  unfold Run.
  match goal with
  | |- context [gather _ _ _ _ _ _ _ ?cfg ?store (?g, ?w) args] =>
      destruct (gather_returns cfg store args g w eq_refl) as [g' [w' [E L]]]
  end.
  rewrite E.
  destruct ((0 <? List.length (scrapeErrors g'))%nat
            && (List.length (pkgs g') =? 0)%nat)%bool; [eauto|].
  unfold emit. destruct (outputDir =? "")%string; [eauto|].
  destruct (outputDirFails outputDir); [eauto|].
  destruct (writeFiles_returns outputDir (rawHTMLs g') (pkgs g') 0 ltac:(lia))
    as [effects W].
  rewrite W. eauto.
Qed.

(** A scrape that succeeds is of an import path that is not blank. *)
Lemma scraped_not_blank (config : ScrapingConfig) (st st' : State) (p : string)
  (pkg : Package.t) (raw : string) :
  ScrapePackageWithRaw Visit clock orders render config st p = Some (Ok (pkg, raw), st') ->
  nonBlank p = true.
Proof.
  destruct (nonBlank p) eqn:B; [reflexivity|].
  rewrite (scrape_blank Visit clock orders render) by assumption. discriminate.
Qed.

Lemma gather_upserted (config : ScrapingConfig) (store : option Store)
  (all : list string) (args : list string) :
  incl args all ->
  forall g w g' w',
    gather Visit clock orders render Coll FindOne ReplaceOne config store (g, w) args
    = Some (g', w') ->
    Forall (fun doc => In (Document.ID doc) all
                       /\ nonBlank (Document.ID doc) = true
                       /\ exists pkg, Document.Package doc = Some pkg
                                      /\ Package.ImportPath pkg = Document.ID doc)
      (upserted w) ->
    Forall (fun doc => In (Document.ID doc) all
                       /\ nonBlank (Document.ID doc) = true
                       /\ exists pkg, Document.Package doc = Some pkg
                                      /\ Package.ImportPath pkg = Document.ID doc)
      (upserted w').
Proof.
  induction args as [|p rest IH]; intros Hi g w g' w' E F.
  - cbn [gather] in E. now injection E as _ <-.
  - cbn [gather] in E.
    destruct (gatherStep_cases config store g w p) as [g1 [w1 [E1 H]]].
    rewrite E1 in E.
    apply (IH ltac:(intros x Hx; apply Hi; now right) _ _ _ _ E).
    destruct H as [[pkg [raw [_ [_ [_ [_ ->]]]]]]
                  |[[err [st [_ [_ [_ [_ [_ ->]]]]]]]
                   |[pkg [raw [st [_ [S [_ [_ [_ ->]]]]]]]]]]; try exact F.
    unfold persist. destruct (Enabled store); [|exact F].
    pose proof (scrapeWithRaw_import_path Visit clock orders render _ _ _ _ _ _ S) as I.
    pose proof (scraped_not_blank _ _ _ _ _ _ S) as B.
    destruct (Upsert Coll ReplaceOne store _ _) as [c' r].
    cbn [upserted]. apply Forall_app. split; [exact F|].
    constructor; [|constructor]. cbn [Document.ID Document.Package].
    rewrite I.
    assert (Id : (if negb (p =? "")%string then p else p) = p)
      by (now destruct (negb (p =? "")%string)).
    rewrite Id. split; [apply Hi; now left|]. split; [exact B|].
    exists pkg. split; [reflexivity|exact I].
Qed.

(** X19.  What the command hands to the store: every document it upserts
    has as its id one of the arguments, which is not blank, and holds a
    record whose import path is that id.  So the id is always the import
    path asked for, and the store never sees a document without an id. *)
Theorem upserts_are_keyed_by_argument (verbose testMode : bool)
  (outputDir uri : string) (connectError : option string) (c : Coll)
  (args : list string) (outcome : Outcome) (w : World Coll) :
  Run Visit clock orders render Format Coll FindOne ReplaceOne Dir outputDirFails
    verbose testMode outputDir uri connectError c args
  = Some (outcome, w) ->
  Forall (fun doc => In (Document.ID doc) args
                     /\ TrimSpace (Document.ID doc) <> ""
                     /\ exists pkg, Document.Package doc = Some pkg
                                    /\ Package.ImportPath pkg = Document.ID doc)
    (upserted w).
Proof.
  unfold Run.
  match goal with
  | |- context [gather _ _ _ _ _ _ _ ?cfg ?store (?g, ?w0) args] =>
      destruct (gather Visit clock orders render Coll FindOne ReplaceOne cfg store
                  (g, w0) args) as [[g' w']|] eqn:E; [|discriminate];
      pose proof (gather_upserted cfg store args args (incl_refl _) _ _ _ _ E
                    (Forall_nil _)) as U
  end.
  intros H.
  assert (W : w = w').
  { destruct ((0 <? List.length (scrapeErrors g'))%nat
              && (List.length (pkgs g') =? 0)%nat)%bool.
    - now injection H as _ <-.
    - destruct (emit _ _ _ _ _); [|discriminate]. now injection H as _ <-. }
  subst w'. eapply Forall_impl; [|exact U]. cbv beta.
  intros doc [I [B P]]. split; [exact I|]. split; [|exact P].
  unfold nonBlank in B. apply negb_true_iff in B. now apply String.eqb_neq.
Qed.

(** Without a store the loop of the command is the sequential loop of
    [ScrapePackages], with the raw HTML kept besides. *)
Lemma gather_sequential (config : ScrapingConfig) (store : option Store)
  (args : list string) :
  Enabled store = false ->
  forall g w,
    match scrapeSequential Visit clock orders render config
            ({| packages := pkgs g; errors := scrapeErrors g |}, scraper w) args with
    | Some (b, st) =>
        exists raws,
          gather Visit clock orders render Coll FindOne ReplaceOne config store
            (g, w) args
          = Some ({| pkgs := packages b; rawHTMLs := raws; scrapeErrors := errors b |},
                  {| scraper := st; coll := coll w; upserted := upserted w |})
    | None =>
        gather Visit clock orders render Coll FindOne ReplaceOne config store
          (g, w) args = None
    end.
Proof.
  intros Off. induction args as [|p rest IH]; intros g w.
  - cbn [scrapeSequential gather]. exists (rawHTMLs g). destruct g, w. reflexivity.
  - cbn [scrapeSequential gather]. unfold scrapeInto, ScrapePackage, gatherStep.
    unfold cached. rewrite Off.
    destruct (ScrapePackageWithRaw Visit clock orders render config (scraper w) p)
      as [[[[pkg raw]|err] st]|]; [| |reflexivity].
    + unfold persist. rewrite Off.
      apply (IH {| pkgs := pkgs g ++ [pkg]; rawHTMLs := rawHTMLs g ++ [raw];
                   scrapeErrors := scrapeErrors g |}
                {| scraper := st; coll := coll w; upserted := upserted w |}).
    + apply (IH {| pkgs := pkgs g; rawHTMLs := rawHTMLs g;
                   scrapeErrors := scrapeErrors g ++ [ErrScrape p err] |}
                {| scraper := st; coll := coll w; upserted := upserted w |}).
Qed.

Lemma store_off (uri : string) (connectError : option string) :
  uri = "" \/ connectError <> None ->
  Enabled (match NewFromEnv uri connectError with
           | (_, Some _) => None
           | (store, None) => store
           end) = false.
Proof.
  unfold NewFromEnv. intros [->|H]; [reflexivity|].
  destruct (uri =? "")%string; [reflexivity|].
  destruct connectError; [reflexivity|congruence].
Qed.

(** X20.  In the test mode and without a store (no MONGODB_URI, or a
    connection that fails), the command writes to its output the Markdown
    of the records that [ScrapePackages] returns for its arguments, in
    that order, and ends with a fatal error when there is none; it leaves
    the collection alone. *)
Theorem command_prints_the_batch (verbose : bool) (uri : string)
  (connectError : option string) (c : Coll) (sched : Schedule)
  (args : list string) :
  uri = "" \/ connectError <> None ->
  args <> [] ->
  exists pkgs err st,
    ScrapePackages Visit clock orders render
      {| MaxConcurrency := 0; Delay := 0; Timeout := 0; UserAgent := "";
         Debug := verbose; TestMode := true |}
      sched {| PackagesScraped := 0; calls := [] |} args
    = Some (pkgs, err, st)
    /\ Run Visit clock orders render Format Coll FindOne ReplaceOne Dir outputDirFails
         verbose true "" uri connectError c args
       = Some (match pkgs with
               | [] => Fatal "All scraping attempts failed"
               | _ :: _ =>
                   Finished (map (fun pkg => Print (PackageToMarkdown Format pkg)) pkgs)
               end,
               {| scraper := st; coll := c; upserted := [] |}).
Proof.
  intros Off NE. unfold ScrapePackages, Run.
  destruct args as [|p0 rest] eqn:Ea; [congruence|]. rewrite <- Ea in *. clear NE.
  cbn [TestMode].
  set (config := {| MaxConcurrency := 0; Delay := 0; Timeout := 0; UserAgent := "";
                    Debug := verbose; TestMode := true |}).
  set (s0 := {| PackagesScraped := 0; calls := [] |}).
  pose proof (gather_sequential config _ args (store_off uri connectError Off)
                {| pkgs := []; rawHTMLs := []; scrapeErrors := [] |}
                {| scraper := s0; coll := c; upserted := [] |}) as G.
  cbn [pkgs scrapeErrors scraper coll upserted] in G.
  destruct (sequential_count Visit clock orders render config args args (incl_refl _)
              {| packages := []; errors := [] |} s0 (Forall_nil _))
    as [b [st [E [T _]]]].
  rewrite E in G. destruct G as [raws G]. rewrite G, E. cbn [option_map].
  rewrite batchResult_eq.
  exists (packages b), (hd_error (errors b)), st. split; [reflexivity|].
  cbn [scrapeErrors pkgs].
  unfold tally in T. cbn [packages errors List.length] in T.
  destruct (packages b) as [|pkg more] eqn:P.
  - assert (L : 0 < List.length (errors b)).
    { rewrite Ea in T. cbn [List.length] in T. lia. }
    replace (0 <? List.length (errors b))%nat with true
      by (symmetry; now apply Nat.ltb_lt).
    reflexivity.
  - cbn [List.length Nat.eqb]. rewrite andb_false_r. reflexivity.
Qed.

Lemma gather_cached (config : ScrapingConfig) (store : option Store)
  (args : list string) (hits : list (Package.t * string)) :
  Enabled store = true ->
  forall g w,
    Forall2 (fun p h => exists id,
               FindOne (coll w) p = Found (Document.mk id (Some (fst h)) (snd h)))
      args hits ->
    gather Visit clock orders render Coll FindOne ReplaceOne config store (g, w) args
    = Some ({| pkgs := pkgs g ++ map fst hits;
               rawHTMLs := rawHTMLs g ++ map snd hits;
               scrapeErrors := scrapeErrors g |}, w).
Proof.
  intros On g w F. revert g.
  induction F as [|p h args hits [id Hf] F IH]; intros g.
  - cbn [gather map]. rewrite !app_nil_r. now destruct g.
  - cbn [gather]. unfold gatherStep, cached, GetByID. rewrite On. cbn [negb].
    rewrite Hf. cbn [Document.Package Document.RawHTML].
    rewrite IH. cbn [pkgs rawHTMLs scrapeErrors map].
    now rewrite <- !app_assoc.
Qed.

(** X21.  Arguments found in the store are not scraped: with a store that
    is connected, when every argument has a document with a record, the
    command makes no call to the scraper and no upsert, leaves the
    collection as it is, and writes the records of the store, in the order
    of the arguments. *)
Theorem cached_arguments_are_not_scraped (verbose testMode : bool)
  (outputDir uri : string) (c : Coll) (args : list string)
  (hits : list (Package.t * string)) :
  uri <> "" ->
  Forall2 (fun p h => exists id,
             FindOne c p = Found (Document.mk id (Some (fst h)) (snd h)))
    args hits ->
  exists outcome,
    Run Visit clock orders render Format Coll FindOne ReplaceOne Dir outputDirFails
      verbose testMode outputDir uri None c args
    = Some (outcome,
            {| scraper := {| PackagesScraped := 0; calls := [] |};
               coll := c; upserted := [] |})
    /\ (outputDir = "" ->
        outcome = Finished (map (fun h => Print (PackageToMarkdown Format (fst h)))
                              hits)).
Proof.
  intros U F. unfold Run, NewFromEnv.
  apply String.eqb_neq in U. rewrite U.
  rewrite (gather_cached _ (Some {| enabled := true |}) args hits eq_refl
             {| pkgs := []; rawHTMLs := []; scrapeErrors := [] |}
             {| scraper := {| PackagesScraped := 0; calls := [] |};
                coll := c; upserted := [] |} F).
  cbn [pkgs rawHTMLs scrapeErrors app List.length Nat.ltb Nat.leb andb].
  unfold emit. cbn [pkgs rawHTMLs].
  destruct (outputDir =? "")%string eqn:O.
  - eexists. split; [reflexivity|]. intros _. now rewrite map_map.
  - destruct (outputDirFails outputDir).
    + eexists. split; [reflexivity|].
      intros ->. discriminate.
    + destruct (writeFiles_returns outputDir (map snd hits) (map fst hits) 0
                  ltac:(rewrite !length_map; lia)) as [effects W].
      rewrite W. eexists. split; [reflexivity|]. intros ->. discriminate.
Qed.

End CommandFacts.

Section CommandExamples.
Import GoStrings Utils Models Dom Parser Scraper Markdown Raw Mongostore Docinator.
Import DomNotions ScraperNotions BatchNotions RenderNotions CommandNotions.

Lemma upserts_are_keyed_by_argument_witness :
  exists outcome w,
    Run (serving emptyPage) stoppedClock sourceOrder renderNothing secondsFormat
      (list Document.t) listFindOne listReplaceOne noDir dirsOK
      false false "" "mongodb://localhost:27017" None [] ["a"; " "; "b"]
    = Some (outcome, w)
    /\ map Document.ID (upserted w) = ["a"; "b"]
    /\ Forall (fun doc => In (Document.ID doc) ["a"; " "; "b"]
                          /\ TrimSpace (Document.ID doc) <> ""
                          /\ exists pkg, Document.Package doc = Some pkg
                                         /\ Package.ImportPath pkg = Document.ID doc)
         (upserted w).
Proof.
  destruct (Run (serving emptyPage) stoppedClock sourceOrder renderNothing
              secondsFormat (list Document.t) listFindOne listReplaceOne noDir dirsOK
              false false "" "mongodb://localhost:27017" None [] ["a"; " "; "b"])
    as [[outcome w]|] eqn:E.
  - exists outcome, w. split; [reflexivity|]. split.
    + vm_compute in E. injection E as _ <-. reflexivity.
    + exact (upserts_are_keyed_by_argument (serving emptyPage) stoppedClock sourceOrder
               renderNothing secondsFormat (list Document.t) listFindOne listReplaceOne
               noDir dirsOK false false "" "mongodb://localhost:27017" None []
               ["a"; " "; "b"] outcome w E).
  - vm_compute in E. discriminate.
Defined.

Lemma command_prints_the_batch_witness :
  ("" = "" \/ @None string <> None)
  /\ ["github.com/spf13/cobra"] <> []
  /\ exists pkgs err st,
       ScrapePackages offline stoppedClock sourceOrder renderNothing
         {| MaxConcurrency := 0; Delay := 0; Timeout := 0; UserAgent := "";
            Debug := false; TestMode := true |}
         (inOrder [0]) {| PackagesScraped := 0; calls := [] |}
         ["github.com/spf13/cobra"]
       = Some (pkgs, err, st)
       /\ Run offline stoppedClock sourceOrder renderNothing secondsFormat
            (list Document.t) listFindOne listReplaceOne noDir dirsOK
            false true "" "" None [] ["github.com/spf13/cobra"]
          = Some (match pkgs with
                  | [] => Fatal "All scraping attempts failed"
                  | _ :: _ =>
                      Finished (map (fun pkg => Print (PackageToMarkdown secondsFormat pkg))
                                  pkgs)
                  end,
                  {| scraper := st; coll := []; upserted := [] |}).
Proof.
  assert (Off : "" = "" \/ @None string <> None) by now left.
  assert (NE : ["github.com/spf13/cobra"] <> []) by discriminate.
  split; [exact Off|]. split; [exact NE|].
  exact (command_prints_the_batch offline stoppedClock sourceOrder renderNothing
           secondsFormat (list Document.t) listFindOne listReplaceOne noDir dirsOK
           false "" None [] (inOrder [0]) ["github.com/spf13/cobra"] Off NE).
Defined.

Lemma cached_arguments_are_not_scraped_witness :
  "mongodb://localhost:27017" <> ""
  /\ Forall2 (fun p h => exists id,
                listFindOne [Document.mk "a" (Some emptyPackage) "<html></html>"] p
                = Found (Document.mk id (Some (fst h)) (snd h)))
       ["a"] [(emptyPackage, "<html></html>")]
  /\ exists outcome,
       Run offline stoppedClock sourceOrder renderNothing secondsFormat
         (list Document.t) listFindOne listReplaceOne noDir dirsOK
         false false "" "mongodb://localhost:27017" None
         [Document.mk "a" (Some emptyPackage) "<html></html>"] ["a"]
       = Some (outcome,
               {| scraper := {| PackagesScraped := 0; calls := [] |};
                  coll := [Document.mk "a" (Some emptyPackage) "<html></html>"];
                  upserted := [] |})
       /\ ("" = "" ->
           outcome = Finished (map (fun h => Print (PackageToMarkdown secondsFormat (fst h)))
                                 [(emptyPackage, "<html></html>")])).
Proof.
  assert (U : "mongodb://localhost:27017" <> "") by discriminate.
  assert (F : Forall2 (fun p h => exists id,
                listFindOne [Document.mk "a" (Some emptyPackage) "<html></html>"] p
                = Found (Document.mk id (Some (fst h)) (snd h)))
                ["a"] [(emptyPackage, "<html></html>")]).
  { constructor; [|constructor]. exists "a". reflexivity. }
  split; [exact U|]. split; [exact F|].
  exact (cached_arguments_are_not_scraped offline stoppedClock sourceOrder renderNothing
           secondsFormat (list Document.t) listFindOne listReplaceOne noDir dirsOK
           false false "" "mongodb://localhost:27017"
           [Document.mk "a" (Some emptyPackage) "<html></html>"] ["a"]
           [(emptyPackage, "<html></html>")] U F).
Defined.

End CommandExamples.

Open Scope list_scope.
Open Scope string_scope.

(** * Entities: when the order of the map visit does not matter *)

Section EntityFacts.
Import GoStrings Utils Notions TextNotions EntityNotions.

Lemma decodeFrom_skip (T : table) (a : string) :
  forall r, decodeFrom T (String.length a) (a ++ r) = decodeFrom T 0 r.
Proof.
  induction a as [|c a IH]; intros r; [reflexivity|].
  cbn [String.length append decodeFrom]. apply IH.
Qed.

Lemma decode_nil (s : string) : decode [] s = s.
Proof.
  unfold decode. induction s as [|c s IH]; [reflexivity|].
  cbn [decodeFrom firstKey]. now rewrite IH.
Qed.

Lemma decode_copy (T : table) (c : ascii) (r : string) :
  firstKey T (String c r) = None -> decode T (String c r) = String c (decode T r).
Proof. intros H. unfold decode. cbn [decodeFrom]. now rewrite H. Qed.

Lemma decode_match (T : table) (k v r : string) :
  k <> "" -> firstKey T (k ++ r) = Some (k, v) ->
  decode T (k ++ r) = v ++ decode T r.
Proof.
  intros NE H. unfold decode. destruct k as [|c k]; [congruence|].
  cbn [append] in *. cbn [decodeFrom]. rewrite H. cbn [fst snd].
  replace (String.length (String c k) - 1) with (String.length k)
    by (cbn [String.length]; lia).
  now rewrite decodeFrom_skip.
Qed.

(** [ReplaceAll] is the pass for a table of one entry. *)
Lemma replaceFrom_decode (k v : string) (s : string) :
  forall n, replaceFrom n s k v = decodeFrom [(k, v)] n s.
Proof.
  induction s as [|c s IH]; intros n; [reflexivity|].
  cbn [replaceFrom decodeFrom firstKey fst snd].
  destruct n as [|n]; [|apply IH].
  destruct (HasPrefix (String c s) k); now rewrite IH.
Qed.

Lemma ReplaceAll_decode (s k v : string) : ReplaceAll s k v = decode [(k, v)] s.
Proof. apply replaceFrom_decode. Qed.

Lemma HasPrefix_cut (s p : string) : HasPrefix s p = true -> exists r, s = p ++ r.
Proof.
  unfold HasPrefix. destruct (CutPrefix s p) as [r|] eqn:E; [|discriminate].
  intros _. exists r. now apply CutPrefix_app.
Qed.

Lemma HasPrefix_cons (c d : ascii) (s p : string) :
  HasPrefix (String c s) (String d p) = (Ascii.eqb d c && HasPrefix s p)%bool.
Proof.
  unfold HasPrefix. cbn [CutPrefix]. destruct (Ascii.eqb d c); reflexivity.
Qed.

(** Two words that begin one text: one begins the other. *)
Lemma HasPrefix_both (s : string) :
  forall a b, HasPrefix s a = true -> HasPrefix s b = true ->
    HasPrefix a b = true \/ HasPrefix b a = true.
Proof.
  induction s as [|c s IH]; intros a b Ha Hb.
  - destruct a; [|discriminate]. right. destruct b; reflexivity.
  - destruct a as [|x a]; [right; destruct b; reflexivity|].
    destruct b as [|y b]; [left; reflexivity|].
    rewrite HasPrefix_cons in Ha, Hb.
    apply andb_true_iff in Ha as [Ha1 Ha2]. apply andb_true_iff in Hb as [Hb1 Hb2].
    apply Ascii.eqb_eq in Ha1, Hb1. subst x y.
    rewrite !HasPrefix_cons, Ascii.eqb_refl. cbn [andb]. now apply IH.
Qed.

Lemma firstKey_found (T : table) (s : string) (kv : string * string) :
  firstKey T s = Some kv -> In kv T /\ HasPrefix s (fst kv) = true.
Proof.
  induction T as [|e T IH]; [discriminate|]. cbn [firstKey].
  destruct (HasPrefix s (fst e)) eqn:E.
  - intros H. injection H as <-. split; [now left|exact E].
  - intros H. destruct (IH H). split; [now right|assumption].
Qed.

Lemma firstKey_none (T : table) (s : string) :
  firstKey T s = None -> forall kv, In kv T -> HasPrefix s (fst kv) = false.
Proof.
  induction T as [|e T IH]; [contradiction|]. cbn [firstKey].
  destruct (HasPrefix s (fst e)) eqn:E; [discriminate|].
  intros H kv [<-|Hk]; [exact E|now apply IH].
Qed.

(** In a table whose entries are apart, the entry whose key begins the
    text is the only one. *)
Lemma firstKey_only (A : list string) (T : table) (s : string)
  (kv : string * string) :
  apart A T -> In kv T -> HasPrefix s (fst kv) = true -> firstKey T s = Some kv.
Proof.
  intros [_ Pf] Hin Hp.
  destruct (firstKey T s) as [e|] eqn:F.
  - apply firstKey_found in F as [He Hq].
    destruct (HasPrefix_both s _ _ Hp Hq) as [H|H].
    + now rewrite (Pf kv e Hin He H).
    + now rewrite (Pf e kv He Hin H).
  - now rewrite (firstKey_none T s F kv Hin) in Hp.
Qed.

Lemma apart_incl (A : list string) (T T' : table) :
  incl T' T -> apart A T -> apart A T'.
Proof.
  intros I [E P]. split.
  - intros kv H. apply E. now apply I.
  - intros kv kv' H H'. apply P; now apply I.
Qed.

Lemma amp_first_differs (d : ascii) (tail s : string) :
  Ascii.eqb d "&" = false -> HasPrefix (String d s) (String "&" tail) = false.
Proof.
  intros H. rewrite HasPrefix_cons, Ascii.eqb_sym, H. reflexivity.
Qed.

(** A pass for one entity copies a text without ampersand. *)
Lemma copy_tail (ktail v : string) (tail : string) :
  forall r, occurs "&" tail = false ->
    decode [(String "&" ktail, v)] (tail ++ r)
    = tail ++ decode [(String "&" ktail, v)] r.
Proof.
  induction tail as [|d tail IH]; intros r H; [reflexivity|].
  cbn [occurs] in H. apply orb_false_iff in H as [H1 H2].
  cbn [append]. rewrite decode_copy.
  - now rewrite IH.
  - cbn [firstKey fst]. now rewrite amp_first_differs.
Qed.

Lemma copy_span (ktail v tail r : string) :
  occurs "&" tail = false ->
  HasPrefix (String "&" tail ++ r) (String "&" ktail) = false ->
  decode [(String "&" ktail, v)] (String "&" tail ++ r)
  = String "&" tail ++ decode [(String "&" ktail, v)] r.
Proof.
  intros H N. cbn [append] in *. rewrite decode_copy.
  - now rewrite copy_tail.
  - cbn [firstKey fst]. now rewrite N.
Qed.

(** What a pass gives that holds none of the values of the table was in
    the text as it is. *)
Lemma verbatim (T : table) (t : string) :
  (forall kv, In kv T -> exists x, snd kv = String x "" /\ occurs x t = false) ->
  forall r Y, decode T r = t ++ Y -> exists r1, r = t ++ r1 /\ Y = decode T r1.
Proof.
  induction t as [|d t IH]; intros V r Y E.
  - exists r. cbn [append] in *. auto.
  - destruct r as [|c r]; [discriminate|].
    unfold decode in E. cbn [decodeFrom] in E.
    destruct (firstKey T (String c r)) as [kv|] eqn:F.
    + apply firstKey_found in F as [Hin _].
      destruct (V kv Hin) as [x [Ev Ho]]. rewrite Ev in E.
      cbn [append] in E. injection E as Ex _. subst x.
      cbn [occurs] in Ho. now rewrite Ascii.eqb_refl in Ho.
    + cbn [append] in E. injection E as <- E.
      destruct (IH ltac:(intros kv Hin; destruct (V kv Hin) as [x [Ev Ho]];
                         exists x; split; [exact Ev|];
                         cbn [occurs] in Ho; now apply orb_false_iff in Ho)
                  r Y E) as [r1 [-> ->]].
      now exists r1.
Qed.

Lemma apart_entry (A : list string) (T : table) (kv : string * string) :
  apart A T -> In kv T ->
  exists tail x,
    kv = (String "&" tail, String x "") /\ occurs "&" tail = false
    /\ In (String "&" tail) A /\ forall k, In k A -> occurs x k = false.
Proof.
  intros [E _] H. destruct (E kv H) as [tail [x [Ek [Ht [Ev [Ia Hx]]]]]].
  exists tail, x. destruct kv as [k v]. cbn [fst snd] in *. subst. auto.
Qed.

(** After the pass for an entity that does not begin the text, the text
    begins with the same entities as before. *)
Lemma begins_same (A : list string) (T : table) (kv e : string * string)
  (s : string) :
  apart A (kv :: T) -> In e T -> HasPrefix s (fst kv) = false ->
  HasPrefix (decode [kv] s) (fst e) = HasPrefix s (fst e).
Proof.
  intros Ap He Hk.
  destruct (apart_entry A _ kv Ap (or_introl eq_refl)) as [ktail [x [-> [_ [_ Hx]]]]].
  destruct (apart_entry A _ e Ap (or_intror He)) as [tail [y [-> [Ht [Ia _]]]]].
  cbn [fst] in *.
  destruct (HasPrefix s (String "&" tail)) eqn:Hs.
  - apply HasPrefix_cut in Hs as [r ->].
    rewrite copy_span by assumption. apply HasPrefix_self.
  - destruct (HasPrefix (decode [(String "&" ktail, String x "")] s) (String "&" tail))
      eqn:Hd; [|reflexivity].
    apply HasPrefix_cut in Hd as [Y Hd].
    destruct (verbatim [(String "&" ktail, String x "")] (String "&" tail)
                ltac:(intros kv [<-|[]]; exists x; split; [reflexivity|now apply Hx])
                s Y Hd) as [r1 [-> _]].
    now rewrite HasPrefix_self in Hs.
Qed.

Lemma firstKey_same (A : list string) (T : table) (kv : string * string)
  (s : string) :
  apart A (kv :: T) -> HasPrefix s (fst kv) = false ->
  forall T', incl T' T -> firstKey T' (decode [kv] s) = firstKey T' s.
Proof.
  intros Ap Hk. induction T' as [|e T' IH]; intros I; [reflexivity|].
  cbn [firstKey].
  rewrite (begins_same A T kv e s Ap (I e (or_introl eq_refl)) Hk).
  rewrite IH by (intros z Hz; apply I; now right). reflexivity.
Qed.

Lemma firstKey_not_value (A : list string) (T : table) (x : ascii) (D : string) :
  apart A T -> Ascii.eqb x "&" = false -> firstKey T (String x D) = None.
Proof.
  intros Ap Hx. destruct (firstKey T (String x D)) as [e|] eqn:F; [|reflexivity].
  apply firstKey_found in F as [He Hp].
  destruct (apart_entry A T e Ap He) as [tail [y [-> _]]]. cbn [fst] in Hp.
  now rewrite amp_first_differs in Hp.
Qed.

(** The pass for one entity, then the pass for a table: the pass for the
    table with that entity. *)
Lemma decode_absorbs (A : list string) (T : table) (kv : string * string) :
  apart A (kv :: T) ->
  forall n s, String.length s <= n -> decode T (decode [kv] s) = decode (kv :: T) s.
Proof.
  intros Ap.
  assert (ApT : apart A T) by (apply (apart_incl A (kv :: T)); [|exact Ap];
                               intros z Hz; now right).
  destruct (apart_entry A _ kv Ap (or_introl eq_refl)) as [ktail [x [Ekv [_ [Ia Hx]]]]].
  assert (Xa : Ascii.eqb x "&" = false).
  { specialize (Hx _ Ia). cbn [occurs] in Hx. now apply orb_false_iff in Hx as [Hx _].
  }
  induction n as [|n IH]; intros s L.
  - destruct s; [reflexivity|cbn [String.length] in L; lia].
  - destruct s as [|c r]; [reflexivity|].
    destruct (HasPrefix (String c r) (fst kv)) eqn:Hk.
    + destruct (HasPrefix_cut _ _ Hk) as [r' Es]. rewrite Es.
      assert (Lr : String.length r' <= n).
      { apply (f_equal String.length) in Es. rewrite slength_app, Ekv in Es.
        cbn [fst String.length] in Es, L. lia. }
      rewrite (decode_match [kv] (fst kv) (snd kv) r').
      * rewrite (decode_match (kv :: T) (fst kv) (snd kv) r').
        -- rewrite Ekv. cbn [snd append].
           rewrite decode_copy by (now apply (firstKey_not_value A)).
           f_equal. rewrite <- Ekv. now apply IH.
        -- rewrite Ekv. discriminate.
        -- cbn [firstKey]. rewrite HasPrefix_self. now destruct kv.
      * rewrite Ekv. discriminate.
      * cbn [firstKey]. rewrite HasPrefix_self. now destruct kv.
    + pose proof (firstKey_same A T kv (String c r) Ap Hk T (incl_refl _)) as Fs.
      assert (Fk : firstKey (kv :: T) (String c r) = firstKey T (String c r))
        by (cbn [firstKey]; now rewrite Hk).
      destruct (firstKey T (String c r)) as [e|] eqn:F.
      * destruct (firstKey_found _ _ _ F) as [He Hp].
        destruct (apart_entry A T e ApT He) as [tail [y [Ee [Ht _]]]].
        destruct (HasPrefix_cut _ _ Hp) as [r'' Es].
        assert (Lr : String.length r'' <= n).
        { pose proof (f_equal String.length Es) as El.
          rewrite slength_app, Ee in El.
          cbn [fst String.length] in El, L. lia. }
        rewrite Es in *.
        assert (Cs : decode [kv] (fst e ++ r'') = fst e ++ decode [kv] r'').
        { rewrite Ekv, Ee in *. cbn [fst] in *. now apply copy_span. }
        rewrite Cs in *.
        rewrite (decode_match T (fst e) (snd e)); [| |now destruct e].
        -- rewrite (decode_match (kv :: T) (fst e) (snd e)); [| |rewrite Fk; now destruct e].
           ++ f_equal. now apply IH.
           ++ rewrite Ee. discriminate.
        -- rewrite Ee. discriminate.
      * assert (Cc : decode [kv] (String c r) = String c (decode [kv] r)).
        { apply decode_copy. cbn [firstKey]. now rewrite Hk. }
        rewrite Cc in *. rewrite decode_copy by exact Fs.
        rewrite (decode_copy (kv :: T)) by exact Fk.
        f_equal. apply IH. cbn [String.length] in L. lia.
Qed.

(** The replacements of a table whose entries are apart, made one
    after the other, are the pass for the whole table. *)
Lemma replaceEach_decode (A : list string) (order : table) :
  forall T s, apart A (order ++ T)%list ->
    decode T (replaceEach order s) = decode (order ++ T)%list s.
Proof.
  unfold replaceEach. induction order as [|kv rest IH]; intros T s Ap; [reflexivity|].
  cbn [fold_left app].
  assert (Ap' : apart A (rest ++ T)%list).
  { apply (apart_incl A (kv :: rest ++ T)%list); [|exact Ap].
    intros z Hz. now right. }
  rewrite (IH T _ Ap').
  rewrite ReplaceAll_decode.
  replace (fst kv, snd kv) with kv by (now destruct kv).
  apply (decode_absorbs A (rest ++ T)%list kv Ap (String.length s) s). lia.
Qed.

Lemma firstKey_perm (A : list string) (T T' : table) (s : string) :
  apart A T -> Permutation T T' -> firstKey T s = firstKey T' s.
Proof.
  intros Ap P.
  assert (Ap' : apart A T').
  { apply (apart_incl A T); [|exact Ap].
    intros z Hz. apply (Permutation_in _ (Permutation_sym P) Hz). }
  destruct (firstKey T s) as [kv|] eqn:F.
  - apply firstKey_found in F as [Hin Hp]. symmetry.
    apply (firstKey_only A); [exact Ap'| |exact Hp].
    apply (Permutation_in _ P Hin).
  - destruct (firstKey T' s) as [e|] eqn:F'; [|reflexivity].
    apply firstKey_found in F' as [Hin Hp].
    rewrite (firstKey_none T s F e (Permutation_in _ (Permutation_sym P) Hin)) in Hp.
    discriminate.
Qed.

Lemma decode_perm (A : list string) (T T' : table) :
  apart A T -> Permutation T T' -> forall s, decode T s = decode T' s.
Proof.
  intros Ap P s. unfold decode. generalize 0.
  induction s as [|c s IH]; intros n; [reflexivity|].
  cbn [decodeFrom]. destruct n as [|n]; [|apply IH].
  rewrite (firstKey_perm A T T' _ Ap P).
  destruct (firstKey T' (String c s)); now rewrite IH.
Qed.

(** A pass writes no word anew that holds none of its values. *)
Lemma decode_without (A : list string) (T : table) (K : string) :
  apart A T -> In K A -> K <> "" ->
  forall n s, String.length s <= n ->
    Contains s K = false -> Contains (decode T s) K = false.
Proof.
  intros Ap Ka NE.
  assert (V : forall kv, In kv T -> exists x, snd kv = String x "" /\ occurs x K = false).
  { intros kv Hin.
    destruct (apart_entry A T kv Ap Hin) as [tail [x [-> [_ [_ Hx]]]]].
    exists x. split; [reflexivity|now apply Hx]. }
  induction n as [|n IH]; intros s L H.
  - destruct s; [exact H|cbn [String.length] in L; lia].
  - destruct s as [|c r]; [exact H|].
    destruct (Contains (decode T (String c r)) K) eqn:D; [|reflexivity].
    exfalso.
    assert (Hd : HasPrefix (decode T (String c r)) K = false).
    { destruct (HasPrefix (decode T (String c r)) K) eqn:Hp; [|reflexivity].
      apply HasPrefix_cut in Hp as [Y Hp].
      destruct (verbatim T K V _ _ Hp) as [r1 [Er _]].
      rewrite Er in H. now rewrite Contains_here in H. }
    destruct (firstKey T (String c r)) as [e|] eqn:F.
    + destruct (firstKey_found _ _ _ F) as [He Hp].
      destruct (apart_entry A T e Ap He) as [tail [y [Ee _]]].
      destruct (HasPrefix_cut _ _ Hp) as [r'' Es].
      assert (Lr : String.length r'' <= n).
      { pose proof (f_equal String.length Es) as El.
        rewrite slength_app, Ee in El. cbn [fst String.length] in El, L. lia. }
      rewrite Es in *.
      rewrite (decode_match T (fst e) (snd e)) in D, Hd;
        try (now destruct e); try (rewrite Ee; discriminate).
      rewrite Ee in D, Hd. cbn [snd append] in D, Hd.
      cbn [Contains] in D. rewrite Hd in D.
      assert (Hr : Contains r'' K = false).
      { destruct (Contains r'' K) eqn:C; [|reflexivity].
        now rewrite (Contains_after (fst e) r'' K C) in H. }
      now rewrite (IH r'' Lr Hr) in D.
    + rewrite (decode_copy T c r F) in D, Hd.
      cbn [Contains] in D. rewrite Hd in D.
      apply Contains_cons in H as [_ H].
      cbn [String.length] in L.
      now rewrite (IH r ltac:(lia) H) in D.
Qed.

Lemma plainEntities_apart : apart (map fst entityTable) plainEntities.
Proof.
  split.
  - intros kv H. unfold plainEntities in H. cbn [In] in H.
    repeat (destruct H as [<-|H];
            [eexists _, _; cbn [fst snd];
             split; [reflexivity|]; split; [reflexivity|];
             split; [reflexivity|];
             split; [cbn; tauto|];
             intros k Hk; cbn [map fst entityTable In] in Hk;
             repeat (destruct Hk as [<-|Hk]; [reflexivity|]); contradiction|]).
    contradiction.
  - intros kv kv' H H'. unfold plainEntities in H, H'. cbn [In] in H, H'.
    repeat (destruct H as [<-|H]);
      repeat (destruct H' as [<-|H']);
      try contradiction; intros E; try reflexivity; discriminate E.
Qed.

Lemma replaceEach_is_decode (A : list string) (order : table) (s : string) :
  apart A order -> replaceEach order s = decode order s.
Proof.
  intros Ap. rewrite <- (decode_nil (replaceEach order s)).
  rewrite (replaceEach_decode A order [] s) by (now rewrite app_nil_r).
  now rewrite app_nil_r.
Qed.

Lemma replaceEach_app (o1 o2 : table) (s : string) :
  replaceEach (o1 ++ o2)%list s = replaceEach o2 (replaceEach o1 s).
Proof. unfold replaceEach. apply fold_left_app. Qed.

(** With no [&amp;] in the text, a visit of the entities in any order is
    the pass for the entities but [&amp;]. *)
Lemma unescape_any_order (o : table) (s : string) :
  Permutation o entityTable -> Contains s "&amp;" = false ->
  unescapeCommonEntities o s = decode plainEntities s.
Proof.
  intros P H. unfold unescapeCommonEntities.
  assert (Ia : In ampEntity o).
  { apply (Permutation_in _ (Permutation_sym P)). unfold entityTable, ampEntity.
    cbn [In]. tauto. }
  apply in_split in Ia as [pre [post Eo]]. subst o.
  assert (Pp : Permutation (pre ++ post)%list plainEntities).
  { apply (Permutation_app_inv pre post
             [("&quot;", DQ); ("&#34;", DQ); ("&apos;", "'"); ("&#39;", "'")]
             [("&lt;", "<"); ("&gt;", ">"); ("&nbsp;", " ")] ampEntity).
    exact P. }
  assert (Ap : apart (map fst entityTable) (pre ++ post)%list).
  { apply (apart_incl _ plainEntities); [|exact plainEntities_apart].
    intros z Hz. apply (Permutation_in _ Pp Hz). }
  assert (Apre : apart (map fst entityTable) pre).
  { apply (apart_incl _ (pre ++ post)%list); [|exact Ap].
    intros z Hz. apply in_or_app. now left. }
  rewrite (replaceEach_app pre (ampEntity :: post)).
  change (replaceEach (ampEntity :: post) (replaceEach pre s))
    with (replaceEach post (ReplaceAll (replaceEach pre s) "&amp;" "&")).
  rewrite ReplaceAll_absent.
  - rewrite <- replaceEach_app.
    rewrite (replaceEach_is_decode _ _ _ Ap).
    apply (decode_perm _ _ _ Ap Pp).
  - rewrite (replaceEach_is_decode _ _ _ Apre).
    apply (decode_without (map fst entityTable) pre "&amp;" Apre) with (n := String.length s);
      [cbn; tauto|discriminate|lia|exact H].
Qed.

(** X22.  When the order of the visit of the entities matters.  On a
    text without [&amp;] it does not: in any order [unescapeCommonEntities]
    gives what one pass from the left gives that writes, for each of the
    seven other entities, its character.  On a text with [&amp;] it can:
    an entity escaped once more is unescaped twice when [&amp;] is
    visited before it, and once when it is visited after it. *)
Theorem entities_order_free_without_amp :
  (forall o1 o2 s,
      Permutation o1 entityTable -> Permutation o2 entityTable ->
      Contains s "&amp;" = false ->
      unescapeCommonEntities o1 s = unescapeCommonEntities o2 s
      /\ unescapeCommonEntities o1 s = decode plainEntities s)
  /\ (Permutation ampLast entityTable
      /\ unescapeCommonEntities entityTable "&amp;lt;" = "<"
      /\ unescapeCommonEntities ampLast "&amp;lt;" = "&lt;").
Proof.
  split.
  - intros o1 o2 s P1 P2 H. split.
    + now rewrite (unescape_any_order o1 s P1 H), (unescape_any_order o2 s P2 H).
    + exact (unescape_any_order o1 s P1 H).
  - split; [|split; vm_compute; reflexivity].
    unfold ampLast, entityTable.
    do 4 apply perm_skip.
    apply Permutation_sym.
    apply (Permutation_cons_append
             [("&lt;", "<"); ("&gt;", ">"); ("&nbsp;", " ")] ("&amp;", "&")).
Qed.

Lemma entities_order_free_without_amp_witness :
  Permutation ampLast entityTable
  /\ Permutation entityTable entityTable
  /\ Contains "a &lt; b &#39;&quot;" "&amp;" = false
  /\ unescapeCommonEntities ampLast "a &lt; b &#39;&quot;"
     = unescapeCommonEntities entityTable "a &lt; b &#39;&quot;"
  /\ unescapeCommonEntities ampLast "a &lt; b &#39;&quot;"
     = decode plainEntities "a &lt; b &#39;&quot;".
Proof.
  destruct entities_order_free_without_amp as [F [P _]].
  assert (H : Contains "a &lt; b &#39;&quot;" "&amp;" = false) by reflexivity.
  split; [exact P|]. split; [apply Permutation_refl|]. split; [exact H|].
  exact (F ampLast entityTable "a &lt; b &#39;&quot;" P (Permutation_refl _) H).
Defined.

End EntityFacts.

Open Scope list_scope.
Open Scope string_scope.

(** * The renderer by template *)

Section TemplateFacts.
Import GoStrings Utils Models Markdown TextNotions RenderNotions.

Lemma Contains_ranged {A : Type} (body : A -> string) (l : list A) (x : A)
  (y : string) :
  In x l -> Contains (body x) y = true -> Contains (ranged body l) y = true.
Proof. apply Contains_element. Qed.

Lemma Contains_title (a b rest : string) : Contains (a ++ b ++ rest) (a ++ b) = true.
Proof.
  replace (a ++ b ++ rest) with ((a ++ b) ++ rest) by (now rewrite app_assoc_s).
  apply Contains_here.
Qed.

Lemma Contains_templateExamples (examples : list Example.t) (ex : Example.t) :
  In ex examples -> Contains (templateExamples examples) "```go" = true.
Proof.
  intros H. unfold templateExamples.
  destruct examples as [|z l]; [contradiction|].
  cbn [List.length Nat.ltb Nat.leb].
  do 3 apply Contains_after. apply Contains_before.
  apply (Contains_ranged templateExample (z :: l) ex _ H).
  unfold templateExample. do 6 apply Contains_after. apply Contains_here.
Qed.

(** X23.  What the test of [ConvertToMarkdown] asks of one record holds of
    every record: the text begins with the title of the package, has the
    headings of the functions and of the types, a heading with its name
    for every function and every type, followed by its signature or, in
    brackets, its kind; and it has a fence of Go code as soon as a
    function or a type has an example. *)
Theorem template_meets_its_test (pkg : Package.t) :
  HasPrefix (ConvertToMarkdown pkg) ("# " ++ Package.Name pkg) = true
  /\ Contains (ConvertToMarkdown pkg) "## Functions" = true
  /\ Contains (ConvertToMarkdown pkg) "## Types" = true
  /\ (forall f, In f (Package.Functions pkg) ->
        Contains (ConvertToMarkdown pkg) ("### " ++ Function.Name f) = true
        /\ Contains (ConvertToMarkdown pkg) (LF ++ Function.Signature f ++ LF) = true)
  /\ (forall t, In t (Package.Types pkg) ->
        Contains (ConvertToMarkdown pkg)
          ("### " ++ Type_.Name t ++ " (" ++ Type_.Kind t ++ ")") = true)
  /\ (forall ex,
        (exists f, In f (Package.Functions pkg) /\ In ex (Function.Examples f))
        \/ (exists t, In t (Package.Types pkg) /\ In ex (Type_.Examples t)) ->
        Contains (ConvertToMarkdown pkg) "```go" = true).
Proof.
  assert (Fn : forall f y, In f (Package.Functions pkg) ->
             Contains (templateFunction f) y = true ->
             Contains (ConvertToMarkdown pkg) y = true).
  { intros f y Hf H. unfold ConvertToMarkdown.
    do 25 apply Contains_after. apply Contains_before.
    now apply (Contains_ranged templateFunction _ f). }
  assert (Ty : forall t y, In t (Package.Types pkg) ->
             Contains (templateType t) y = true ->
             Contains (ConvertToMarkdown pkg) y = true).
  { intros t y Ht H. unfold ConvertToMarkdown.
    do 31 apply Contains_after. apply Contains_before.
    now apply (Contains_ranged templateType _ t). }
  split; [|split; [|split; [|split; [|split]]]].
  - unfold ConvertToMarkdown.
    replace ("# " ++ Package.Name pkg ++ LF ++ LF ++ Package.Description pkg
             ++ LF ++ LF ++ _)
      with (("# " ++ Package.Name pkg) ++ LF ++ LF ++ Package.Description pkg
            ++ LF ++ LF ++ (if negb (Package.Synopsis pkg =? "")
      then "**Synopsis:** " ++ Package.Synopsis pkg else "")
  ++ LF ++ LF
  ++ (if negb (Package.Module_ pkg =? "")
      then "**Module:** " ++ Package.Module_ pkg
           ++ (if negb (Package.Version pkg =? "")
               then " (" ++ Package.Version pkg ++ ")" else "")
      else "")
  ++ LF ++ LF
  ++ (if negb (Package.ImportPath pkg =? "")
      then "**Import Path:** " ++ Package.ImportPath pkg else "")
  ++ LF ++ LF
  ++ (if negb (Package.License pkg =? "")
      then "**License:** " ++ Package.License pkg else "")
  ++ LF ++ LF
  ++ (if negb (Package.Repository pkg =? "")
      then "**Repository:** " ++ Package.Repository pkg else "")
  ++ LF ++ LF ++ "## Functions" ++ LF ++ LF
  ++ ranged templateFunction (Package.Functions pkg)
  ++ LF ++ LF ++ "## Types" ++ LF ++ LF
  ++ ranged templateType (Package.Types pkg)
  ++ LF ++ LF ++ "## Variables" ++ LF ++ LF
  ++ ranged templateVariable (Package.Variables pkg)
  ++ LF ++ LF ++ "## Constants" ++ LF ++ LF
  ++ ranged templateConstant (Package.Constants pkg))
      by (now rewrite !app_assoc_s).
    apply HasPrefix_self.
  - unfold ConvertToMarkdown. do 22 apply Contains_after. apply Contains_here.
  - unfold ConvertToMarkdown. do 28 apply Contains_after. apply Contains_here.
  - intros f Hf. split.
    + apply (Fn f _ Hf). unfold templateFunction.
      apply Contains_after. apply Contains_title.
    + apply (Fn f _ Hf). unfold templateFunction.
      do 4 apply Contains_after.
      replace (LF ++ Function.Signature f ++ LF ++ LF ++ Function.Description f
               ++ LF ++ LF ++ templateExamples (Function.Examples f) ++ LF)
        with ((LF ++ Function.Signature f ++ LF) ++ LF ++ Function.Description f
              ++ LF ++ LF ++ templateExamples (Function.Examples f) ++ LF)
        by (now rewrite !app_assoc_s).
      apply Contains_here.
  - intros t Ht. apply (Ty t _ Ht). unfold templateType. apply Contains_after.
    replace ("### " ++ Type_.Name t ++ " (" ++ Type_.Kind t ++ ")" ++ LF
             ++ Type_.Definition_ t ++ LF ++ LF ++ Type_.Description t ++ LF ++ LF
             ++ _)
      with (("### " ++ Type_.Name t ++ " (" ++ Type_.Kind t ++ ")") ++ LF
            ++ Type_.Definition_ t ++ LF ++ LF ++ Type_.Description t ++ LF ++ LF
            ++ (if (0 <? List.length (Type_.Methods t))%nat
      then LF ++ "#### Methods" ++ LF ++ ranged templateMethod (Type_.Methods t)
           ++ LF ++ "  "
      else "")
  ++ LF ++ LF
  ++ templateExamples (Type_.Examples t)
  ++ LF)
      by (now rewrite !app_assoc_s).
    apply Contains_here.
  - intros ex [[f [Hf He]]|[t [Ht He]]].
    + apply (Fn f _ Hf). unfold templateFunction.
      do 11 apply Contains_after. apply Contains_before.
      now apply (Contains_templateExamples _ ex).
    + apply (Ty t _ Ht). unfold templateType.
      do 16 apply Contains_after. apply Contains_before.
      now apply (Contains_templateExamples _ ex).
Qed.

Lemma template_meets_its_test_witness :
  1000 <= String.length (ConvertToMarkdown testPkg)
  /\ Contains (ConvertToMarkdown testPkg) "# testpkg" = true
  /\ Contains (ConvertToMarkdown testPkg) "## Functions" = true
  /\ Contains (ConvertToMarkdown testPkg) "TestFunc" = true
  /\ Contains (ConvertToMarkdown testPkg) "## Types" = true
  /\ Contains (ConvertToMarkdown testPkg) "TestType" = true
  /\ Contains (ConvertToMarkdown testPkg) "```go" = true.
Proof.
  destruct (template_meets_its_test testPkg) as [_ [F [T [_ [_ G]]]]].
  split; [apply Nat.leb_le; vm_compute; reflexivity|].
  split; [vm_compute; reflexivity|]. split; [exact F|].
  split; [vm_compute; reflexivity|]. split; [exact T|].
  split; [vm_compute; reflexivity|].
  apply (G (Example.mk "AnotherExample" "return nil" "")).
  left. eexists. split; [right; left; reflexivity|left; reflexivity].
Defined.

End TemplateFacts.
